(** * waitexit: countdown with "press any key", verified against its description

    A shallow embedding of [waitexit.c] (the variant with [-m], [-f] and [-z]):
    the message renderer [prepare_message], the argument parser
    [parse_arguments], the poller [wait_for_one_second_or_input], the terminal
    set-up [init_termio] / [reset_termio] and [main] with its countdown loop.

    C [int]s are [Z]; the option bit set is a [Z] handled with [Z.lor] and
    [Z.land]; C strings are [string]s (the bytes before the terminating NUL);
    the process environment (terminal attributes, registered exit handlers,
    what was written to which stream, how often standard input was polled) is
    an explicit [world] record threaded through the calls.  What [select]
    returns at each poll is an input of the model ([select_results]).

    Where C leaves the behaviour open the model says so.  A message that
    does not fit the buffer [main] has for it gives no next state ([tick]
    returns [None]); [message_fits] is the condition under which this does
    not happen.  What [sscanf] stores for a number that does not fit an
    [int] is a parameter ([int_conv]).

    [main] takes the call of [print_usage] as one event.  The help text is
    modelled in full further down: [get_terminal_width], [print_aligned]
    with its buffer and its reads of the text, the lines of [print_usage],
    and [main_full], which is [main] with that call carried out (it has no
    result where [print_aligned] has no defined behaviour).  The first
    version of the program is modelled too, and the later one compared with
    it. *)

From Stdlib Require Import ZArith List String Ascii Bool Lia Arith.
From Stdlib Require Import DecimalString.
From Stdlib Require DecimalFacts DecimalPos.
Import ListNotations.

Local Open Scope string_scope.
Local Open Scope Z_scope.

(** ** C library pieces the program relies on *)

Module Libc.

(** [sprintf(dst, "%d", n)]: the decimal text of [n], with a leading minus
    sign for negative numbers. *)
Definition sprintf_d (n : Z) : list ascii :=
  list_ascii_of_string (NilZero.string_of_int (Z.to_int n)).

(** [isspace] in the C locale. *)
Definition isspace (c : ascii) : bool :=
  match nat_of_ascii c with
  | 32%nat | 9%nat | 10%nat | 11%nat | 12%nat | 13%nat => true
  | _ => false
  end.

(** Value of a digit character (letters count from ten, as [strtol] does). *)
Definition digit_val (c : ascii) : option Z :=
  let n := Z.of_nat (nat_of_ascii c) in
  if (48 <=? n) && (n <=? 57) then Some (n - 48)
  else if (97 <=? n) && (n <=? 122) then Some (n - 87)
  else if (65 <=? n) && (n <=? 90) then Some (n - 55)
  else None.

Definition is_digit (base : Z) (c : ascii) : bool :=
  match digit_val c with
  | Some d => d <? base
  | None => false
  end.

Fixpoint skip_spaces (s : list ascii) : list ascii :=
  match s with
  | c :: r => if isspace c then skip_spaces r else s
  | [] => []
  end.

(** Accumulates the digits of [s] that are valid in [base], most significant
    first, and stops at the first other character. *)
Fixpoint read_digits (base acc : Z) (s : list ascii) : Z :=
  match s with
  | c :: r =>
      match digit_val c with
      | Some d => if d <? base then read_digits base (acc * base + d) r else acc
      | None => acc
      end
  | [] => acc
  end.

(** The unsigned part of a [%i] conversion: [0x]/[0X] followed by a
    hexadecimal digit selects base sixteen, a leading [0] base eight, any
    other digit base ten; [None] when no digit can be read at all. *)
Definition read_unsigned (s : list ascii) : option Z :=
  match s with
  | "0"%char :: x :: h :: r =>
      if ((x =? "x")%char || (x =? "X")%char) && is_digit 16 h
      then Some (read_digits 16 0 (h :: r))
      else Some (read_digits 8 0 (x :: h :: r))
  | "0"%char :: r => Some (read_digits 8 0 r)
  | c :: r => if is_digit 10 c then Some (read_digits 10 0 s) else None
  | [] => None
  end.

(** The integer a [%i] conversion reads at the start of [s], or [None] when
    the conversion fails.  White space is skipped, one sign is accepted, and
    the text after the number is left unread, so it does not make the
    conversion fail. *)
Definition scan_i (s : string) : option Z :=
  match skip_spaces (list_ascii_of_string s) with
  | "-"%char :: r => option_map Z.opp (read_unsigned r)
  | "+"%char :: r => read_unsigned r
  | r => read_unsigned r
  end.

Definition INT_MAX : Z := 2147483647.
Definition INT_MIN : Z := -2147483648.

Definition fits_int (v : Z) : bool := (INT_MIN <=? v) && (v <=? INT_MAX).

(** [sscanf(s, "%i", &val) == 1] with the value left in [val], or [None].
    A number that fits an [int] is stored as it is.  What is stored for a
    number that does not fit is not settled by the C standard; [int_conv]
    stands for what the C library at hand makes of it. *)
Definition sscanf_i (int_conv : Z -> Z) (s : string) : option Z :=
  option_map (fun v => if fits_int v then v else int_conv v) (scan_i s).

(** One such library: the low 32 bits, read as a signed number. *)
Definition truncate_int (v : Z) : Z := (v + 2 ^ 31) mod 2 ^ 32 - 2 ^ 31.

(** *** [getopt(3)], GNU flavour

    One call of [getopt] is summarised by what it returns and leaves behind:
    the option character ([?] for an error), the value of [optarg], and the
    diagnostic it has written to standard error itself when [opterr] is not
    zero. *)
Record getopt_ret := {
  opt : ascii;
  optarg : string;
  diag : string
}.

(** Whether [c] is an option of [optstring], and if so whether it takes an
    argument (a colon follows it). *)
Fixpoint takes_arg (optstring : list ascii) (c : ascii) : option bool :=
  match optstring with
  | o :: rest =>
      if (o =? c)%char && negb (c =? ":")%char && negb (c =? ";")%char then
        Some match rest with
             | ":"%char :: _ => true
             | _ => false
             end
      else takes_arg rest c
  | [] => None
  end.

Definition unknown_option (self : string) (c : ascii) : getopt_ret :=
  {| opt := "?"; optarg := "";
     diag := self ++ ": invalid option -- '" ++ String c "'"
             ++ String "010" "" |}.

Definition missing_argument (self : string) (c : ascii) : getopt_ret :=
  {| opt := "?"; optarg := "";
     diag := self ++ ": option requires an argument -- '" ++ String c "'"
             ++ String "010" "" |}.

(** The options of one argument [-abc]: each character in turn; an option
    that takes an argument uses the rest of the word, or else the next word
    ([next]).  The flag returned says whether the next word was used. *)
Fixpoint scan_cluster (self : string) (optstring : list ascii)
    (cs : list ascii) (next : option string) : list getopt_ret * bool :=
  match cs with
  | [] => ([], false)
  | c :: cs' =>
      match takes_arg optstring c with
      | None =>
          let (rets, used) := scan_cluster self optstring cs' next in
          (unknown_option self c :: rets, used)
      | Some false =>
          let (rets, used) := scan_cluster self optstring cs' next in
          ({| opt := c; optarg := ""; diag := "" |} :: rets, used)
      | Some true =>
          match cs', next with
          | _ :: _, _ =>
              ([{| opt := c; optarg := string_of_list_ascii cs'; diag := "" |}],
               false)
          | [], Some a => ([{| opt := c; optarg := a; diag := "" |}], true)
          | [], None => ([missing_argument self c], false)
          end
      end
  end.

(** All the calls of [getopt] over the words after [argv[0]], up to the call
    that returns -1, and the words [argv[optind..]] left for the caller.
    Words that are not options are moved behind the options (the GNU
    permutation); [--] ends the options.  [skip] is set when the word at the
    head was already used as an option's argument. *)
Fixpoint getopt_scan (self : string) (optstring : list ascii) (skip : bool)
    (args : list string) : list getopt_ret * list string :=
  match args with
  | [] => ([], [])
  | a :: rest =>
      if skip then getopt_scan self optstring false rest
      else if (a =? "--")%string then ([], rest)
      else
        match list_ascii_of_string a with
        | "-"%char :: c :: cs =>
            let (rets, used) :=
              scan_cluster self optstring (c :: cs) (hd_error rest) in
            let (rets', operands) := getopt_scan self optstring used rest in
            ((rets ++ rets')%list, operands)
        | _ =>
            let (rets', operands) := getopt_scan self optstring false rest in
            (rets', a :: operands)
        end
  end.

Definition getopt_all (argv : list string) (optstring : string)
    : list getopt_ret * list string :=
  getopt_scan (hd "" argv) (list_ascii_of_string optstring) false (tl argv).

(** [strnlen(s, maxlen)]. *)
Definition strnlen (s : string) (maxlen : nat) : nat :=
  Nat.min (String.length s) maxlen.

End Libc.

(** ** The message renderer *)

Definition DEFAULT_MSG_TEMPLATE : string :=
  "Waiting for %S seconds, press any key to exit..".

Definition LF : ascii := "010"%char.
Definition CR : ascii := "013"%char.
Definition NUL : ascii := "000"%char.

(** [template[i]]; the byte at index [strlen(template)] is the terminator. *)
Definition char_at (template : list ascii) (i : nat) : ascii :=
  nth i template NUL.

(** The [for] loop of [prepare_message].  [i] is the loop index, [dst] the
    bytes written through the destination pointer so far.  Each iteration
    consumes one unit of [fuel]; [None] means the fuel ran out before the loop
    condition failed. *)
Fixpoint prepare_loop (fuel : nat) (template : list ascii) (template_len : nat)
    (seconds_left : Z) (i : nat) (dst : list ascii) : option (list ascii) :=
  match fuel with
  | O => None
  | S fuel' =>
      if (i <? template_len)%nat then
        let c := char_at template i in
        if (c =? LF)%char || (c =? CR)%char then
          prepare_loop fuel' template template_len seconds_left (i + 1) dst
        else if (c =? "%")%char
                && (i <? template_len - 1)%nat
                && (char_at template (i + 1) =? "S")%char then
          prepare_loop fuel' template template_len seconds_left (i + 1 + 1)
            (dst ++ Libc.sprintf_d seconds_left)
        else
          prepare_loop fuel' template template_len seconds_left (i + 1)
            (dst ++ [c])
      else Some dst
  end.

(** [prepare_message(dst, template, seconds_left)], returning the string left
    in [dst].  The loop index grows by at least one per iteration, so
    [strlen(template) + 1] iterations are enough.  Whether the string fits
    what [dst] points to is the caller's business (see [tick]). *)
Definition prepare_message (template : string) (seconds_left : Z)
    : option string :=
  let t := list_ascii_of_string template in
  option_map string_of_list_ascii
    (prepare_loop (S (List.length t)) t (List.length t) seconds_left 0 []).

(** *** The renderer as the description words it

    Left to right: [%S] becomes the decimal text of the seconds, a carriage
    return or line feed is dropped, any other character is copied. *)
Definition is_linebreak (c : ascii) : bool := (c =? LF)%char || (c =? CR)%char.

Fixpoint render_chars (t : list ascii) (s : Z) : list ascii :=
  match t with
  | [] => []
  | c :: r =>
      if is_linebreak c then render_chars r s
      else if (c =? "%")%char then
        match r with
        | c' :: r' =>
            if (c' =? "S")%char
            then (Libc.sprintf_d s ++ render_chars r' s)%list
            else c :: render_chars r s
        | [] => [c]
        end
      else c :: render_chars r s
  end.

Definition render (template : string) (s : Z) : string :=
  string_of_list_ascii (render_chars (list_ascii_of_string template) s).

(** A template has a placeholder when a percent sign is directly followed by
    an upper-case S. *)
Fixpoint has_placeholder (t : list ascii) : bool :=
  match t with
  | c :: r =>
      match r with
      | c' :: _ => ((c =? "%")%char && (c' =? "S")%char) || has_placeholder r
      | [] => false
      end
  | [] => false
  end.

Definition starts_with_S (t : list ascii) : bool :=
  match t with
  | c :: _ => (c =? "S")%char
  | [] => false
  end.

Definition strip_linebreaks (t : list ascii) : list ascii :=
  filter (fun c => negb (is_linebreak c)) t.

(** ** The process environment *)

Inductive stream := Stdout | Stderr.

(** What the program writes: a string to a stream, or the call
    [print_usage(self)] taken as one event.  The event says that the call
    was made; what the call writes (all of it to standard error) and
    whether it returns at all is worked out further down
    ([print_usage_text], and [main_full] for [main] with the call carried
    out). *)
Inductive out_event :=
| Fputs (f : stream) (text : string)
| Usage (self : string).

(** The flag words of [struct termios]. *)
Record termios := {
  c_iflag : Z;
  c_oflag : Z;
  c_cflag : Z;
  c_lflag : Z
}.

(** Linux values of the two local-mode flags the program clears. *)
Definition ICANON : Z := 2.
Definition ECHO : Z := 8.

Inductive handler := Reset_termio.

Record world := {
  stdin_term : option termios;   (* attributes of the terminal on standard
                                    input; [None] when it is not a terminal *)
  default_term : termios;        (* the static [default_term] *)
  exit_handlers : list handler;  (* registered with [atexit], latest first *)
  output : list out_event;       (* everything written, oldest first *)
  polls : nat;                   (* calls of [select] so far *)
  drains : nat;                  (* calls of [read] so far *)
  restores : nat;                (* runs of [reset_termio] so far *)
  stdout_unbuffered : bool
}.

Definition zero_termios : termios :=
  {| c_iflag := 0; c_oflag := 0; c_cflag := 0; c_lflag := 0 |}.

(** The process as it starts: [term] is the terminal on standard input, if
    there is one. *)
Definition initial_world (term : option termios) : world :=
  {| stdin_term := term; default_term := zero_termios; exit_handlers := [];
     output := []; polls := 0; drains := 0; restores := 0;
     stdout_unbuffered := false |}.

Definition set_output (w : world) (o : list out_event) : world :=
  {| stdin_term := stdin_term w; default_term := default_term w;
     exit_handlers := exit_handlers w; output := o;
     polls := polls w; drains := drains w; restores := restores w;
     stdout_unbuffered := stdout_unbuffered w |}.

Definition emit (e : out_event) (w : world) : world :=
  set_output w (output w ++ [e])%list.

Definition fputs (text : string) (f : stream) (w : world) : world :=
  emit (Fputs f text) w.

(** The call of [print_usage], as an event. *)
Definition print_usage (self : string) (w : world) : world :=
  emit (Usage self) w.

(** The bytes written to standard output, in order. *)
Fixpoint stdout_bytes (evs : list out_event) : string :=
  match evs with
  | Fputs Stdout text :: r => text ++ stdout_bytes r
  | _ :: r => stdout_bytes r
  | [] => ""
  end.

Definition to_stderr (e : out_event) : bool :=
  match e with
  | Fputs Stdout _ => false
  | _ => true
  end.

(** What went to standard error, in order. *)
Definition stderr_events (evs : list out_event) : list out_event :=
  filter to_stderr evs.

(** [w'] is [w] after some writes, all of them to standard error. *)
Definition wrote_only_stderr (w w' : world) : Prop :=
  exists errs,
    forallb to_stderr errs = true
    /\ w' = set_output w (output w ++ errs)%list.

(** [w'] is [w] after at least one write, all of them to standard error. *)
Definition reported_error (w w' : world) : Prop :=
  exists errs,
    errs <> []
    /\ forallb to_stderr errs = true
    /\ w' = set_output w (output w ++ errs)%list.

Section Program.

(** What the C library stores for a number on the command line that does
    not fit an [int]. *)
Variable int_conv : Z -> Z.

Set Default Proof Using "Type".

(** ** Settings and the argument parser *)

Record Settings := {
  countdown : Z;
  opts : Z;
  exitcode : Z;
  template : string
}.

Definition OPT_SILENT : Z := 1.
Definition OPT_HELP : Z := 2.
Definition OPT_SUPPRESS_EXIT_INFO : Z := 4.
Definition OPT_FAIL_NO_USER_INTERACTION : Z := 8.

(** [settings.opts & flag] as a condition. *)
Definition has_opt (settings : Settings) (flag : Z) : bool :=
  negb (Z.land (opts settings) flag =? 0).

Definition set_opts (settings : Settings) (o : Z) : Settings :=
  {| countdown := countdown settings; opts := o;
     exitcode := exitcode settings; template := template settings |}.

Definition set_exitcode (settings : Settings) (e : Z) : Settings :=
  {| countdown := countdown settings; opts := opts settings;
     exitcode := e; template := template settings |}.

Definition set_template (settings : Settings) (t : string) : Settings :=
  {| countdown := countdown settings; opts := opts settings;
     exitcode := exitcode settings; template := t |}.

Definition set_countdown (settings : Settings) (n : Z) : Settings :=
  {| countdown := n; opts := opts settings;
     exitcode := exitcode settings; template := template settings |}.

(** [getopt] has written its own diagnostic, if it had one. *)
Definition getopt_report (r : Libc.getopt_ret) (w : world) : world :=
  if (Libc.diag r =? "")%string then w else fputs (Libc.diag r) Stderr w.

(** The [while ((c = getopt(...)) != -1) switch (c)] loop of
    [parse_arguments], over the successive results of [getopt].  [None] is
    [return 0]. *)
Fixpoint parse_options (rets : list Libc.getopt_ret) (settings : Settings)
    (w : world) : option Settings * world :=
  match rets with
  | [] => (Some settings, w)
  | r :: rest =>
      let w := getopt_report r w in
      let c := Libc.opt r in
      let optarg := Libc.optarg r in
      if (c =? "s")%char then
        parse_options rest
          (set_opts settings (Z.lor (opts settings) OPT_SILENT)) w
      else if (c =? "z")%char then
        parse_options rest
          (set_opts settings (Z.lor (opts settings) OPT_SUPPRESS_EXIT_INFO)) w
      else if (c =? "f")%char then
        parse_options rest
          (set_exitcode
             (set_opts settings
                (Z.lor (opts settings) OPT_FAIL_NO_USER_INTERACTION)) 0) w
      else if (c =? "m")%char then
        if (256 <=? Libc.strnlen optarg 256)%nat then
          (None,
           fputs "Error: message template too big, max size is 255 chars."
             Stderr w)
        else parse_options rest (set_template settings optarg) w
      else if (c =? "e")%char then
        match Libc.sscanf_i int_conv optarg with
        | None =>
            (None,
             fputs ("Error: -e requires an integer argument: " ++ optarg
                    ++ String LF "") Stderr w)
        | Some val =>
            if (val <? 0) || (val >? 255) then
              (None,
               fputs ("Error: -e requires integer argument between 0 and 255: "
                      ++ optarg ++ String LF "") Stderr w)
            else
              parse_options rest
                (set_opts (set_exitcode settings val)
                   (Z.land (opts settings)
                      (Z.lnot OPT_FAIL_NO_USER_INTERACTION))) w
        end
      else if (c =? "h")%char then
        parse_options rest
          (set_opts settings (Z.lor (opts settings) OPT_HELP)) w
      else if (c =? "?")%char then (None, w)
      else parse_options rest settings w
  end.

Definition initial_settings : Settings :=
  {| countdown := -1; opts := 0; exitcode := 0;
     template := DEFAULT_MSG_TEMPLATE |}.

(** The part of [parse_arguments] after the option loop: the first remaining
    word, if any, is the countdown. *)
Definition parse_operands (operands : list string) (settings : Settings)
    (w : world) : option Settings * world :=
  match operands with
  | first :: _ =>
      match Libc.sscanf_i int_conv first with
      | Some val =>
          if val <? 0 then
            (None,
             fputs ("Error: countdown must be a positive integer: " ++ first
                    ++ String LF "") Stderr w)
          else (Some (set_countdown settings val), w)
      | None =>
          (None,
           fputs ("Error: countdown must be a positive integer: " ++ first
                  ++ String LF "") Stderr w)
      end
  | [] => (Some settings, w)
  end.

(** [parse_arguments] on what [getopt] yields for the command line. *)
Definition parse_getopt (g : list Libc.getopt_ret * list string) (w : world)
    : option Settings * world :=
  match parse_options (fst g) initial_settings w with
  | (Some settings, w') => parse_operands (snd g) settings w'
  | (None, w') => (None, w')
  end.

(** The option string handed to [getopt]. *)
Definition OPTSTRING : string := "shzfe:m:".

Definition parse_arguments (argv : list string) (w : world)
    : option Settings * world :=
  parse_getopt (Libc.getopt_all argv OPTSTRING) w.

(** ** The poller *)

(** [wait_for_one_second_or_input]: one [select] on standard input with a
    timeout of one second.  [select_results k] is what the [k]-th call of
    [select] returns (counting from 0): 0 for a timeout, anything else when
    there is input (or an error).  A non-zero result is followed by one
    [read] that discards what is pending, and is returned. *)
Definition wait_for_one_second_or_input (select_results : nat -> Z)
    (w : world) : Z * world :=
  let retval := select_results (polls w) in
  let w1 :=
    {| stdin_term := stdin_term w; default_term := default_term w;
       exit_handlers := exit_handlers w; output := output w;
       polls := S (polls w); drains := drains w; restores := restores w;
       stdout_unbuffered := stdout_unbuffered w |} in
  if retval =? 0 then (0, w1)
  else
    (retval,
     {| stdin_term := stdin_term w1; default_term := default_term w1;
        exit_handlers := exit_handlers w1; output := output w1;
        polls := polls w1; drains := S (drains w1); restores := restores w1;
        stdout_unbuffered := stdout_unbuffered w1 |}).

(** ** Terminal mode *)

Definition isatty (w : world) : bool :=
  match stdin_term w with
  | Some _ => true
  | None => false
  end.

(** [tcgetattr(fileno(stdin), &t)]: fills [t] when standard input is a
    terminal and leaves it as it was otherwise. *)
Definition tcgetattr (w : world) (t : termios) : termios :=
  match stdin_term w with
  | Some cur => cur
  | None => t
  end.

(** [tcsetattr(fileno(stdin), TCSANOW, &t)]: fails without effect when
    standard input is not a terminal. *)
Definition tcsetattr (t : termios) (w : world) : world :=
  {| stdin_term := match stdin_term w with
                   | Some _ => Some t
                   | None => None
                   end;
     default_term := default_term w; exit_handlers := exit_handlers w;
     output := output w; polls := polls w; drains := drains w;
     restores := restores w; stdout_unbuffered := stdout_unbuffered w |}.

Definition reset_termio (w : world) : world :=
  tcsetattr (default_term w)
    {| stdin_term := stdin_term w; default_term := default_term w;
       exit_handlers := exit_handlers w; output := output w;
       polls := polls w; drains := drains w; restores := S (restores w);
       stdout_unbuffered := stdout_unbuffered w |}.

Definition setvbuf_stdout_unbuffered (w : world) : world :=
  {| stdin_term := stdin_term w; default_term := default_term w;
     exit_handlers := exit_handlers w; output := output w;
     polls := polls w; drains := drains w; restores := restores w;
     stdout_unbuffered := true |}.

Definition set_default_term (t : termios) (w : world) : world :=
  {| stdin_term := stdin_term w; default_term := t;
     exit_handlers := exit_handlers w; output := output w;
     polls := polls w; drains := drains w; restores := restores w;
     stdout_unbuffered := stdout_unbuffered w |}.

Definition atexit (h : handler) (w : world) : world :=
  {| stdin_term := stdin_term w; default_term := default_term w;
     exit_handlers := h :: exit_handlers w; output := output w;
     polls := polls w; drains := drains w; restores := restores w;
     stdout_unbuffered := stdout_unbuffered w |}.

Definition clear_echo_icanon (t : termios) : termios :=
  {| c_iflag := c_iflag t; c_oflag := c_oflag t; c_cflag := c_cflag t;
     c_lflag := Z.land (c_lflag t) (Z.lnot (Z.lor ECHO ICANON)) |}.

Definition init_termio (w : world) : world :=
  let w := setvbuf_stdout_unbuffered w in
  if isatty w then
    let w := set_default_term (tcgetattr w (default_term w)) w in
    let w := atexit Reset_termio w in
    let term := tcgetattr w zero_termios in
    let term := clear_echo_icanon term in
    tcsetattr term w
  else w.

Definition run_handler (h : handler) (w : world) : world :=
  match h with
  | Reset_termio => reset_termio w
  end.

(** [exit]: the registered handlers run, the one registered last first. *)
Definition run_exit_handlers (w : world) : world :=
  fold_left (fun w h => run_handler h w) (exit_handlers w) w.

(** ** The countdown loop and [main] *)

Inductive exit_reason := Timeout | Interrupted.

(** The [while (seconds_left > 0)] loop as a machine: [Running] before the
    loop condition is tested, [Done] once the loop has been left, through the
    condition ([Timeout]) or through [break] ([Interrupted]). *)
Inductive loop_state :=
| Running (seconds_left : Z)
| Done (reason : exit_reason) (seconds_left : Z).

Definition seconds_left_of (st : loop_state) : Z :=
  match st with
  | Running n => n
  | Done _ n => n
  end.

Definition ESC : ascii := "027"%char.

(** ["\r\033[K"] *)
Definition CLEAR_LINE : string := String CR (String ESC "[K").

Definition dec (n : Z) : string := string_of_list_ascii (Libc.sprintf_d n).

(** The size of [msg], the buffer of [main] that takes the message. *)
Definition MSG_SIZE : nat := 1024.

(** One test of the loop condition and, when it holds, one run of the body.
    [None] stands for no defined behaviour: the message and its terminator
    do not fit [msg], so that [prepare_message] writes past its end (or
    [prepare_message] gave no string at all). *)
Definition tick (settings : Settings) (select_results : nat -> Z)
    (st : loop_state) (w : world) : option (loop_state * world) :=
  match st with
  | Running seconds_left =>
      if seconds_left >? 0 then
        match
          (if negb (has_opt settings OPT_SILENT) then
             match prepare_message (template settings) seconds_left with
             | Some msg =>
                 if (String.length msg <? MSG_SIZE)%nat
                 then Some (fputs msg Stdout w) else None
             | None => None
             end
           else Some w)
        with
        | Some w1 =>
            let (retval, w2) :=
              wait_for_one_second_or_input select_results w1 in
            if negb (retval =? 0) then Some (Done Interrupted seconds_left, w2)
            else
              let seconds_left := seconds_left - 1 in
              let w3 :=
                if negb (has_opt settings OPT_SILENT)
                then fputs CLEAR_LINE Stdout w2 else w2 in
              Some (Running seconds_left, w3)
        | None => None
        end
      else Some (Done Timeout seconds_left, w)
  | Done _ _ => Some (st, w)
  end.

(** [n] ticks in a row. *)
Fixpoint ticks (n : nat) (settings : Settings) (select_results : nat -> Z)
    (st : loop_state) (w : world) : option (loop_state * world) :=
  match n with
  | O => Some (st, w)
  | S n' =>
      match tick settings select_results st w with
      | Some (st', w') => ticks n' settings select_results st' w'
      | None => None
      end
  end.

(** The loop run to its end; [None] when it is not left within [fuel]
    ticks. *)
Fixpoint countdown_loop (fuel : nat) (settings : Settings)
    (select_results : nat -> Z) (st : loop_state) (w : world)
    : option (exit_reason * Z * world) :=
  match fuel with
  | O => None
  | S fuel' =>
      match tick settings select_results st w with
      | Some (Done reason seconds_left, w') => Some (reason, seconds_left, w')
      | Some (Running seconds_left, w') =>
          countdown_loop fuel' settings select_results (Running seconds_left) w'
      | None => None
      end
  end.

(** The exit code [main] settles on after the loop. *)
Definition resolve_exitcode (settings : Settings) (seconds_left : Z) : Z :=
  if (seconds_left =? 0) && has_opt settings OPT_FAIL_NO_USER_INTERACTION
  then 1 else exitcode settings.

(** ["\r\033[KExit %i after %i seconds.\n"] *)
Definition exit_summary (exitcode elapsed : Z) : string :=
  CLEAR_LINE ++ "Exit " ++ dec exitcode ++ " after " ++ dec elapsed
  ++ " seconds." ++ String LF "".

(** The outcome of a run of [main]: the value it returns, and how the loop
    ended when it ran ([None] when [main] returned before the loop). *)
Record outcome := {
  status : Z;
  loop_end : option (exit_reason * Z);
  final : world
}.

(** [main] from the loop on: the countdown has been checked and the terminal
    prepared.  The loop gets more fuel than it has seconds to count. *)
Definition main_loop (settings : Settings) (select_results : nat -> Z)
    (w : world) : option outcome :=
  let seconds := countdown settings in
  match countdown_loop (S (Z.to_nat seconds)) settings select_results
          (Running seconds) w with
  | Some (reason, seconds_left, w) =>
      let exitcode := resolve_exitcode settings seconds_left in
      let w :=
        if negb (has_opt settings OPT_SILENT) then
          if has_opt settings OPT_SUPPRESS_EXIT_INFO
          then fputs (CLEAR_LINE ++ String LF "") Stdout w
          else fputs (exit_summary exitcode (seconds - seconds_left)) Stdout w
        else w in
      Some {| status := exitcode; loop_end := Some (reason, seconds_left);
              final := w |}
  | None => None
  end.

Definition main (argv : list string) (select_results : nat -> Z) (w : world)
    : option outcome :=
  match parse_arguments argv w with
  | (None, w) => Some {| status := 1; loop_end := None; final := w |}
  | (Some settings, w) =>
      if has_opt settings OPT_HELP then
        Some {| status := 0; loop_end := None;
                final := print_usage (hd "" argv) w |}
      else if countdown settings <? 0 then
        Some {| status := 1; loop_end := None;
                final :=
                  fputs ("Error: number of seconds to wait must be specified."
                         ++ String LF "") Stderr w |}
      else main_loop settings select_results (init_termio w)
  end.

(** The whole process: [main] on a fresh process whose standard input is the
    terminal [term] (if any), then the exit handlers. *)
Definition run (argv : list string) (select_results : nat -> Z)
    (term : option termios) : option outcome :=
  match main argv select_results (initial_world term) with
  | Some o =>
      Some {| status := status o; loop_end := loop_end o;
              final := run_exit_handlers (final o) |}
  | None => None
  end.

(** No input ever. *)
Definition no_input : nat -> Z := fun _ => 0.

(** Input (one readable descriptor) at the [k]-th poll, counted from 1, and
    at no other. *)
Definition input_at (k : nat) : nat -> Z :=
  fun i => if (S i =? k)%nat then 1 else 0.

(** ** Messages that fit their buffer *)

(** With [seconds_left] seconds the message, if one is shown, fits [msg]. *)
Definition fits_msg (settings : Settings) (seconds_left : Z) : bool :=
  has_opt settings OPT_SILENT
  || match prepare_message (template settings) seconds_left with
     | Some msg => (String.length msg <? MSG_SIZE)%nat
     | None => false
     end.

(** Every message of the countdown fits: those for [countdown], ..., 1
    seconds. *)
Definition message_fits (settings : Settings) : bool :=
  forallb (fun k => fits_msg settings (Z.of_nat k))
    (seq 1 (Z.to_nat (countdown settings))).

(** The same for the settings a command line leads to. *)
Definition messages_fit (argv : list string) (term : option termios) : bool :=
  match parse_arguments argv (initial_world term) with
  | (Some settings, _) => message_fits settings
  | (None, _) => true
  end.

(** ** Command lines, as the description classifies them *)

(** The option [c] is among the results of [getopt]. *)
Definition given (c : ascii) (rets : list Libc.getopt_ret) : bool :=
  existsb (fun r => (Libc.opt r =? c)%char) rets.

(** An argument of [-e] that is no integer, or none from 0 to 255. *)
Definition bad_exit_code (optarg : string) : bool :=
  match Libc.sscanf_i int_conv optarg with
  | Some val => (val <? 0) || (255 <? val)
  | None => true
  end.

(** A result of [getopt] that is an error by itself: an unknown option or a
    missing argument ([?]), a bad argument of [-e], a template of more than
    255 bytes. *)
Definition bad_option (r : Libc.getopt_ret) : bool :=
  (Libc.opt r =? "?")%char
  || ((Libc.opt r =? "e")%char && bad_exit_code (Libc.optarg r))
  || ((Libc.opt r =? "m")%char && (255 <? String.length (Libc.optarg r))%nat).

(** A countdown that is no integer, or a negative one. *)
Definition bad_countdown (operand : string) : bool :=
  match Libc.sscanf_i int_conv operand with
  | Some val => val <? 0
  | None => true
  end.

(** The number at the start of [text], if there is one, fits an [int]. *)
Definition number_fits_int (text : string) : bool :=
  match Libc.scan_i text with
  | Some val => Libc.fits_int val
  | None => true
  end.

(** An invalid option: as [bad_option], the number after [-e] being one that
    fits an [int]. *)
Definition invalid_option (r : Libc.getopt_ret) : bool :=
  (Libc.opt r =? "?")%char
  || ((Libc.opt r =? "e")%char
      && bad_exit_code (Libc.optarg r) && number_fits_int (Libc.optarg r))
  || ((Libc.opt r =? "m")%char && (255 <? String.length (Libc.optarg r))%nat).

Definition invalid_countdown (operand : string) : bool :=
  bad_countdown operand && number_fits_int operand.

(** The invalid command lines: an invalid option, an invalid countdown, or
    no countdown at all. *)
Definition invalid_as_described (g : list Libc.getopt_ret * list string)
    : bool :=
  existsb invalid_option (fst g)
  || match snd g with
     | first :: _ => invalid_countdown first
     | [] => true
     end.

(** The same, except that a missing countdown is no error when help is asked
    for. *)
Definition invalid_configuration (g : list Libc.getopt_ret * list string)
    : bool :=
  existsb invalid_option (fst g)
  || match snd g with
     | first :: _ => invalid_countdown first
     | [] => negb (given "h" (fst g))
     end.

(** [getopt] with [opterr] set reports every error it returns. *)
Definition reports_errors (rets : list Libc.getopt_ret) : Prop :=
  forall r, In r rets -> Libc.opt r = "?"%char -> Libc.diag r <> "".

(** ** Further notions about command lines *)

(** [getopt] writes a diagnostic only when it returns [?]. *)
Definition reports_only_errors (rets : list Libc.getopt_ret) : Prop :=
  forall r, In r rets -> Libc.opt r <> "?"%char -> Libc.diag r = "".


(** ** What a countdown writes *)

(** The writes of [k] seconds that pass without input, counted down from
    [n]: each second its message, then the sequence that clears the line. *)
Fixpoint countdown_output (k : nat) (n : Z) (template : string)
    : list out_event :=
  match k with
  | O => []
  | S k' =>
      Fputs Stdout (render template n) :: Fputs Stdout CLEAR_LINE
      :: countdown_output k' (n - 1) template
  end.

(** The message on display when input arrives. *)
Definition interrupted_output (r : exit_reason) (n : Z) (template : string)
    : list out_event :=
  match r with
  | Interrupted => [Fputs Stdout (render template n)]
  | Timeout => []
  end.

(** One more poll, and one [read], for the input that ends the loop. *)
Definition interrupts (r : exit_reason) : nat :=
  match r with
  | Interrupted => 1
  | Timeout => 0
  end.

(** ** The size of a message *)

(** The places of a template where a percent sign is directly followed by an
    upper-case S. *)
Fixpoint placeholders (t : list ascii) : nat :=
  match t with
  | c :: r =>
      ((if (c =? "%")%char && starts_with_S r then 1 else 0)
       + placeholders r)%nat
  | [] => 0%nat
  end.

(** ** The help text

    [print_usage] in full: [get_terminal_width], [print_aligned] and the
    lines [print_usage] hands to it.  The static [term_width] is threaded
    beside the world; what [ioctl] reports for the terminal is an input of
    each call.  Strings hold no NUL. *)

(** [get_terminal_width]: [ioctl] is the [ws_col] that [TIOCGWINSZ] yields
    at this call, [None] when the call fails.  The result is returned with
    the new value of [term_width]. *)
Definition get_terminal_width (ioctl : option Z) (term_width : Z) : Z * Z :=
  if term_width =? 0 then
    match ioctl with
    | Some ws_col => (ws_col, ws_col)
    | None => (term_width, term_width)
    end
  else (term_width, term_width).

Definition FORMATTING_MAX_WIDTH : Z := 80.

(** [tw > 0 && tw < FORMATTING_MAX_WIDTH ? tw : FORMATTING_MAX_WIDTH] *)
Definition formatting_width_of (tw : Z) : Z :=
  if (tw >? 0) && (tw <? FORMATTING_MAX_WIDTH) then tw
  else FORMATTING_MAX_WIDTH.

(** [while (linemax > 0 && ! isspace(text[linemax-1])) --linemax;] *)
Fixpoint backtrack (text : list ascii) (linemax : nat) : nat :=
  match linemax with
  | O => O
  | S l =>
      if Libc.isspace (char_at text l) then linemax else backtrack text l
  end.

(** The [while (remain > 0)] loop of [print_aligned].  [text] is what the
    pointer [text] points to, [buf] the bytes written through [writeptr] so
    far, [size] the size of [buf].  [None] stands for no defined behaviour:
    a read past the terminator of [text], or a write past the end of
    [buf].  Every iteration that does not leave the loop writes at least the
    line feed, so the loop cannot take more than [size] iterations without
    writing past the end of [buf]: [fuel] is set accordingly.  [linemax] is
    the difference [formatting_width - prefix_len] as a signed number, which
    is what its conversion to [int] gives for a prefix wider than the
    formatting width. *)
Fixpoint wrap_loop (fuel : nat) (formatting_width : Z) (prefix_len size : nat)
    (text : list ascii) (remain : nat) (buf : list ascii)
    : option (list ascii) :=
  match fuel with
  | O => None
  | S fuel' =>
      if (0 <? remain)%nat then
        let text := Libc.skip_spaces text in
        let linemax := formatting_width - Z.of_nat prefix_len in
        (* [remain > linemax] compares as [size_t]: a negative [linemax]
           counts as a huge number *)
        if (0 <=? linemax) && (linemax <? Z.of_nat remain) then
          let linemax0 := Z.to_nat linemax in
          (* [text[linemax]] has to be inside the string, its terminator
             included *)
          if (linemax0 <=? List.length text)%nat then
            let linemax :=
              if Libc.isspace (char_at text linemax0) then linemax0
              else
                let l := backtrack text linemax0 in
                if (l =? 0)%nat then linemax0 else l in
            let buf :=
              (buf ++ firstn linemax text ++ [LF] ++ repeat " "%char prefix_len)
              %list in
            if (List.length buf <=? size)%nat then
              wrap_loop fuel' formatting_width prefix_len size
                (skipn linemax text) (remain - linemax) buf
            else None
          else None
        else
          (* last line: [stpncpy] writes [remain] bytes, the text and then
             NULs *)
          if (List.length buf + remain <=? size)%nat
          then Some (buf ++ firstn remain text)%list
          else None
      else Some buf
  end.

(** [print_aligned(out, first_line_prefix, text)], with the static
    [term_width] before and after. *)
Definition print_aligned (out : stream) (first_line_prefix text : string)
    (ioctl : option Z) (st : Z * world) : option (Z * world) :=
  let (term_width, w) := st in
  let (tw, term_width) := get_terminal_width ioctl term_width in
  let formatting_width := formatting_width_of tw in
  let prefix_len := String.length first_line_prefix in
  let w := fputs first_line_prefix out w in
  let remain := String.length text in
  let size := (1024 + remain)%nat in
  match wrap_loop (S size) formatting_width prefix_len size
          (list_ascii_of_string text) remain [] with
  | Some buf =>
      (* [strcpy(writeptr, "\n")] writes two bytes *)
      if (List.length buf + 2 <=? size)%nat then
        Some (term_width,
              fputs (string_of_list_ascii (buf ++ [LF])) out w)
      else None
  | None => None
  end.

(** [basename] of [libgen.h]: the last component of a path, trailing slashes
    set aside; ["."] for the empty path, ["/"] for a path of slashes only. *)
Fixpoint drop_slashes (p : list ascii) : list ascii :=
  match p with
  | c :: r => if (c =? "/")%char then drop_slashes r else p
  | [] => []
  end.

Fixpoint up_to_slash (p : list ascii) : list ascii :=
  match p with
  | c :: r => if (c =? "/")%char then [] else c :: up_to_slash r
  | [] => []
  end.

Definition basename (path : string) : string :=
  match list_ascii_of_string path with
  | [] => "."
  | p =>
      match drop_slashes (rev p) with
      | [] => "/"
      | q => string_of_list_ascii (rev (up_to_slash q))
      end
  end.

(** The calls of [print_aligned] that [print_usage(self)] makes, in order:
    prefix and text of each. *)
Definition usage_lines (self : string) : list (string * string) :=
  [("", "Prints a countdown in terminal while waiting to exit. When timer reaches zero or any input occurs, the program exits.");
   ("", "");
   ("Use: " ++ basename self ++ " [opts] N, ",
    "where N is number of seconds to wait.");
   ("", "");
   ("Options:", "");
   ("-m MSG  ", "Use a custom countdown message template, where '%S' is replaced by number of seconds left.");
   ("-e CODE ", "Exit with status CODE.");
   ("-f      ", "Exit with status 0 if user presses a key within the timeout, otherwise exit with non-zero code.");
   ("-z      ", "Suppress printing of wait time and status code on exit.");
   ("-s      ", "Be completely silent, do not output anything while waiting or on exit.");
   ("-h      ", "Show this help.")].

(** One call of [print_aligned] after the other; [ioctls k] is what [ioctl]
    reports at the [k]-th of them, counted from 0. *)
Fixpoint print_aligned_all (lines : list (string * string))
    (ioctls : nat -> option Z) (k : nat) (st : Z * world)
    : option (Z * world) :=
  match lines with
  | [] => Some st
  | (prefix, text) :: rest =>
      match print_aligned Stderr prefix text (ioctls k) st with
      | Some st' => print_aligned_all rest ioctls (S k) st'
      | None => None
      end
  end.

(** [print_usage(self)] line by line. *)
Definition print_usage_text (self : string) (ioctls : nat -> option Z)
    (st : Z * world) : option (Z * world) :=
  print_aligned_all (usage_lines self) ioctls 0 st.

(** The bytes written to standard error, in order. *)
Fixpoint stderr_bytes (evs : list out_event) : string :=
  match evs with
  | Fputs Stderr text :: r => text ++ stderr_bytes r
  | _ :: r => stderr_bytes r
  | [] => ""
  end.

(** ** [main] with the help text in full

    [main] above records the call of [print_usage] as the one event [Usage]
    and says nothing of what the call does.  Here the call is carried out:
    [main_full] is [main] line by line, with [print_usage_text] where
    [main] has the event; [ioctls] is what [ioctl] reports for the terminal
    at each call of [get_terminal_width], and the static [term_width] starts
    from 0.  There is no result when [print_usage] has no defined
    behaviour. *)
Definition main_full (argv : list string) (select_results : nat -> Z)
    (ioctls : nat -> option Z) (w : world) : option outcome :=
  match parse_arguments argv w with
  | (None, w) => Some {| status := 1; loop_end := None; final := w |}
  | (Some settings, w) =>
      if has_opt settings OPT_HELP then
        match print_usage_text (hd "" argv) ioctls (0, w) with
        | Some (_, w) => Some {| status := 0; loop_end := None; final := w |}
        | None => None
        end
      else if countdown settings <? 0 then
        Some {| status := 1; loop_end := None;
                final :=
                  fputs ("Error: number of seconds to wait must be specified."
                         ++ String LF "") Stderr w |}
      else main_loop settings select_results (init_termio w)
  end.

Definition run_full (argv : list string) (select_results : nat -> Z)
    (ioctls : nat -> option Z) (term : option termios) : option outcome :=
  match main_full argv select_results ioctls (initial_world term) with
  | Some o =>
      Some {| status := status o; loop_end := loop_end o;
              final := run_exit_handlers (final o) |}
  | None => None
  end.

(** *** Measuring what was printed *)

(** The column the cursor is in after [s], starting from column [cur]. *)
Fixpoint last_col (s : list ascii) (cur : nat) : nat :=
  match s with
  | c :: r => if (c =? LF)%char then last_col r 0 else last_col r (S cur)
  | [] => cur
  end.

(** The length of the longest line of [s], the first line starting in
    column [cur]. *)
Fixpoint widest (s : list ascii) (cur : nat) : nat :=
  match s with
  | c :: r =>
      if (c =? LF)%char then Nat.max cur (widest r 0) else widest r (S cur)
  | [] => cur
  end.

(** The characters of [s] that are not white space. *)
Definition nonblank (s : list ascii) : list ascii :=
  filter (fun c => negb (Libc.isspace c)) s.

(** The help text as the README shows it, for a program called [name]. *)
Definition README_usage (name : string) : string :=
  "Prints a countdown in terminal while waiting to exit. When timer reaches zero or" ++ String LF (
  "any input occurs, the program exits." ++ String LF (
  String LF (
  "Use: " ++ name ++ " [opts] N, where N is number of seconds to wait." ++ String LF (
  String LF (
  "Options:" ++ String LF (
  "-m MSG  Use a custom countdown message template, where '%S' is replaced by " ++ String LF (
  "        number of seconds left." ++ String LF (
  "-e CODE Exit with status CODE." ++ String LF (
  "-f      Exit with status 0 if user presses a key within the timeout, otherwise " ++ String LF (
  "        exit with non-zero code." ++ String LF (
  "-z      Suppress printing of wait time and status code on exit." ++ String LF (
  "-s      Be completely silent, do not output anything while waiting or on exit." ++ String LF (
  "-h      Show this help." ++ String LF ""))))))))))))).

(** A terminal width that makes [print_aligned] format for 80 columns:
    unknown (0), or 80 and more. *)
Definition full_width (tw : Z) : Prop := tw <= 0 \/ FORMATTING_MAX_WIDTH <= tw.

(** ** The first version of the program

    [waitexit.c] as it was before [-m], [-f] and [-z]: the options are
    [-s], [-e] and [-h], the message is fixed, and the help text is written
    line by line.  Its [init_termio] and [reset_termio] are those of the
    later version, and so is its poller, under the name
    [wait_key_pressed].  The [unsigned char] it keeps the exit code in only
    ever takes a value from 0 to 255. *)

Record Settings_v1 := {
  countdown_v1 : Z;
  opts_v1 : Z;
  exitcode_v1 : Z
}.

Definition has_opt_v1 (settings : Settings_v1) (flag : Z) : bool :=
  negb (Z.land (opts_v1 settings) flag =? 0).

Definition OPTSTRING_V1 : string := "she:".

Fixpoint parse_options_v1 (rets : list Libc.getopt_ret)
    (settings : Settings_v1) (w : world) : option Settings_v1 * world :=
  match rets with
  | [] => (Some settings, w)
  | r :: rest =>
      let w := getopt_report r w in
      let c := Libc.opt r in
      let optarg := Libc.optarg r in
      if (c =? "s")%char then
        parse_options_v1 rest
          {| countdown_v1 := countdown_v1 settings;
             opts_v1 := Z.lor (opts_v1 settings) OPT_SILENT;
             exitcode_v1 := exitcode_v1 settings |} w
      else if (c =? "e")%char then
        match Libc.sscanf_i int_conv optarg with
        | None =>
            (None,
             fputs ("Error: -e requires an integer argument: " ++ optarg
                    ++ String LF "") Stderr w)
        | Some val =>
            if (val <? 0) || (val >? 255) then
              (None,
               fputs ("Error: -e requires integer argument between 0 and 255: "
                      ++ optarg ++ String LF "") Stderr w)
            else
              parse_options_v1 rest
                {| countdown_v1 := countdown_v1 settings;
                   opts_v1 := opts_v1 settings;
                   exitcode_v1 := val |} w
        end
      else if (c =? "h")%char then
        parse_options_v1 rest
          {| countdown_v1 := countdown_v1 settings;
             opts_v1 := Z.lor (opts_v1 settings) OPT_HELP;
             exitcode_v1 := exitcode_v1 settings |} w
      else if (c =? "?")%char then (None, w)
      else parse_options_v1 rest settings w
  end.

Definition parse_arguments_v1 (argv : list string) (w : world)
    : option Settings_v1 * world :=
  let g := Libc.getopt_all argv OPTSTRING_V1 in
  match
    parse_options_v1 (fst g)
      {| countdown_v1 := -1; opts_v1 := 0; exitcode_v1 := 0 |} w
  with
  | (Some settings, w) =>
      match snd g with
      | first :: _ =>
          match Libc.sscanf_i int_conv first with
          | Some val =>
              if val <? 0 then
                (None,
                 fputs ("Error: countdown must be a positive integer: "
                        ++ first ++ String LF "") Stderr w)
              else
                (Some {| countdown_v1 := val; opts_v1 := opts_v1 settings;
                         exitcode_v1 := exitcode_v1 settings |}, w)
          | None =>
              (None,
               fputs ("Error: countdown must be a positive integer: "
                      ++ first ++ String LF "") Stderr w)
          end
      | [] => (Some settings, w)
      end
  | (None, w) => (None, w)
  end.

Definition print_usage_v1 (self : string) (w : world) : world :=
  let w := fputs ("Prints a countdown in terminal while waiting to exit."
                  ++ String LF "") Stderr w in
  let w := fputs ("When timer reaches zero or any input occurs, the program exits."
                  ++ String LF "") Stderr w in
  let w := fputs (String LF "") Stderr w in
  let w := fputs ("Use: " ++ basename self
                  ++ " [opts] N, where N is number of seconds to wait."
                  ++ String LF "") Stderr w in
  let w := fputs (String LF "") Stderr w in
  let w := fputs ("Options:" ++ String LF "") Stderr w in
  let w := fputs ("-s       be completely silent, do not output anything while waiting."
                  ++ String LF "") Stderr w in
  let w := fputs ("-e CODE  exit with status CODE" ++ String LF "") Stderr w in
  fputs ("-h       show this help" ++ String LF "") Stderr w.

Definition wait_key_pressed (select_results : nat -> Z) (w : world)
    : Z * world :=
  wait_for_one_second_or_input select_results w.

(** One test of the loop condition and, when it holds, one run of the
    body. *)
Definition tick_v1 (settings : Settings_v1) (select_results : nat -> Z)
    (st : loop_state) (w : world) : loop_state * world :=
  match st with
  | Running seconds_left =>
      if seconds_left >? 0 then
        let w1 :=
          if negb (has_opt_v1 settings OPT_SILENT) then
            fputs ("Waiting for " ++ dec seconds_left
                   ++ " seconds, press any key to exit..") Stdout w
          else w in
        let (retval, w2) := wait_key_pressed select_results w1 in
        if negb (retval =? 0) then (Done Interrupted seconds_left, w2)
        else
          let seconds_left := seconds_left - 1 in
          let w3 :=
            if negb (has_opt_v1 settings OPT_SILENT)
            then fputs CLEAR_LINE Stdout w2 else w2 in
          (Running seconds_left, w3)
      else (Done Timeout seconds_left, w)
  | Done _ _ => (st, w)
  end.

Fixpoint countdown_loop_v1 (fuel : nat) (settings : Settings_v1)
    (select_results : nat -> Z) (st : loop_state) (w : world)
    : option (exit_reason * Z * world) :=
  match fuel with
  | O => None
  | S fuel' =>
      match tick_v1 settings select_results st w with
      | (Done reason seconds_left, w') => Some (reason, seconds_left, w')
      | (Running seconds_left, w') =>
          countdown_loop_v1 fuel' settings select_results
            (Running seconds_left) w'
      end
  end.

(** ["\r\033[KExited with status %i after %i seconds.\n"] *)
Definition exit_summary_v1 (exitcode elapsed : Z) : string :=
  CLEAR_LINE ++ "Exited with status " ++ dec exitcode ++ " after "
  ++ dec elapsed ++ " seconds." ++ String LF "".

Definition main_v1 (argv : list string) (select_results : nat -> Z)
    (w : world) : option outcome :=
  match parse_arguments_v1 argv w with
  | (None, w) => Some {| status := 1; loop_end := None; final := w |}
  | (Some settings, w) =>
      if has_opt_v1 settings OPT_HELP then
        Some {| status := 0; loop_end := None;
                final := print_usage_v1 (hd "" argv) w |}
      else if countdown_v1 settings <? 0 then
        Some {| status := 1; loop_end := None;
                final :=
                  fputs ("Error: number of seconds to wait must be specified."
                         ++ String LF "") Stderr w |}
      else
        let w := init_termio w in
        let seconds := countdown_v1 settings in
        match countdown_loop_v1 (S (Z.to_nat seconds)) settings
                select_results (Running seconds) w with
        | Some (reason, seconds_left, w) =>
            let w :=
              if negb (has_opt_v1 settings OPT_SILENT) then
                fputs (exit_summary_v1 (exitcode_v1 settings)
                         (seconds - seconds_left)) Stdout w
              else w in
            Some {| status := exitcode_v1 settings;
                    loop_end := Some (reason, seconds_left); final := w |}
        | None => None
        end
  end.

Definition run_v1 (argv : list string) (select_results : nat -> Z)
    (term : option termios) : option outcome :=
  match main_v1 argv select_results (initial_world term) with
  | Some o =>
      Some {| status := status o; loop_end := loop_end o;
              final := run_exit_handlers (final o) |}
  | None => None
  end.

(** What [getopt] can return to the first version: [-s], [-h], [-e], and
    the error sign. *)
Definition v1_result (r : Libc.getopt_ret) : bool :=
  (Libc.opt r =? "s")%char || (Libc.opt r =? "h")%char
  || (Libc.opt r =? "e")%char || (Libc.opt r =? "?")%char.

(** Settings of the first version and of the later one that say the same:
    no option but [-s] and [-h], and the message of the first version as
    the template. *)
Definition same_settings (s1 : Settings_v1) (s : Settings) : Prop :=
  countdown_v1 s1 = countdown s
  /\ opts_v1 s1 = opts s
  /\ 0 <= opts s < 4
  /\ exitcode_v1 s1 = exitcode s
  /\ template s = DEFAULT_MSG_TEMPLATE.

(** Two states of the process that differ at most in what was written. *)
Definition same_but_output (w1 w2 : world) : Prop :=
  stdin_term w1 = stdin_term w2 /\ default_term w1 = default_term w2
  /\ exit_handlers w1 = exit_handlers w2 /\ polls w1 = polls w2
  /\ drains w1 = drains w2 /\ restores w1 = restores w2
  /\ stdout_unbuffered w1 = stdout_unbuffered w2.
(** * Properties *)

(** ** The renderer *)

Section Renderer.

Variable s : Z.

Lemma char_at_app (pre suf : list ascii) (c : ascii) :
  char_at (pre ++ c :: suf) (List.length pre) = c.
Proof.
  unfold char_at. rewrite app_nth2 by lia.
  replace (List.length pre - List.length pre)%nat with 0%nat by lia.
  reflexivity.
Qed.

Lemma app_cons_assoc (pre suf : list ascii) (c : ascii) :
  (pre ++ c :: suf = (pre ++ [c]) ++ suf)%list.
Proof. now rewrite <- app_assoc. Qed.

(** The loop, started at index [length pre] of [pre ++ suf], appends the
    rendering of [suf] to what it has written, provided each character of
    [suf] and the final test of the condition have a unit of fuel. *)
Lemma prepare_loop_suffix (fuel : nat) :
  forall (pre suf dst : list ascii),
    (List.length suf < fuel)%nat ->
    prepare_loop fuel (pre ++ suf) (List.length (pre ++ suf)) s
      (List.length pre) dst
    = Some (dst ++ render_chars suf s)%list.
Proof.
  induction fuel as [|fuel IH]; intros pre suf dst Hfuel; [lia|].
  destruct suf as [|c r].
  - cbn [prepare_loop render_chars]. rewrite !app_nil_r, Nat.ltb_irrefl.
    reflexivity.
  - cbn [prepare_loop].
    assert (Hlt : (List.length pre <? List.length (pre ++ c :: r))%nat = true).
    { apply Nat.ltb_lt. rewrite length_app. cbn. lia. }
    rewrite Hlt, char_at_app. cbn [render_chars]. unfold is_linebreak.
    cbn [List.length] in Hfuel.
    assert (Hstep : forall d,
      prepare_loop fuel (pre ++ c :: r) (List.length (pre ++ c :: r)) s
        (List.length pre + 1) d = Some (d ++ render_chars r s)%list).
    { intros d. rewrite (app_cons_assoc pre r c).
      replace (List.length pre + 1)%nat with (List.length (pre ++ [c]))
        by (rewrite length_app; reflexivity).
      apply IH. lia. }
    destruct ((c =? LF)%char || (c =? CR)%char); [apply Hstep|].
    destruct (c =? "%")%char eqn:Hpct; cbn [andb].
    + destruct r as [|c' r'].
      * replace (List.length pre <? List.length (pre ++ [c]) - 1)%nat
          with false
          by (symmetry; apply Nat.ltb_ge; rewrite length_app; cbn; lia).
        cbn [andb]. rewrite Hstep. cbn [render_chars].
        now rewrite app_nil_r.
      * replace (List.length pre <? List.length (pre ++ c :: c' :: r') - 1)%nat
          with true
          by (symmetry; apply Nat.ltb_lt; rewrite length_app; cbn; lia).
        cbn [andb].
        replace (char_at (pre ++ c :: c' :: r') (List.length pre + 1)) with c'.
        2:{ rewrite (app_cons_assoc pre (c' :: r') c).
            replace (List.length pre + 1)%nat
              with (List.length (pre ++ [c]))
              by (rewrite length_app; reflexivity).
            now rewrite char_at_app. }
        destruct (c' =? "S")%char.
        -- rewrite (app_cons_assoc pre (c' :: r') c).
           rewrite (app_cons_assoc (pre ++ [c]) r' c').
           replace (List.length pre + 1 + 1)%nat
             with (List.length ((pre ++ [c]) ++ [c']))
             by (rewrite !length_app; reflexivity).
           rewrite IH by (cbn in Hfuel; lia).
           now rewrite app_assoc.
        -- rewrite Hstep. now rewrite <- app_assoc.
    + rewrite Hstep. now rewrite <- app_assoc.
Qed.

Lemma prepare_message_render (template : string) :
  prepare_message template s = Some (render template s).
Proof.
  unfold prepare_message, render.
  rewrite (prepare_loop_suffix _ [] (list_ascii_of_string template) [])
    by (cbn; lia).
  reflexivity.
Qed.

End Renderer.

(** *** Strings and their characters *)

Lemma list_ascii_of_string_app (a b : string) :
  list_ascii_of_string (a ++ b)
  = (list_ascii_of_string a ++ list_ascii_of_string b)%list.
Proof. induction a as [|c a IH]; cbn; [reflexivity | now rewrite IH]. Qed.

Lemma string_of_list_ascii_app (a b : list ascii) :
  string_of_list_ascii (a ++ b)
  = string_of_list_ascii a ++ string_of_list_ascii b.
Proof. induction a as [|c a IH]; cbn; [reflexivity | now rewrite IH]. Qed.

(** *** Consequences of the rendering equation *)

Section RenderFacts.

Variable s : Z.

Lemma render_chars_no_placeholder (t : list ascii) :
  has_placeholder t = false -> render_chars t s = strip_linebreaks t.
Proof.
  induction t as [|c r IH]; [reflexivity|].
  intros H. cbn [has_placeholder] in H.
  cbn [render_chars strip_linebreaks filter].
  destruct r as [|c' r'].
  - destruct (is_linebreak c); cbn; [reflexivity|].
    now destruct (c =? "%")%char.
  - apply orb_false_iff in H. destruct H as [Hcc Hr].
    specialize (IH Hr). unfold strip_linebreaks in IH.
    destruct (is_linebreak c); cbn [negb]; [exact IH|].
    destruct (c =? "%")%char; cbn [andb] in Hcc.
    + rewrite Hcc. now rewrite IH.
    + now rewrite IH.
Qed.

(** Rendering distributes over a split of the template, as long as the
    second part does not start with the S that could complete a
    placeholder. *)
Lemma render_chars_app_bounded (n : nat) :
  forall a b : list ascii,
    (List.length a <= n)%nat ->
    starts_with_S b = false ->
    render_chars (a ++ b) s = (render_chars a s ++ render_chars b s)%list.
Proof.
  induction n as [|n IH]; intros a b Hlen Hb.
  - destruct a; [reflexivity | cbn in Hlen; lia].
  - destruct a as [|c r]; [reflexivity|].
    cbn [List.length] in Hlen.
    cbn [app render_chars].
    destruct (is_linebreak c); [apply IH; [lia | exact Hb]|].
    destruct (c =? "%")%char.
    + destruct r as [|c' r'].
      * cbn [app]. destruct b as [|d b']; [reflexivity|].
        cbn [starts_with_S] in Hb. rewrite Hb. reflexivity.
      * cbn [app]. destruct (c' =? "S")%char.
        -- rewrite IH by (cbn in Hlen; lia || exact Hb).
           now rewrite app_assoc.
        -- change (c' :: (r' ++ b)%list) with ((c' :: r') ++ b)%list.
           rewrite IH by (lia || exact Hb). reflexivity.
    + rewrite IH by (lia || exact Hb). reflexivity.
Qed.

Lemma render_chars_app (a b : list ascii) :
  starts_with_S b = false ->
  render_chars (a ++ b) s = (render_chars a s ++ render_chars b s)%list.
Proof. apply (render_chars_app_bounded (List.length a)). lia. Qed.

Lemma render_app (a b : string) :
  starts_with_S (list_ascii_of_string b) = false ->
  render (a ++ b) s = render a s ++ render b s.
Proof.
  intros H. unfold render.
  rewrite list_ascii_of_string_app, render_chars_app by exact H.
  apply string_of_list_ascii_app.
Qed.

End RenderFacts.

(** *** How long a message gets *)

Lemma string_length_of_list (l : list ascii) :
  String.length (string_of_list_ascii l) = List.length l.
Proof. induction l as [|c l IH]; cbn; [reflexivity | now rewrite IH]. Qed.

Lemma list_length_of_string (t : string) :
  List.length (list_ascii_of_string t) = String.length t.
Proof. induction t as [|c t IH]; cbn; [reflexivity | now rewrite IH]. Qed.

Lemma render_chars_length_bounded (s : Z) (n : nat) :
  forall t : list ascii,
    (List.length t <= n)%nat ->
    (2 * List.length (render_chars t s)
     <= List.length t * Nat.max 2 (List.length (Libc.sprintf_d s)))%nat.
Proof.
  pose proof (Nat.le_max_l 2 (List.length (Libc.sprintf_d s))) as H2.
  pose proof (Nat.le_max_r 2 (List.length (Libc.sprintf_d s))) as Hd.
  set (M := Nat.max 2 (List.length (Libc.sprintf_d s))) in *. clearbody M.
  induction n as [|n IH]; intros t Hn.
  - destruct t; [cbn; lia | cbn in Hn; lia].
  - destruct t as [|c r]; [cbn; lia|].
    cbn [List.length] in Hn. cbn [render_chars].
    pose proof (IH r ltac:(lia)) as Hr.
    destruct (is_linebreak c); [cbn [List.length Nat.mul]; lia|].
    destruct (c =? "%")%char.
    + destruct r as [|c' r']; [cbn [List.length Nat.mul]; lia|].
      destruct (c' =? "S")%char.
      * pose proof (IH r' ltac:(cbn in Hn; lia)) as Hr'.
        rewrite length_app. cbn [List.length Nat.mul]. lia.
      * cbn [List.length Nat.mul] in *. lia.
    + cbn [List.length Nat.mul] in *. lia.
Qed.

(** A template of at most 255 bytes, rendered with a number of at most eight
    digits, fits the 1024 bytes of [msg] in [main], terminator included. *)
Lemma render_fits_msg (template : string) (s : Z) :
  (String.length template <= 255)%nat ->
  (List.length (Libc.sprintf_d s) <= 8)%nat ->
  (String.length (render template s) + 1 <= 1024)%nat.
Proof.
  intros Ht Hd. unfold render. rewrite string_length_of_list.
  pose proof (render_chars_length_bounded s _ (list_ascii_of_string template)
                (le_n _)) as H.
  rewrite list_length_of_string in H.
  assert (Hm : (Nat.max 2 (List.length (Libc.sprintf_d s)) <= 8)%nat) by lia.
  nia.
Qed.

(** ** The renderer's contract *)

(** C4: for a template of at most 255 bytes and a non-negative number of
    seconds, [prepare_message] yields exactly the left-to-right rendering of
    the description: each [%S] becomes the decimal text of the seconds, each
    carriage return and line feed is dropped, every other character is copied
    in order, and nothing else is interpreted.  In particular ["%S"] with 42
    gives ["42"] and ["x%Sy"] with 7 gives ["x7y"]. *)
Theorem prepare_message_expands_template (template : string) (s : Z) :
  (String.length template <= 255)%nat ->
  0 <= s ->
  prepare_message template s = Some (render template s)
  /\ prepare_message "%S" 42 = Some "42"
  /\ prepare_message "x%Sy" 7 = Some "x7y".
Proof.
  intros _ _. split; [apply prepare_message_render|].
  split; reflexivity.
Qed.

Lemma prepare_message_expands_template_witness :
  prepare_message "Exit in %S.." 9 = Some (render "Exit in %S.." 9)
  /\ prepare_message "%S" 42 = Some "42"
  /\ prepare_message "x%Sy" 7 = Some "x7y".
Proof.
  apply (prepare_message_expands_template "Exit in %S.." 9).
  - cbn. lia.
  - lia.
Defined.

(** C5: when the template holds no [%S], the message does not depend on the
    seconds, and it is the template without its carriage returns and line
    feeds. *)
Theorem prepare_message_without_placeholder (template : string) (s1 s2 : Z) :
  has_placeholder (list_ascii_of_string template) = false ->
  prepare_message template s1 = prepare_message template s2
  /\ prepare_message template s1
     = Some (string_of_list_ascii
               (strip_linebreaks (list_ascii_of_string template))).
Proof.
  intros H. rewrite !prepare_message_render. unfold render.
  rewrite !render_chars_no_placeholder by exact H. split; reflexivity.
Qed.

Lemma prepare_message_without_placeholder_witness :
  prepare_message ("50%" ++ String LF "Si" ++ String CR "") 3
  = prepare_message ("50%" ++ String LF "Si" ++ String CR "") 8
  /\ prepare_message ("50%" ++ String LF "Si" ++ String CR "") 3
     = Some "50%Si".
Proof.
  apply (prepare_message_without_placeholder
           ("50%" ++ String LF "Si" ++ String CR "") 3 8).
  reflexivity.
Defined.

(** C10: every [%S] of the template is expanded, wherever it stands and
    whatever comes before or after it, each time with the same seconds; a
    percent sign followed by another character, or standing last in the
    template, is copied as it is. *)
Theorem prepare_message_every_placeholder (a b : string) (c : ascii) (s : Z) :
  c <> "S"%char ->
  exists ra rb rcb : string,
    prepare_message a s = Some ra
    /\ prepare_message b s = Some rb
    /\ prepare_message (String c b) s = Some rcb
    /\ prepare_message (a ++ "%S" ++ b) s = Some (ra ++ dec s ++ rb)
    /\ prepare_message (a ++ String "%" (String c b)) s
       = Some (ra ++ String "%" rcb)
    /\ prepare_message (a ++ "%") s = Some (ra ++ "%").
Proof.
  intros Hc. exists (render a s), (render b s), (render (String c b) s).
  rewrite !prepare_message_render.
  repeat split.
  - rewrite render_app by reflexivity. do 2 f_equal.
    unfold render. cbn [append list_ascii_of_string render_chars].
    change (is_linebreak "%") with false. cbn.
    apply string_of_list_ascii_app.
  - rewrite render_app by reflexivity. do 2 f_equal.
    unfold render. cbn [list_ascii_of_string render_chars].
    change (is_linebreak "%") with false.
    change ("%" =? "%")%char with true. cbv iota.
    apply Ascii.eqb_neq in Hc. rewrite Hc. reflexivity.
  - rewrite render_app by reflexivity. reflexivity.
Qed.

Lemma prepare_message_every_placeholder_witness :
  exists ra rb rcb : string,
    prepare_message "%S of " 5 = Some ra
    /\ prepare_message " left" 5 = Some rb
    /\ prepare_message (String "d" " left") 5 = Some rcb
    /\ prepare_message ("%S of " ++ "%S" ++ " left") 5
       = Some (ra ++ dec 5 ++ rb)
    /\ prepare_message ("%S of " ++ String "%" (String "d" " left")) 5
       = Some (ra ++ String "%" rcb)
    /\ prepare_message ("%S of " ++ "%") 5 = Some (ra ++ "%").
Proof.
  apply (prepare_message_every_placeholder "%S of " " left" "d" 5).
  discriminate.
Defined.

(** ** One tick of the countdown *)

Section Ticks.

Variable settings : Settings.
Variable select_results : nat -> Z.

Lemma tick_expired (n : Z) (w : world) :
  n <= 0 ->
  tick settings select_results (Running n) w = Some (Done Timeout n, w).
Proof.
  intros H. cbn [tick].
  replace (n >? 0) with false
    by (rewrite Z.gtb_ltb; symmetry; apply Z.ltb_ge; lia).
  reflexivity.
Qed.

(** What showing the message does when it fits. *)
Lemma shown_message (n : Z) (w : world) :
  fits_msg settings n = true ->
  exists w1,
    (if negb (has_opt settings OPT_SILENT) then
       match prepare_message (template settings) n with
       | Some msg =>
           if (String.length msg <? MSG_SIZE)%nat
           then Some (fputs msg Stdout w) else None
       | None => None
       end
     else Some w) = Some w1
    /\ polls w1 = polls w /\ drains w1 = drains w
    /\ stdin_term w1 = stdin_term w /\ default_term w1 = default_term w
    /\ exit_handlers w1 = exit_handlers w /\ restores w1 = restores w
    /\ (has_opt settings OPT_SILENT = true -> output w1 = output w)
    /\ stderr_events (output w1) = stderr_events (output w).
Proof.
  unfold fits_msg. intros Hfit.
  destruct (has_opt settings OPT_SILENT); cbn [negb orb] in *.
  - exists w. repeat split.
  - destruct (prepare_message (template settings) n) as [msg|];
      [|discriminate].
    rewrite Hfit. eexists. split; [reflexivity|]. cbn.
    repeat split; try discriminate.
    unfold stderr_events. rewrite filter_app. cbn. now rewrite app_nil_r.
Qed.

(** A tick that yields a next state keeps the seconds or, from a positive
    number, takes one off; it leaves the loop through the condition exactly
    when no second is left. *)
Lemma tick_cases (n : Z) (w : world) (st' : loop_state) (w' : world) :
  tick settings select_results (Running n) w = Some (st', w') ->
  (n <= 0 /\ st' = Done Timeout n /\ w' = w)
  \/ (0 < n /\ select_results (polls w) = 0 /\ st' = Running (n - 1))
  \/ (0 < n /\ select_results (polls w) <> 0 /\ st' = Done Interrupted n).
Proof.
  cbn [tick]. destruct (n >? 0) eqn:Hn.
  - rewrite Z.gtb_ltb in Hn. apply Z.ltb_lt in Hn.
    destruct (if negb (has_opt settings OPT_SILENT) then _ else _)
      as [w1|] eqn:Hshow; [|discriminate].
    assert (Hp : polls w1 = polls w).
    { destruct (negb (has_opt settings OPT_SILENT)).
      - destruct (prepare_message _ _); [|discriminate].
        destruct (_ <? _)%nat; inversion Hshow. reflexivity.
      - now inversion Hshow. }
    unfold wait_for_one_second_or_input. rewrite Hp.
    destruct (select_results (polls w) =? 0) eqn:Hsel.
    + cbn. intros H. inversion H. right. left.
      apply Z.eqb_eq in Hsel. auto.
    + cbn. rewrite Hsel. cbn. intros H. inversion H. right. right.
      apply Z.eqb_neq in Hsel. auto.
  - rewrite Z.gtb_ltb in Hn. apply Z.ltb_ge in Hn.
    intros H. inversion H. left. auto.
Qed.

(** With a second left and no input during the wait, the tick polls once,
    reads nothing, and takes one second off. *)
Lemma tick_timeout (n : Z) (w : world) :
  0 < n ->
  fits_msg settings n = true ->
  select_results (polls w) = 0 ->
  exists w',
    tick settings select_results (Running n) w = Some (Running (n - 1), w')
    /\ polls w' = S (polls w) /\ drains w' = drains w
    /\ stdin_term w' = stdin_term w /\ default_term w' = default_term w
    /\ exit_handlers w' = exit_handlers w /\ restores w' = restores w
    /\ (has_opt settings OPT_SILENT = true -> output w' = output w)
    /\ stderr_events (output w') = stderr_events (output w).
Proof.
  intros Hn Hfit Hsel. cbn [tick].
  replace (n >? 0) with true
    by (rewrite Z.gtb_ltb; symmetry; apply Z.ltb_lt; lia).
  destruct (shown_message n w Hfit)
    as (w1 & -> & Hp & Hd & Ht & Hdf & Hex & Hrs & Hout & Herr).
  unfold wait_for_one_second_or_input. rewrite Hp, Hsel. cbn [Z.eqb negb].
  eexists. split; [reflexivity|].
  destruct (has_opt settings OPT_SILENT); cbn [negb];
    unfold fputs, emit, set_output; cbn;
    repeat split; try congruence; auto.
  unfold stderr_events in *. rewrite filter_app. cbn.
  now rewrite app_nil_r.
Qed.

(** With a second left and input during the wait, the tick polls once,
    drains the input, and leaves the loop without touching the seconds. *)
Lemma tick_input (n : Z) (w : world) :
  0 < n ->
  fits_msg settings n = true ->
  select_results (polls w) <> 0 ->
  exists w',
    tick settings select_results (Running n) w = Some (Done Interrupted n, w')
    /\ polls w' = S (polls w) /\ drains w' = S (drains w)
    /\ stdin_term w' = stdin_term w /\ default_term w' = default_term w
    /\ exit_handlers w' = exit_handlers w /\ restores w' = restores w
    /\ (has_opt settings OPT_SILENT = true -> output w' = output w)
    /\ stderr_events (output w') = stderr_events (output w).
Proof.
  intros Hn Hfit Hsel. cbn [tick].
  replace (n >? 0) with true
    by (rewrite Z.gtb_ltb; symmetry; apply Z.ltb_lt; lia).
  destruct (shown_message n w Hfit)
    as (w1 & -> & Hp & Hd & Ht & Hdf & Hex & Hrs & Hout & Herr).
  unfold wait_for_one_second_or_input. rewrite Hp.
  apply Z.eqb_neq in Hsel. rewrite Hsel. cbn [negb]. rewrite Hsel. cbn [negb].
  eexists. split; [reflexivity|]. cbn.
  repeat split; try congruence; auto.
Qed.

(** A tick yields a next state as long as the message fits; it keeps the
    seconds or takes one off, and leaves the terminal alone. *)
Lemma tick_step (st : loop_state) (w : world) :
  (0 < seconds_left_of st -> fits_msg settings (seconds_left_of st) = true) ->
  exists st' w',
    tick settings select_results st w = Some (st', w')
    /\ (seconds_left_of st' = seconds_left_of st
        \/ (0 < seconds_left_of st
            /\ seconds_left_of st' = seconds_left_of st - 1))
    /\ (polls w <= polls w')%nat
    /\ stdin_term w' = stdin_term w /\ default_term w' = default_term w
    /\ exit_handlers w' = exit_handlers w /\ restores w' = restores w
    /\ (has_opt settings OPT_SILENT = true -> output w' = output w)
    /\ stderr_events (output w') = stderr_events (output w).
Proof.
  clear int_conv.
  intros Hfit. destruct st as [n|r n]; cbn [seconds_left_of] in Hfit.
  - destruct (Z_lt_le_dec 0 n) as [Hpos|Hle].
    + destruct (Z.eq_dec (select_results (polls w)) 0) as [Hsel|Hsel].
      * destruct (tick_timeout n w Hpos (Hfit Hpos) Hsel)
          as (w' & Ht & Hp & Hd & Hrest).
        exists (Running (n - 1)), w'. cbn [seconds_left_of].
        repeat split; try tauto; try lia.
      * destruct (tick_input n w Hpos (Hfit Hpos) Hsel)
          as (w' & Ht & Hp & Hd & Hrest).
        exists (Done Interrupted n), w'. cbn [seconds_left_of].
        repeat split; try tauto; try lia.
    + exists (Done Timeout n), w. rewrite tick_expired by exact Hle.
      cbn [seconds_left_of]. repeat split; auto.
  - exists (Done r n), w. cbn. repeat split; auto.
Qed.

End Ticks.

(** ** The loop as a whole *)

Section Loop.

Variable settings : Settings.
Variable select_results : nat -> Z.

Lemma ticks_done (k : nat) (r : exit_reason) (n : Z) (w : world) :
  ticks k settings select_results (Done r n) w = Some (Done r n, w).
Proof. induction k as [|k IH]; cbn; [reflexivity | exact IH]. Qed.

(** [k] ticks without input take [k] seconds off and poll [k] times. *)
Lemma ticks_timeouts (k : nat) :
  forall (n : Z) (w : world),
    Z.of_nat k <= n ->
    (forall m, n - Z.of_nat k < m <= n -> fits_msg settings m = true) ->
    (forall i, (i < k)%nat -> select_results (polls w + i) = 0) ->
    exists w',
      ticks k settings select_results (Running n) w
      = Some (Running (n - Z.of_nat k), w')
      /\ polls w' = (polls w + k)%nat /\ drains w' = drains w.
Proof.
  induction k as [|k IH]; intros n w Hk Hfit Hsel.
  - exists w. cbn. rewrite Z.sub_0_r, Nat.add_0_r. auto.
  - destruct (tick_timeout settings select_results n w)
      as (w1 & Ht & Hp & Hd & _).
    + lia.
    + apply Hfit. lia.
    + rewrite <- (Nat.add_0_r (polls w)). apply Hsel. lia.
    + destruct (IH (n - 1) w1) as (w' & Hts & Hp' & Hd').
      * lia.
      * intros m Hm. apply Hfit. lia.
      * intros i Hi. rewrite Hp.
        replace (S (polls w) + i)%nat with (polls w + S i)%nat by lia.
        apply Hsel. lia.
      * exists w'. cbn [ticks]. rewrite Ht, Hts.
        repeat split; [do 3 f_equal; lia | lia | congruence].
Qed.

(** While the ticks leave the machine running, the loop is still inside. *)
Lemma countdown_loop_after_ticks (k : nat) :
  forall (fuel : nat) (st : loop_state) (w : world) (m : Z) (w' : world),
    ticks k settings select_results st w = Some (Running m, w') ->
    countdown_loop (k + fuel) settings select_results st w
    = countdown_loop fuel settings select_results (Running m) w'.
Proof.
  induction k as [|k IH]; intros fuel st w m w' H.
  - cbn in H. now inversion H.
  - cbn [ticks] in H. cbn [Nat.add countdown_loop].
    destruct (tick settings select_results st w) as [[st1 w1]|];
      [|discriminate].
    destruct st1 as [n1|r1 n1].
    + now apply IH.
    + rewrite ticks_done in H. discriminate.
Qed.

(** However the loop is left, the seconds are within bounds, and none is
    left exactly when the loop condition ended the loop. *)
Lemma countdown_loop_end (fuel : nat) :
  forall (n : Z) (w : world) (r : exit_reason) (sl : Z) (w' : world),
    countdown_loop fuel settings select_results (Running n) w
    = Some (r, sl, w') ->
    0 <= n ->
    0 <= sl <= n
    /\ match r with
       | Timeout => sl = 0
       | Interrupted => 0 < sl
       end.
Proof.
  induction fuel as [|fuel IH]; intros n w r sl w' H Hn; [discriminate|].
  cbn [countdown_loop] in H.
  destruct (tick settings select_results (Running n) w) as [[st1 w1]|] eqn:Ht;
    [|discriminate].
  destruct (tick_cases _ _ _ _ _ _ Ht)
    as [(Hle & -> & _)|[(Hpos & _ & ->)|(Hpos & _ & ->)]].
  - inversion H; subst. split; lia.
  - destruct (IH _ _ _ _ _ H ltac:(lia)) as [Hb Hr]. split; [lia | exact Hr].
  - inversion H; subst. split; lia.
Qed.

(** When every message fits, the loop is left within the fuel [main] gives
    it.  Every second taken off was one poll, and only the output and the
    counters of the environment have changed. *)
Lemma countdown_loop_running (fuel : nat) :
  forall (n : Z) (w : world),
    (Z.to_nat n < fuel)%nat ->
    (forall m, 0 < m <= n -> fits_msg settings m = true) ->
    exists (r : exit_reason) (sl : Z) (w' : world),
      countdown_loop fuel settings select_results (Running n) w
      = Some (r, sl, w')
      /\ polls w' = (polls w + Z.to_nat (n - sl)
                     + match r with
                       | Timeout => 0
                       | Interrupted => 1
                       end)%nat
      /\ (exists k, (k <= fuel)%nat
                    /\ ticks k settings select_results (Running n) w
                       = Some (Done r sl, w'))
      /\ stdin_term w' = stdin_term w /\ default_term w' = default_term w
      /\ exit_handlers w' = exit_handlers w /\ restores w' = restores w
      /\ (has_opt settings OPT_SILENT = true -> output w' = output w)
      /\ stderr_events (output w') = stderr_events (output w).
Proof.
  induction fuel as [|fuel IH]; intros n w Hfuel Hfit; [lia|].
  cbn [countdown_loop].
  destruct (Z_lt_le_dec 0 n) as [Hpos|Hle].
  - assert (Hfn : fits_msg settings n = true) by (apply Hfit; lia).
    destruct (Z.eq_dec (select_results (polls w)) 0) as [Hsel|Hsel].
    + destruct (tick_timeout settings select_results n w Hpos Hfn Hsel)
        as (w1 & Ht & Hp & Hd & Hterm & Hdef & Hex & Hres & Hout & Herr).
      rewrite Ht.
      destruct (IH (n - 1) w1) as
        (r & sl & w' & Hloop & Hpolls & (k & Hk & Hticks)
         & Hterm' & Hdef' & Hex' & Hres' & Hout' & Herr');
        [lia | intros m Hm; apply Hfit; lia |].
      destruct (countdown_loop_end _ _ _ _ _ _ Hloop ltac:(lia)) as [Hb _].
      exists r, sl, w'. split; [exact Hloop|].
      split; [rewrite Hpolls, Hp; destruct r; lia|].
      split.
      { exists (S k). split; [lia|]. cbn [ticks]. rewrite Ht. exact Hticks. }
      repeat split; try congruence.
      intros Hs. rewrite Hout', Hout; auto.
    + destruct (tick_input settings select_results n w Hpos Hfn Hsel)
        as (w1 & Ht & Hp & Hd & Hterm & Hdef & Hex & Hres & Hout & Herr).
      rewrite Ht. exists Interrupted, n, w1.
      split; [reflexivity|].
      split; [rewrite Hp, Z.sub_diag; cbn; lia|].
      split.
      { exists 1%nat. split; [lia|]. cbn [ticks]. rewrite Ht. reflexivity. }
      repeat split; assumption.
  - rewrite tick_expired by exact Hle. exists Timeout, n, w.
    split; [reflexivity|].
    split; [rewrite Z.sub_diag; cbn; lia|].
    split.
    { exists 1%nat. split; [lia|]. cbn [ticks].
      rewrite tick_expired by exact Hle. reflexivity. }
    repeat split; auto.
Qed.

(** A tick that yields a state keeps the seconds or takes one off. *)
Lemma tick_seconds (st st' : loop_state) (w w' : world) :
  tick settings select_results st w = Some (st', w') ->
  seconds_left_of st' = seconds_left_of st
  \/ (0 < seconds_left_of st
      /\ seconds_left_of st' = seconds_left_of st - 1).
Proof.
  destruct st as [n|r n].
  - intros H.
    destruct (tick_cases _ _ _ _ _ _ H)
      as [(_ & -> & _)|[(Hpos & _ & ->)|(_ & _ & ->)]];
      cbn [seconds_left_of]; auto.
  - cbn. intros H. inversion H. auto.
Qed.

(** Along any number of ticks the seconds never grow and never drop below
    zero. *)
Lemma ticks_bounds (k : nat) :
  forall (st st' : loop_state) (w w' : world),
    ticks k settings select_results st w = Some (st', w') ->
    seconds_left_of st' <= seconds_left_of st
    /\ (0 <= seconds_left_of st -> 0 <= seconds_left_of st').
Proof.
  induction k as [|k IH]; intros st st' w w' H.
  - cbn in H. inversion H; subst. split; [lia | auto].
  - cbn [ticks] in H.
    destruct (tick settings select_results st w) as [[st1 w1]|] eqn:Ht;
      [|discriminate].
    pose proof (tick_seconds _ _ _ _ Ht) as Hsl.
    destruct (IH _ _ _ _ H) as [Hle Hnn].
    split; lia.
Qed.

(** When all messages of the countdown fit, each one does. *)
Lemma message_fits_at (m : Z) :
  message_fits settings = true ->
  0 < m <= countdown settings ->
  fits_msg settings m = true.
Proof.
  unfold message_fits. intros H Hm. rewrite forallb_forall in H.
  rewrite <- (Z2Nat.id m) by lia. apply H. apply in_seq. lia.
Qed.

(** Nothing needs to fit when nothing is shown. *)
Lemma silent_message_fits :
  has_opt settings OPT_SILENT = true -> message_fits settings = true.
Proof.
  intros Hs. unfold message_fits. apply forallb_forall. intros k _.
  unfold fits_msg. now rewrite Hs.
Qed.

(** A sufficient condition: a template of at most 255 bytes (as
    [parse_arguments] leaves it) and seconds of at most eight digits. *)
Lemma message_fits_when :
  (String.length (template settings) <= 255)%nat ->
  (forall n, 0 < n <= countdown settings ->
             (List.length (Libc.sprintf_d n) <= 8)%nat) ->
  message_fits settings = true.
Proof.
  intros Ht Hd. unfold message_fits. apply forallb_forall. intros k Hk.
  apply in_seq in Hk. unfold fits_msg. rewrite prepare_message_render.
  pose proof (render_fits_msg (template settings) (Z.of_nat k) Ht
                (Hd (Z.of_nat k) ltac:(lia))) as Hfit.
  replace (String.length (render (template settings) (Z.of_nat k))
           <? MSG_SIZE)%nat
    with true by (symmetry; apply Nat.ltb_lt; unfold MSG_SIZE; lia).
  apply orb_true_r.
Qed.

End Loop.

(** ** The countdown from start to end *)

(** C1: with [N >= 0] seconds to count and no input at any poll, the [k]-th
    tick (for every [k] up to [N]) leaves [N - k] seconds, one poll each and
    nothing read; the loop is then left through its condition with no second
    left, after exactly [N] polls, and the summary reports [N] elapsed
    seconds.  With [N = 0] the very first test of the condition ends the
    loop: no message, no poll.  (The messages shown are taken to fit their
    buffer.) *)
Theorem countdown_without_input (settings : Settings)
    (select_results : nat -> Z) (w : world) :
  0 <= countdown settings ->
  message_fits settings = true ->
  (forall i, select_results i = 0) ->
  (forall k, (k <= Z.to_nat (countdown settings))%nat ->
     exists wk,
       ticks k settings select_results (Running (countdown settings)) w
       = Some (Running (countdown settings - Z.of_nat k), wk)
       /\ polls wk = (polls w + k)%nat /\ drains wk = drains w)
  /\ (exists o,
        main_loop settings select_results w = Some o
        /\ loop_end o = Some (Timeout, 0)
        /\ polls (final o) = (polls w + Z.to_nat (countdown settings))%nat
        /\ drains (final o) = drains w
        /\ (has_opt settings OPT_SILENT = false ->
            has_opt settings OPT_SUPPRESS_EXIT_INFO = false ->
            exists shown,
              output (final o)
              = (shown
                 ++ [Fputs Stdout
                       (exit_summary (status o) (countdown settings))])%list))
  /\ (countdown settings = 0 ->
      tick settings select_results (Running (countdown settings)) w
      = Some (Done Timeout 0, w)).
Proof.
  intros HN Hfit Hsel.
  assert (Hfits : forall m,
    0 < m <= countdown settings -> fits_msg settings m = true)
    by (intros m Hm; now apply message_fits_at).
  split; [|split].
  - intros k Hk. apply ticks_timeouts;
      [lia | intros m Hm; apply Hfits; lia | intros; apply Hsel].
  - destruct (ticks_timeouts settings select_results
                (Z.to_nat (countdown settings)) (countdown settings) w)
      as (wN & Hticks & Hp & Hd);
      [lia | intros m Hm; apply Hfits; lia | intros; apply Hsel |].
    rewrite Z2Nat.id in Hticks by exact HN. rewrite Z.sub_diag in Hticks.
    unfold main_loop.
    replace (S (Z.to_nat (countdown settings)))
      with (Z.to_nat (countdown settings) + 1)%nat by lia.
    rewrite (countdown_loop_after_ticks _ _ _ _ _ _ _ _ Hticks).
    cbn [countdown_loop]. rewrite tick_expired by lia.
    eexists. split; [reflexivity|]. cbn [loop_end final status].
    split; [reflexivity|].
    split; [destruct (has_opt settings OPT_SILENT),
              (has_opt settings OPT_SUPPRESS_EXIT_INFO); exact Hp|].
    split; [destruct (has_opt settings OPT_SILENT),
              (has_opt settings OPT_SUPPRESS_EXIT_INFO); exact Hd|].
    intros Hs Hz. rewrite Hs, Hz. cbn [negb]. rewrite Z.sub_0_r.
    exists (output wN). reflexivity.
  - intros H0. rewrite H0. apply tick_expired. lia.
Qed.

Lemma countdown_without_input_witness :
  exists o,
    main_loop
      {| countdown := 3; opts := 0; exitcode := 0;
         template := DEFAULT_MSG_TEMPLATE |} no_input (initial_world None)
    = Some o
    /\ loop_end o = Some (Timeout, 0) /\ polls (final o) = 3%nat.
Proof.
  destruct (countdown_without_input
              {| countdown := 3; opts := 0; exitcode := 0;
                 template := DEFAULT_MSG_TEMPLATE |} no_input
              (initial_world None))
    as (_ & (o & Ho & Hend & Hp & _) & _).
  - cbn. lia.
  - vm_compute. reflexivity.
  - reflexivity.
  - exists o. auto.
Defined.

(** C2: with [N >= 1] seconds to count, no input during the first [k - 1]
    polls and input during the [k]-th ([1 <= k <= N]), the loop is left
    through [break] with [N - k + 1] seconds left: the [k - 1] ticks before
    took one second each, the tick that saw the input took none.  The run
    has polled [k] times and returns the configured exit code.  (The
    messages shown are taken to fit their buffer.) *)
Theorem countdown_interrupted (settings : Settings)
    (select_results : nat -> Z) (w : world) (k : nat) :
  1 <= countdown settings ->
  message_fits settings = true ->
  (1 <= k)%nat ->
  Z.of_nat k <= countdown settings ->
  (forall i, (i < k - 1)%nat -> select_results (polls w + i)%nat = 0) ->
  select_results (polls w + (k - 1))%nat <> 0 ->
  exists o,
    main_loop settings select_results w = Some o
    /\ loop_end o = Some (Interrupted, countdown settings - Z.of_nat k + 1)
    /\ polls (final o) = (polls w + k)%nat
    /\ status o = exitcode settings
    /\ exists wk,
         ticks (k - 1) settings select_results (Running (countdown settings)) w
         = Some (Running (countdown settings - Z.of_nat k + 1), wk).
Proof.
  intros HN Hfit Hk1 HkN Hquiet Hinput.
  destruct (ticks_timeouts settings select_results (k - 1)
              (countdown settings) w)
    as (wk & Hticks & Hp & Hd);
    [lia | intros m Hm; apply message_fits_at; [exact Hfit | lia]
     | exact Hquiet |].
  replace (countdown settings - Z.of_nat (k - 1))
    with (countdown settings - Z.of_nat k + 1) in Hticks by lia.
  destruct (tick_input settings select_results
              (countdown settings - Z.of_nat k + 1) wk)
    as (w' & Ht & Hp' & _);
    [lia | apply message_fits_at; [exact Hfit | lia]
     | rewrite Hp; exact Hinput |].
  unfold main_loop.
  replace (S (Z.to_nat (countdown settings)))
    with ((k - 1) + S (Z.to_nat (countdown settings) - (k - 1)))%nat by lia.
  rewrite (countdown_loop_after_ticks _ _ _ _ _ _ _ _ Hticks).
  cbn [countdown_loop]. rewrite Ht.
  eexists. split; [reflexivity|]. cbn [loop_end final status].
  split; [reflexivity|].
  split.
  { destruct (has_opt settings OPT_SILENT),
      (has_opt settings OPT_SUPPRESS_EXIT_INFO); cbn; lia. }
  split.
  { unfold resolve_exitcode.
    replace (countdown settings - Z.of_nat k + 1 =? 0) with false
      by (symmetry; apply Z.eqb_neq; lia).
    reflexivity. }
  exists wk. exact Hticks.
Qed.

Lemma countdown_interrupted_witness :
  exists o,
    main_loop
      {| countdown := 5; opts := 0; exitcode := 0;
         template := DEFAULT_MSG_TEMPLATE |} (input_at 2) (initial_world None)
    = Some o
    /\ loop_end o = Some (Interrupted, 5 - 2 + 1).
Proof.
  destruct (countdown_interrupted
              {| countdown := 5; opts := 0; exitcode := 0;
                 template := DEFAULT_MSG_TEMPLATE |} (input_at 2)
              (initial_world None) 2)
    as (o & Ho & Hend & _).
  - cbn. lia.
  - vm_compute. reflexivity.
  - lia.
  - cbn. lia.
  - intros i Hi. assert (i = 0%nat) by lia. subst i. reflexivity.
  - cbn. discriminate.
  - exists o. auto.
Defined.

(** C9: started with [N >= 0] seconds, every state the loop reaches has
    between 0 and [N] seconds left, and the next tick keeps that number or
    takes exactly one off.  The loop always ends; the seconds it ends with
    are a reached state's, they decide the exit code, and (unless the summary
    is silenced or suppressed) the last thing printed is the summary with
    that exit code and [N] minus those seconds.  (The messages shown are
    taken to fit their buffer.) *)
Theorem seconds_left_invariant (settings : Settings)
    (select_results : nat -> Z) (w : world) :
  0 <= countdown settings ->
  message_fits settings = true ->
  (forall k st w',
     ticks k settings select_results (Running (countdown settings)) w
     = Some (st, w') ->
     0 <= seconds_left_of st <= countdown settings
     /\ exists st1 w1,
          tick settings select_results st w' = Some (st1, w1)
          /\ (seconds_left_of st1 = seconds_left_of st
              \/ seconds_left_of st1 = seconds_left_of st - 1))
  /\ exists o r sl,
       main_loop settings select_results w = Some o
       /\ loop_end o = Some (r, sl)
       /\ 0 <= sl <= countdown settings
       /\ (exists k w',
             ticks k settings select_results (Running (countdown settings)) w
             = Some (Done r sl, w'))
       /\ status o = resolve_exitcode settings sl
       /\ (has_opt settings OPT_SILENT = false ->
           has_opt settings OPT_SUPPRESS_EXIT_INFO = false ->
           exists shown,
             output (final o)
             = (shown ++ [Fputs Stdout
                            (exit_summary (status o)
                               (countdown settings - sl))])%list).
Proof.
  intros HN Hfit. split.
  - intros k st w' H.
    destruct (ticks_bounds _ _ _ _ _ _ _ H) as [Hle Hnn].
    cbn [seconds_left_of] in Hle, Hnn. split; [lia|].
    destruct (tick_step settings select_results st w')
      as (st1 & w1 & Ht & Hsl & _).
    { intros Hpos. apply message_fits_at; [exact Hfit | lia]. }
    exists st1, w1. split; [exact Ht | tauto].
  - destruct (countdown_loop_running settings select_results
                (S (Z.to_nat (countdown settings))) (countdown settings) w)
      as (r & sl & w' & Hloop & _ & (k & _ & Hticks) & _);
      [lia | intros m Hm; now apply message_fits_at |].
    destruct (countdown_loop_end _ _ _ _ _ _ _ _ Hloop HN) as [Hb _].
    unfold main_loop. rewrite Hloop.
    eexists; exists r, sl. split; [reflexivity|].
    cbn [loop_end status final].
    split; [reflexivity|]. split; [lia|].
    split; [exists k, w'; exact Hticks|].
    split; [reflexivity|].
    intros Hs Hz. rewrite Hs, Hz. cbn [negb].
    exists (output w'). reflexivity.
Qed.

Lemma seconds_left_invariant_witness :
  exists o r sl,
    main_loop
      {| countdown := 4; opts := 0; exitcode := 0;
         template := DEFAULT_MSG_TEMPLATE |} (input_at 3) (initial_world None)
    = Some o
    /\ loop_end o = Some (r, sl) /\ 0 <= sl <= 4.
Proof.
  destruct (seconds_left_invariant
              {| countdown := 4; opts := 0; exitcode := 0;
                 template := DEFAULT_MSG_TEMPLATE |} (input_at 3)
              (initial_world None))
    as (_ & o & r & sl & Ho & Hend & Hb & _).
  - cbn. lia.
  - vm_compute. reflexivity.
  - exists o, r, sl. auto.
Defined.

(** ** What is written where *)

Lemma append_assoc (a b c : string) : (a ++ b) ++ c = a ++ (b ++ c).
Proof. induction a as [|x a IH]; cbn; [reflexivity | now rewrite IH]. Qed.

Lemma stdout_bytes_app (a b : list out_event) :
  stdout_bytes (a ++ b) = stdout_bytes a ++ stdout_bytes b.
Proof.
  induction a as [|e a IH]; [reflexivity|].
  destruct e as [[|] text|self]; cbn; rewrite IH;
    [symmetry; apply append_assoc | reflexivity | reflexivity].
Qed.

Lemma stdout_bytes_stderr (errs : list out_event) :
  forallb to_stderr errs = true -> stdout_bytes errs = "".
Proof.
  induction errs as [|e errs IH]; [reflexivity|].
  cbn [forallb]. intros H. apply andb_true_iff in H. destruct H as [He Hr].
  destruct e as [[|] text|self]; cbn in *; [discriminate | auto | auto].
Qed.

Lemma stderr_events_stderr (errs : list out_event) :
  forallb to_stderr errs = true -> stderr_events errs = errs.
Proof.
  induction errs as [|e errs IH]; [reflexivity|].
  cbn [forallb]. intros H. apply andb_true_iff in H. destruct H as [He Hr].
  unfold stderr_events in *. cbn [filter]. rewrite He, IH by exact Hr.
  reflexivity.
Qed.

Lemma set_output_same (w : world) : set_output w (output w) = w.
Proof. now destruct w. Qed.

Lemma wrote_only_stderr_refl (w : world) : wrote_only_stderr w w.
Proof.
  exists []. split; [reflexivity|]. now rewrite app_nil_r, set_output_same.
Qed.

Lemma wrote_only_stderr_trans (w1 w2 w3 : world) :
  wrote_only_stderr w1 w2 -> wrote_only_stderr w2 w3 ->
  wrote_only_stderr w1 w3.
Proof.
  intros (e1 & H1 & ->) (e2 & H2 & ->). exists (e1 ++ e2)%list. split.
  - rewrite forallb_app, H1, H2. reflexivity.
  - cbn. now rewrite app_assoc.
Qed.

Lemma reported_error_weaken (w w' : world) :
  reported_error w w' -> wrote_only_stderr w w'.
Proof. intros (errs & _ & H & E). exists errs. auto. Qed.

Lemma reported_error_after (w1 w2 w3 : world) :
  wrote_only_stderr w1 w2 -> reported_error w2 w3 -> reported_error w1 w3.
Proof.
  intros (e1 & H1 & ->) (e2 & Hne & H2 & ->). exists (e1 ++ e2)%list.
  split; [|split].
  - intros E. apply app_eq_nil in E. tauto.
  - rewrite forallb_app, H1, H2. reflexivity.
  - cbn. now rewrite app_assoc.
Qed.

Lemma fputs_stderr_reported (text : string) (w : world) :
  reported_error w (fputs text Stderr w).
Proof.
  exists [Fputs Stderr text]. split; [discriminate|]. split; reflexivity.
Qed.

Lemma getopt_report_stderr (r : Libc.getopt_ret) (w : world) :
  wrote_only_stderr w (getopt_report r w).
Proof.
  unfold getopt_report. destruct (Libc.diag r =? "")%string.
  - apply wrote_only_stderr_refl.
  - apply reported_error_weaken, fputs_stderr_reported.
Qed.

Lemma getopt_report_reported (r : Libc.getopt_ret) (w : world) :
  Libc.diag r <> "" -> reported_error w (getopt_report r w).
Proof.
  intros H. unfold getopt_report. apply String.eqb_neq in H. rewrite H.
  apply fputs_stderr_reported.
Qed.

(** What [wrote_only_stderr] leaves as it was. *)
Lemma wrote_only_stderr_frame (w w' : world) :
  wrote_only_stderr w w' ->
  stdin_term w' = stdin_term w /\ default_term w' = default_term w
  /\ exit_handlers w' = exit_handlers w /\ polls w' = polls w
  /\ drains w' = drains w /\ restores w' = restores w
  /\ stdout_bytes (output w') = stdout_bytes (output w).
Proof.
  intros (errs & H & ->). cbn. repeat split.
  rewrite stdout_bytes_app, (stdout_bytes_stderr errs H).
  clear. induction (stdout_bytes (output w)) as [|c t IH]; cbn;
    [reflexivity | now rewrite IH].
Qed.

Lemma reported_error_stderr (w w' : world) :
  reported_error w w' -> output w = [] -> stderr_events (output w') <> [].
Proof.
  intros (errs & Hne & H & ->) Hw. cbn. rewrite Hw. cbn [app].
  now rewrite stderr_events_stderr.
Qed.

(** ** The argument parser *)

(** Splits a goal about one round of the option loop into the branches of
    its [switch]. *)
Ltac switch_cases :=
  repeat match goal with
         | |- context [if ?b then _ else _] => destruct b eqn:?
         | |- context [match Libc.sscanf_i int_conv ?x with _ => _ end] =>
             destruct (Libc.sscanf_i int_conv x) eqn:?
         end.

Lemma parse_options_stderr (rets : list Libc.getopt_ret) :
  forall (s : Settings) (w : world),
    wrote_only_stderr w (snd (parse_options rets s w)).
Proof.
  induction rets as [|r rest IH]; intros s w; cbn [parse_options].
  - apply wrote_only_stderr_refl.
  - pose proof (getopt_report_stderr r w) as Hrep.
    switch_cases; cbn [snd];
      try (eapply wrote_only_stderr_trans; [exact Hrep | apply IH]);
      try (eapply wrote_only_stderr_trans;
           [exact Hrep | apply reported_error_weaken, fputs_stderr_reported]);
      exact Hrep.
Qed.

(** When the option loop returns 0, something was written to standard
    error: by the program, or by [getopt] before it returned [?]. *)
Lemma parse_options_failure (rets : list Libc.getopt_ret) :
  forall (s : Settings) (w : world),
    reports_errors rets ->
    fst (parse_options rets s w) = None ->
    reported_error w (snd (parse_options rets s w)).
Proof.
  induction rets as [|r rest IH]; intros s w Hrep Hfail;
    cbn [parse_options] in *.
  - discriminate.
  - assert (Hrest : reports_errors rest)
      by (intros x Hx; apply Hrep; now right).
    pose proof (getopt_report_stderr r w) as Hw.
    revert Hfail. switch_cases; cbn [fst snd]; intros Hfail;
      try (eapply reported_error_after; [exact Hw | now apply IH]);
      try (eapply reported_error_after;
           [exact Hw | apply fputs_stderr_reported]).
    apply getopt_report_reported. apply Hrep; [now left|].
    now apply Ascii.eqb_eq.
Qed.

(** *** The option bits *)

Lemma land_lor_other (o G F : Z) :
  Z.land G F = 0 -> Z.land (Z.lor o G) F = Z.land o F.
Proof. intros H. now rewrite Z.land_lor_distr_l, H, Z.lor_0_r. Qed.

Lemma land_lor_same (o F : Z) :
  F <> 0 -> negb (Z.land (Z.lor o F) F =? 0) = true.
Proof.
  clear int_conv.
  intros H. rewrite Z.land_lor_distr_l, Z.land_diag.
  apply negb_true_iff, Z.eqb_neq. intros E.
  apply Z.lor_eq_0_iff in E. tauto.
Qed.

Lemma land_clear_other (o G F : Z) :
  Z.land (Z.lnot G) F = F -> Z.land (Z.land o (Z.lnot G)) F = Z.land o F.
Proof. intros H. now rewrite <- Z.land_assoc, H. Qed.

Lemma land_clear_same (o F : Z) : Z.land (Z.land o (Z.lnot F)) F = 0.
Proof.
  rewrite <- Z.land_assoc, (Z.land_comm (Z.lnot F)), Z.land_lnot_diag.
  apply Z.land_0_r.
Qed.

(** Settles what an update of the settings does to the option bits. *)
Ltac flags :=
  unfold has_opt;
  cbn [opts countdown exitcode set_opts set_exitcode set_template];
  rewrite ?land_lor_same by discriminate;
  rewrite ?land_clear_same;
  rewrite ?land_lor_other by reflexivity;
  rewrite ?land_clear_other by reflexivity;
  rewrite ?orb_true_r, ?orb_false_r.

(** *** One round of the option loop *)

(** A bad option ends the loop with [return 0]. *)
Lemma parse_options_bad_head (r : Libc.getopt_ret) (rest : list Libc.getopt_ret)
    (s : Settings) (w : world) :
  bad_option r = true -> fst (parse_options (r :: rest) s w) = None.
Proof.
  unfold bad_option, bad_exit_code. intros H. cbn [parse_options].
  destruct (Ascii.eqb_spec (Libc.opt r) "?") as [E|_].
  { rewrite E. reflexivity. }
  destruct (Ascii.eqb_spec (Libc.opt r) "e") as [E|_].
  { rewrite E in *. cbn [Ascii.eqb Bool.eqb orb andb] in *.
    destruct (Libc.sscanf_i int_conv (Libc.optarg r)) as [val|]; [|reflexivity].
    rewrite orb_false_r in H. rewrite Z.gtb_ltb, H. reflexivity. }
  destruct (Ascii.eqb_spec (Libc.opt r) "m") as [E|_]; [|discriminate].
  rewrite E in *. cbn [Ascii.eqb Bool.eqb orb andb] in *. unfold Libc.strnlen.
  apply Nat.ltb_lt in H.
  replace (256 <=? Nat.min (length (Libc.optarg r)) 256)%nat with true
    by (symmetry; apply Nat.leb_le; lia).
  reflexivity.
Qed.

(** Any other result of [getopt] lets the loop go on, with the settings
    updated as its [case] says. *)
Lemma parse_options_head (r : Libc.getopt_ret) (rest : list Libc.getopt_ret)
    (s : Settings) (w : world) :
  bad_option r = false ->
  exists s',
    parse_options (r :: rest) s w = parse_options rest s' (getopt_report r w)
    /\ countdown s' = countdown s
    /\ has_opt s' OPT_SILENT
       = has_opt s OPT_SILENT || (Libc.opt r =? "s")%char
    /\ has_opt s' OPT_HELP = has_opt s OPT_HELP || (Libc.opt r =? "h")%char
    /\ (Libc.opt r = "f"%char ->
        has_opt s' OPT_FAIL_NO_USER_INTERACTION = true /\ exitcode s' = 0)
    /\ (Libc.opt r = "e"%char ->
        has_opt s' OPT_FAIL_NO_USER_INTERACTION = false
        /\ Libc.sscanf_i int_conv (Libc.optarg r) = Some (exitcode s'))
    /\ (Libc.opt r <> "f"%char -> Libc.opt r <> "e"%char ->
        has_opt s' OPT_FAIL_NO_USER_INTERACTION
        = has_opt s OPT_FAIL_NO_USER_INTERACTION
        /\ exitcode s' = exitcode s).
Proof.
  unfold bad_option, bad_exit_code. intros H. cbn [parse_options].
  apply orb_false_iff in H. destruct H as [H Hm].
  apply orb_false_iff in H. destruct H as [Hq He].
  destruct (Ascii.eqb_spec (Libc.opt r) "s") as [E|Hs].
  { eexists; split; [reflexivity|]. rewrite E. flags.
    repeat split; intros; congruence. }
  destruct (Ascii.eqb_spec (Libc.opt r) "z") as [E|Hz].
  { eexists; split; [reflexivity|]. rewrite E. flags.
    repeat split; intros; congruence. }
  destruct (Ascii.eqb_spec (Libc.opt r) "f") as [E|Hf].
  { eexists; split; [reflexivity|]. rewrite E. flags.
    repeat split; intros; congruence. }
  destruct (Ascii.eqb_spec (Libc.opt r) "m") as [E|Hm'].
  { cbn [andb] in Hm.
    apply Nat.ltb_ge in Hm. unfold Libc.strnlen.
    replace (256 <=? Nat.min (length (Libc.optarg r)) 256)%nat with false
      by (symmetry; apply Nat.leb_gt; lia).
    eexists; split; [reflexivity|]. rewrite E. flags.
    repeat split; intros; congruence. }
  destruct (Ascii.eqb_spec (Libc.opt r) "e") as [E|He'].
  { cbn [andb] in He.
    destruct (Libc.sscanf_i int_conv (Libc.optarg r)) as [val|];
      [|discriminate].
    rewrite Z.gtb_ltb, He. eexists; split; [reflexivity|]. rewrite E. flags.
    repeat split; intros; congruence. }
  destruct (Ascii.eqb_spec (Libc.opt r) "h") as [E|Hh].
  { eexists; split; [reflexivity|]. rewrite E. flags.
    repeat split; intros; congruence. }
  destruct (Ascii.eqb_spec (Libc.opt r) "?"); [discriminate|].
  eexists; split; [reflexivity|]. flags.
  repeat split; intros; congruence.
Qed.

(** *** The whole option loop *)

(** A bad option makes the option loop return 0, wherever it stands. *)
Lemma parse_options_bad (rets : list Libc.getopt_ret) :
  forall (s : Settings) (w : world),
    existsb bad_option rets = true ->
    fst (parse_options rets s w) = None.
Proof.
  induction rets as [|r rest IH]; intros s w Hbad; [discriminate|].
  cbn [existsb] in Hbad. destruct (bad_option r) eqn:Hr.
  - now apply parse_options_bad_head.
  - destruct (parse_options_head r rest s w Hr) as (s' & -> & _).
    now apply IH.
Qed.

(** When the option loop succeeds, no option was bad, the countdown is
    untouched, and the silent and help bits are set exactly if they were
    before or their option was given. *)
Lemma parse_options_success (rets : list Libc.getopt_ret) :
  forall (s s' : Settings) (w w' : world),
    parse_options rets s w = (Some s', w') ->
    existsb bad_option rets = false
    /\ countdown s' = countdown s
    /\ has_opt s' OPT_SILENT = has_opt s OPT_SILENT || given "s" rets
    /\ has_opt s' OPT_HELP = has_opt s OPT_HELP || given "h" rets.
Proof.
  induction rets as [|r rest IH]; intros s s' w w' H.
  - cbn in H. inversion H; subst. cbn. now rewrite !orb_false_r.
  - destruct (bad_option r) eqn:Hr.
    + pose proof (parse_options_bad_head r rest s w Hr) as Hf.
      rewrite H in Hf. discriminate.
    + destruct (parse_options_head r rest s w Hr)
        as (s1 & E & Hc & Hs & Hh & _).
      rewrite E in H. destruct (IH _ _ _ _ H) as (Hb & Hc' & Hs' & Hh').
      unfold given in *. cbn [existsb]. rewrite Hr, Hb, Hc', Hs', Hh', Hs, Hh.
      rewrite !orb_assoc. auto.
Qed.

Lemma parse_options_app (pre post : list Libc.getopt_ret) :
  forall (s : Settings) (w : world),
    parse_options (pre ++ post) s w
    = match parse_options pre s w with
      | (Some s1, w1) => parse_options post s1 w1
      | (None, w1) => (None, w1)
      end.
Proof.
  induction pre as [|r pre IH]; intros s w; [reflexivity|].
  cbn [app parse_options]. switch_cases; try reflexivity; apply IH.
Qed.

(** Options other than [-e] and [-f] leave the exit code and the
    fail-without-interaction bit alone. *)
Lemma parse_options_keeps_exit (rets : list Libc.getopt_ret) :
  forall (s s' : Settings) (w w' : world),
    given "e" rets = false ->
    given "f" rets = false ->
    parse_options rets s w = (Some s', w') ->
    has_opt s' OPT_FAIL_NO_USER_INTERACTION
    = has_opt s OPT_FAIL_NO_USER_INTERACTION
    /\ exitcode s' = exitcode s.
Proof.
  induction rets as [|r rest IH]; intros s s' w w' He Hf H.
  - cbn in H. inversion H; subst. auto.
  - unfold given in He, Hf. cbn [existsb] in He, Hf.
    apply orb_false_iff in He, Hf. destruct He as [He He'], Hf as [Hf Hf'].
    destruct (bad_option r) eqn:Hr.
    + pose proof (parse_options_bad_head r rest s w Hr) as Hx.
      rewrite H in Hx. discriminate.
    + destruct (parse_options_head r rest s w Hr)
        as (s1 & E & _ & _ & _ & _ & _ & Hkeep).
      rewrite E in H. destruct (IH _ _ _ _ He' Hf' H) as [H1 H2].
      apply Ascii.eqb_neq in He, Hf. destruct (Hkeep Hf He) as [H3 H4].
      split; congruence.
Qed.

(** Once [-f] has set the bit and reset the exit code, they stay so until
    an [-e]. *)
Lemma parse_options_keeps_fail (rets : list Libc.getopt_ret) :
  forall (s s' : Settings) (w w' : world),
    given "e" rets = false ->
    has_opt s OPT_FAIL_NO_USER_INTERACTION = true ->
    exitcode s = 0 ->
    parse_options rets s w = (Some s', w') ->
    has_opt s' OPT_FAIL_NO_USER_INTERACTION = true /\ exitcode s' = 0.
Proof.
  induction rets as [|r rest IH]; intros s s' w w' He Hbit Hcode H.
  - cbn in H. inversion H; subst. auto.
  - unfold given in He. cbn [existsb] in He.
    apply orb_false_iff in He. destruct He as [He He'].
    destruct (bad_option r) eqn:Hr.
    + pose proof (parse_options_bad_head r rest s w Hr) as Hx.
      rewrite H in Hx. discriminate.
    + destruct (parse_options_head r rest s w Hr)
        as (s1 & E & _ & _ & _ & Hf & _ & Hkeep).
      rewrite E in H. apply Ascii.eqb_neq in He.
      destruct (Ascii.eqb_spec (Libc.opt r) "f") as [Ef|Ef].
      * destruct (Hf Ef) as [H1 H2]. exact (IH _ _ _ _ He' H1 H2 H).
      * destruct (Hkeep Ef He) as [H1 H2].
        apply (IH s1 s' (getopt_report r w) w' He');
          [congruence | congruence | exact H].
Qed.

(** *** The countdown operand and [parse_arguments] as a whole *)

Lemma parse_operands_stderr (operands : list string) (s : Settings)
    (w : world) :
  wrote_only_stderr w (snd (parse_operands operands s w)).
Proof.
  unfold parse_operands. destruct operands as [|first rest];
    [apply wrote_only_stderr_refl|].
  destruct (Libc.sscanf_i int_conv first) as [val|];
    [destruct (val <? 0)|]; cbn [snd];
    solve [apply wrote_only_stderr_refl
          | apply reported_error_weaken, fputs_stderr_reported].
Qed.

Lemma parse_operands_failure (operands : list string) (s : Settings)
    (w : world) :
  fst (parse_operands operands s w) = None ->
  reported_error w (snd (parse_operands operands s w)).
Proof.
  unfold parse_operands. destruct operands as [|first rest];
    [discriminate|].
  destruct (Libc.sscanf_i int_conv first) as [val|];
    [destruct (val <? 0)|]; cbn [fst snd]; try discriminate;
    intros _; apply fputs_stderr_reported.
Qed.

(** The operand part succeeds exactly on a good countdown, which it stores,
    or on no operand at all, which stores nothing. *)
Lemma parse_operands_success (operands : list string) (s s' : Settings)
    (w w' : world) :
  parse_operands operands s w = (Some s', w') ->
  opts s' = opts s /\ exitcode s' = exitcode s /\ template s' = template s
  /\ match operands with
     | first :: _ => bad_countdown first = false /\ 0 <= countdown s'
     | [] => countdown s' = countdown s
     end.
Proof.
  unfold parse_operands, bad_countdown.
  destruct operands as [|first rest].
  - intros H. inversion H; subst. auto.
  - destruct (Libc.sscanf_i int_conv first) as [val|]; [|discriminate].
    destruct (val <? 0) eqn:Hv; [discriminate|].
    intros H. inversion H; subst. cbn. apply Z.ltb_ge in Hv. auto.
Qed.

Lemma parse_operands_bad (first : string) (rest : list string)
    (s : Settings) (w : world) :
  bad_countdown first = true ->
  fst (parse_operands (first :: rest) s w) = None.
Proof.
  unfold parse_operands, bad_countdown.
  destruct (Libc.sscanf_i int_conv first) as [val|]; [|reflexivity].
  intros ->. reflexivity.
Qed.

Lemma parse_getopt_stderr (g : list Libc.getopt_ret * list string)
    (w : world) :
  wrote_only_stderr w (snd (parse_getopt g w)).
Proof.
  unfold parse_getopt.
  pose proof (parse_options_stderr (fst g) initial_settings w) as H1.
  destruct (parse_options (fst g) initial_settings w) as [[s1|] w1];
    cbn [snd] in *; [|exact H1].
  eapply wrote_only_stderr_trans; [exact H1 | apply parse_operands_stderr].
Qed.

Lemma parse_getopt_failure (g : list Libc.getopt_ret * list string)
    (w : world) :
  reports_errors (fst g) ->
  fst (parse_getopt g w) = None ->
  reported_error w (snd (parse_getopt g w)).
Proof.
  unfold parse_getopt. intros Hrep.
  pose proof (parse_options_stderr (fst g) initial_settings w) as H1.
  pose proof (parse_options_failure (fst g) initial_settings w Hrep) as H2.
  destruct (parse_options (fst g) initial_settings w) as [[s1|] w1];
    cbn [fst snd] in *.
  - intros H. eapply reported_error_after; [exact H1|].
    now apply parse_operands_failure.
  - intros _. now apply H2.
Qed.

(** What a successful [parse_arguments] tells about the command line and
    the settings. *)
Lemma parse_getopt_success (g : list Libc.getopt_ret * list string)
    (s' : Settings) (w w' : world) :
  parse_getopt g w = (Some s', w') ->
  existsb bad_option (fst g) = false
  /\ has_opt s' OPT_SILENT = given "s" (fst g)
  /\ has_opt s' OPT_HELP = given "h" (fst g)
  /\ match snd g with
     | first :: _ => bad_countdown first = false /\ 0 <= countdown s'
     | [] => countdown s' = -1
     end
  /\ exists s1 w1,
       parse_options (fst g) initial_settings w = (Some s1, w1)
       /\ opts s' = opts s1 /\ exitcode s' = exitcode s1.
Proof.
  unfold parse_getopt.
  destruct (parse_options (fst g) initial_settings w) as [[s1|] w1] eqn:Ho;
    [|discriminate].
  intros Hp.
  destruct (parse_options_success _ _ _ _ _ Ho) as (Hb & Hc & Hs & Hh).
  destruct (parse_operands_success _ _ _ _ _ Hp) as (Eo & Ee & _ & Hn).
  split; [exact Hb|].
  split; [unfold has_opt in *; rewrite Eo; exact Hs|].
  split; [unfold has_opt in *; rewrite Eo; exact Hh|].
  split.
  - destruct (snd g); [rewrite Hn, Hc; reflexivity | exact Hn].
  - exists s1, w1. auto.
Qed.

(** *** [getopt] says what it returns [?] for *)

Lemma scan_cluster_reports (self : string) (cs : list ascii)
    (next : option string) :
  reports_errors
    (fst (Libc.scan_cluster self (list_ascii_of_string OPTSTRING) cs next)).
Proof.
  induction cs as [|c cs IH]; [intros r []|].
  cbn [Libc.scan_cluster].
  destruct (Libc.takes_arg (list_ascii_of_string OPTSTRING) c)
    as [[|]|] eqn:Hc.
  - assert (Hq : c <> "?"%char) by (intros ->; discriminate).
    destruct cs as [|c' cs'], next as [a|]; cbn [fst];
      intros r [<-|[]]; cbn; try congruence.
    intros _. destruct self; discriminate.
  - assert (Hq : c <> "?"%char) by (intros ->; discriminate).
    destruct (Libc.scan_cluster self (list_ascii_of_string OPTSTRING) cs next)
      as [rets used]. cbn [fst] in *.
    intros r [<-|Hin]; [cbn; congruence | now apply IH].
  - destruct (Libc.scan_cluster self (list_ascii_of_string OPTSTRING) cs next)
      as [rets used]. cbn [fst] in *.
    intros r [<-|Hin]; [|now apply IH].
    intros _. cbn. destruct self; discriminate.
Qed.

Lemma getopt_scan_reports (self : string) (args : list string) :
  forall skip,
    reports_errors
      (fst (Libc.getopt_scan self (list_ascii_of_string OPTSTRING) skip args)).
Proof.
  induction args as [|a rest IH]; intros skip; [intros r []|].
  cbn [Libc.getopt_scan]. destruct skip; [apply IH|].
  destruct (a =? "--")%string; [intros r []|].
  destruct (list_ascii_of_string a) as [|c0 [|c cs]].
  - specialize (IH false).
    destruct (Libc.getopt_scan self _ false rest) as [rets ops]. exact IH.
  - specialize (IH false).
    destruct (Libc.getopt_scan self _ false rest) as [rets ops].
    destruct c0 as [[] [] [] [] [] [] [] []]; exact IH.
  - pose proof (scan_cluster_reports self (c :: cs) (hd_error rest)) as Hcl.
    destruct (Libc.scan_cluster self _ (c :: cs) (hd_error rest))
      as [rets used].
    pose proof (IH used) as IHu. pose proof (IH false) as IHf.
    destruct (Libc.getopt_scan self _ used rest) as [rets' ops'].
    destruct (Libc.getopt_scan self _ false rest) as [rets'' ops''].
    cbn [fst] in *.
    destruct c0 as [[] [] [] [] [] [] [] []]; try exact IHf.
    intros r Hin. apply in_app_or in Hin. destruct Hin; auto.
Qed.

Lemma getopt_all_reports (argv : list string) :
  reports_errors (fst (Libc.getopt_all argv OPTSTRING)).
Proof. apply getopt_scan_reports. Qed.

(** ** Terminal set-up and exit handlers *)

Lemma clear_echo_icanon_flags (t : termios) :
  Z.land (c_lflag (clear_echo_icanon t)) ECHO = 0
  /\ Z.land (c_lflag (clear_echo_icanon t)) ICANON = 0
  /\ c_iflag (clear_echo_icanon t) = c_iflag t
  /\ c_oflag (clear_echo_icanon t) = c_oflag t
  /\ c_cflag (clear_echo_icanon t) = c_cflag t
  /\ Z.lor (c_lflag (clear_echo_icanon t))
       (Z.land (c_lflag t) (Z.lor ECHO ICANON))
     = c_lflag t.
Proof.
  unfold clear_echo_icanon. cbn [c_lflag c_iflag c_oflag c_cflag].
  repeat split.
  - rewrite <- Z.land_assoc. change (Z.land _ ECHO) with 0. apply Z.land_0_r.
  - rewrite <- Z.land_assoc. change (Z.land _ ICANON) with 0.
    apply Z.land_0_r.
  - rewrite <- Z.land_lor_distr_r, (Z.lor_comm (Z.lnot _)), Z.lor_lnot_diag.
    apply Z.land_m1_r.
Qed.

(** On a terminal, [init_termio] keeps the attributes it found in
    [default_term], registers [reset_termio], and leaves the terminal with
    echo and canonical mode off; otherwise it only unbuffers the output. *)
Lemma init_termio_effect (w : world) :
  output (init_termio w) = output w
  /\ polls (init_termio w) = polls w
  /\ drains (init_termio w) = drains w
  /\ restores (init_termio w) = restores w
  /\ match stdin_term w with
     | Some t =>
         stdin_term (init_termio w) = Some (clear_echo_icanon t)
         /\ default_term (init_termio w) = t
         /\ exit_handlers (init_termio w) = Reset_termio :: exit_handlers w
     | None =>
         stdin_term (init_termio w) = None
         /\ default_term (init_termio w) = default_term w
         /\ exit_handlers (init_termio w) = exit_handlers w
     end.
Proof.
  unfold init_termio, isatty, tcgetattr, tcsetattr, atexit, set_default_term,
    setvbuf_stdout_unbuffered.
  cbn. destruct (stdin_term w) as [t|] eqn:E; cbn; rewrite ?E;
    repeat split.
Qed.

Lemma run_handlers_effect (hs : list handler) :
  forall w,
    let w' := fold_left (fun w h => run_handler h w) hs w in
    output w' = output w /\ polls w' = polls w /\ drains w' = drains w
    /\ default_term w' = default_term w
    /\ exit_handlers w' = exit_handlers w
    /\ restores w' = (restores w + List.length hs)%nat
    /\ stdin_term w'
       = match hs, stdin_term w with
         | _ :: _, Some _ => Some (default_term w)
         | _, cur => cur
         end.
Proof.
  induction hs as [|h hs IH]; intros w; cbn [fold_left].
  - cbn. rewrite Nat.add_0_r. repeat split.
  - destruct (IH (run_handler h w)) as (Ho & Hp & Hd & Hdef & Hex & Hres & Ht).
    destruct h. cbn zeta.
    rewrite Ho, Hp, Hd, Hdef, Hex, Hres, Ht. cbn.
    repeat split; try lia.
    destruct hs, (stdin_term w); reflexivity.
Qed.

(** [reset_termio] twice is [reset_termio] once, as far as the terminal
    goes, and without a terminal it changes no attribute at all. *)
Lemma reset_termio_idempotent (w : world) :
  stdin_term (reset_termio (reset_termio w)) = stdin_term (reset_termio w)
  /\ default_term (reset_termio (reset_termio w))
     = default_term (reset_termio w)
  /\ (stdin_term w = None -> stdin_term (reset_termio w) = None).
Proof.
  unfold reset_termio, tcsetattr. cbn.
  destruct (stdin_term w); repeat split; auto; discriminate.
Qed.

(** ** [main] after the checks *)

(** When the loop part of [main] returns, it reports how the loop ended and
    exits with the resolved code. *)
Lemma main_loop_end (settings : Settings) (select_results : nat -> Z)
    (w : world) (o : outcome) :
  main_loop settings select_results w = Some o ->
  0 <= countdown settings ->
  exists r sl,
    loop_end o = Some (r, sl)
    /\ status o = resolve_exitcode settings sl
    /\ 0 <= sl <= countdown settings
    /\ match r with
       | Timeout => sl = 0
       | Interrupted => 0 < sl
       end.
Proof.
  unfold main_loop. intros H HN.
  destruct (countdown_loop _ _ _ _ _) as [[[r sl] w']|] eqn:Hloop;
    [|discriminate].
  destruct (countdown_loop_end _ _ _ _ _ _ _ _ Hloop HN) as [Hb Hr].
  inversion H; subst o. exists r, sl. cbn. auto.
Qed.

(** When the messages fit, the loop part of [main] does return, and it
    changes nothing of the environment but the output and the poll
    counters; with the silent bit it does not even write. *)
Lemma main_loop_outcome (settings : Settings) (select_results : nat -> Z)
    (w : world) :
  0 <= countdown settings ->
  message_fits settings = true ->
  exists o,
    main_loop settings select_results w = Some o
    /\ stdin_term (final o) = stdin_term w
    /\ default_term (final o) = default_term w
    /\ exit_handlers (final o) = exit_handlers w
    /\ restores (final o) = restores w
    /\ (has_opt settings OPT_SILENT = true -> output (final o) = output w)
    /\ stderr_events (output (final o)) = stderr_events (output w).
Proof.
  intros HN Hfit.
  destruct (countdown_loop_running settings select_results
              (S (Z.to_nat (countdown settings))) (countdown settings) w)
    as (r & sl & w' & Hloop & _ & _
        & Hterm & Hdef & Hex & Hres & Hout & Herr);
    [lia | intros m Hm; now apply message_fits_at |].
  unfold main_loop. rewrite Hloop.
  eexists. split; [reflexivity|]. cbn [final].
  destruct (has_opt settings OPT_SILENT) eqn:Hs; cbn [negb].
  - repeat split; auto.
  - destruct (has_opt settings OPT_SUPPRESS_EXIT_INFO); cbn;
      repeat split; auto; try discriminate;
      unfold stderr_events in *; rewrite filter_app; cbn;
      now rewrite app_nil_r.
Qed.

(** ** The process from start to exit *)

Lemma run_exit_handlers_none (w : world) :
  exit_handlers w = [] -> run_exit_handlers w = w.
Proof. unfold run_exit_handlers. now intros ->. Qed.

(** A run goes one of four ways: the arguments are rejected, help is shown,
    the countdown is missing, or the terminal is prepared and the loop
    runs. *)
Lemma run_cases (argv : list string) (select_results : nat -> Z)
    (term : option termios) :
  match parse_arguments argv (initial_world term) with
  | (None, w') =>
      run argv select_results term
      = Some {| status := 1; loop_end := None; final := w' |}
  | (Some s, w') =>
      if has_opt s OPT_HELP then
        run argv select_results term
        = Some {| status := 0; loop_end := None;
                  final := print_usage (hd "" argv) w' |}
      else if countdown s <? 0 then
        run argv select_results term
        = Some {| status := 1; loop_end := None;
                  final :=
                    fputs ("Error: number of seconds to wait must be specified."
                           ++ String LF "") Stderr w' |}
      else
        0 <= countdown s
        /\ run argv select_results term
           = match main_loop s select_results (init_termio w') with
             | Some o =>
                 Some {| status := status o; loop_end := loop_end o;
                         final := run_exit_handlers (final o) |}
             | None => None
             end
  end.
Proof.
  unfold run, main.
  pose proof (parse_getopt_stderr (Libc.getopt_all argv OPTSTRING)
                (initial_world term)) as Hw.
  fold (parse_arguments argv (initial_world term)) in Hw.
  destruct (parse_arguments argv (initial_world term)) as [[s|] w'];
    cbn [snd] in Hw;
    destruct (wrote_only_stderr_frame _ _ Hw) as (_ & _ & Hex & _);
    cbn [initial_world exit_handlers] in Hex.
  - destruct (has_opt s OPT_HELP).
    { cbn [status loop_end final]. now rewrite run_exit_handlers_none. }
    destruct (countdown s <? 0) eqn:Hc.
    { cbn [status loop_end final]. now rewrite run_exit_handlers_none. }
    apply Z.ltb_ge in Hc. split; [exact Hc | reflexivity].
  - cbn [status loop_end final]. now rewrite run_exit_handlers_none.
Qed.

(** The loop way, when the messages fit: the run ends, the terminal is as
    it was at the start, and [reset_termio] has run once if there is a
    terminal. *)
Lemma run_loop_outcome (s : Settings) (select_results : nat -> Z)
    (term : option termios) (w' : world) :
  wrote_only_stderr (initial_world term) w' ->
  0 <= countdown s ->
  message_fits s = true ->
  exists o,
    match main_loop s select_results (init_termio w') with
    | Some o =>
        Some {| status := status o; loop_end := loop_end o;
                final := run_exit_handlers (final o) |}
    | None => None
    end = Some o
    /\ loop_end o <> None
    /\ stdin_term (final o) = term
    /\ restores (final o)
       = match term with
         | Some _ => 1%nat
         | None => 0%nat
         end
    /\ (has_opt s OPT_SILENT = true -> output (final o) = output w')
    /\ stderr_events (output (final o)) = stderr_events (output w').
Proof.
  intros Hw HN Hfit.
  destruct (wrote_only_stderr_frame _ _ Hw)
    as (Hterm & Hdef & Hex & Hp & Hd & Hres & Hout).
  cbn [initial_world stdin_term default_term exit_handlers polls drains
       restores] in Hterm, Hdef, Hex, Hp, Hd, Hres.
  destruct (main_loop_outcome s select_results (init_termio w') HN Hfit)
    as (o & Ho & Ht & Hdf & Hh & Hrs & Hsil & Herr).
  destruct (main_loop_end _ _ _ _ Ho HN) as (r & sl & Hend & _).
  rewrite Ho. eexists. split; [reflexivity|]. cbn [status loop_end final].
  destruct (init_termio_effect w') as (Io & Ip & Id & Ir & It).
  pose proof (run_handlers_effect (exit_handlers (final o)) (final o))
    as Hrun. cbn zeta in Hrun. fold (run_exit_handlers (final o)) in Hrun.
  destruct Hrun as (Ro & _ & _ & _ & _ & Rr & Rt).
  split; [congruence|].
  rewrite Rt, Rr, Ro, Hh, Ht, Hdf, Hrs, Ir, Hres.
  rewrite Hterm in It. destruct term as [t|]; destruct It as (I1 & I2 & I3);
    rewrite I1, I3, ?I2, Hex; cbn [List.length];
    (split; [reflexivity|]); (split; [reflexivity|]);
    (split; [intros Hs; rewrite (Hsil Hs); exact Io
            | rewrite Herr, Io; reflexivity]).
Qed.

(** ** Exit code, errors, silence and the terminal *)

(** The last of [-e] and [-f] decides the exit code and the bit. *)
Lemma parse_options_last_exit (pre post : list Libc.getopt_ret)
    (r : Libc.getopt_ret) (s s1 : Settings) (w w1 : world) :
  parse_options (pre ++ r :: post) s w = (Some s1, w1) ->
  given "e" post = false ->
  (Libc.opt r = "f"%char ->
   has_opt s1 OPT_FAIL_NO_USER_INTERACTION = true /\ exitcode s1 = 0)
  /\ (Libc.opt r = "e"%char -> given "f" post = false ->
      has_opt s1 OPT_FAIL_NO_USER_INTERACTION = false
      /\ Libc.sscanf_i int_conv (Libc.optarg r) = Some (exitcode s1)).
Proof.
  intros H He. rewrite parse_options_app in H.
  destruct (parse_options pre s w) as [[s0|] w0]; [|discriminate].
  destruct (bad_option r) eqn:Hr.
  { pose proof (parse_options_bad_head r post s0 w0 Hr) as Hx.
    rewrite H in Hx. discriminate. }
  destruct (parse_options_head r post s0 w0 Hr)
    as (s' & E & _ & _ & _ & Hf & Hee & _).
  rewrite E in H. split.
  - intros Ef. destruct (Hf Ef) as [H1 H2].
    exact (parse_options_keeps_fail _ _ _ _ _ He H1 H2 H).
  - intros Ee Hnf. destruct (Hee Ee) as [H1 H2].
    destruct (parse_options_keeps_exit _ _ _ _ _ He Hnf H) as [H3 H4].
    split; congruence.
Qed.

(** C3, as the program has it: of the [-e] and [-f] on the command line the
    last one decides.  When that is [-f] (in particular when [-f] is given
    and [-e] is not), a run that ends by timeout exits with 1 and a run that
    is interrupted exits with 0; when it is [-e CODE], the run exits with
    [CODE] however it ends. *)
Theorem exit_code_resolution (argv : list string) (select_results : nat -> Z)
    (term : option termios) (o : outcome) (reason : exit_reason) (sl : Z) :
  run argv select_results term = Some o ->
  loop_end o = Some (reason, sl) ->
  (given "f" (fst (Libc.getopt_all argv OPTSTRING)) = true ->
   given "e" (fst (Libc.getopt_all argv OPTSTRING)) = false ->
   status o = match reason with
              | Timeout => 1
              | Interrupted => 0
              end)
  /\ (forall pre r post,
        fst (Libc.getopt_all argv OPTSTRING) = (pre ++ r :: post)%list ->
        Libc.opt r = "e"%char ->
        given "e" post = false -> given "f" post = false ->
        Libc.sscanf_i int_conv (Libc.optarg r) = Some (status o))
  /\ (forall pre r post,
        fst (Libc.getopt_all argv OPTSTRING) = (pre ++ r :: post)%list ->
        Libc.opt r = "f"%char ->
        given "e" post = false ->
        status o = match reason with
                   | Timeout => 1
                   | Interrupted => 0
                   end).
Proof.
  intros Hrun Hend.
  pose proof (run_cases argv select_results term) as Hcase.
  unfold parse_arguments in Hcase. rewrite Hrun in Hcase.
  destruct (parse_getopt (Libc.getopt_all argv OPTSTRING) (initial_world term))
    as [[s|] w'] eqn:Hp;
    [|inversion Hcase; subst o; discriminate].
  destruct (has_opt s OPT_HELP);
    [inversion Hcase; subst o; discriminate|].
  destruct (countdown s <? 0);
    [inversion Hcase; subst o; discriminate|].
  destruct Hcase as [HN Hcase].
  destruct (main_loop s select_results (init_termio w')) as [o'|] eqn:Hmain;
    [|discriminate].
  assert (Es : status o = status o') by (inversion Hcase; reflexivity).
  assert (El : loop_end o = loop_end o') by (inversion Hcase; reflexivity).
  destruct (main_loop_end _ _ _ _ Hmain HN)
    as (r' & sl' & Hend' & Hst & _ & Hr).
  rewrite <- El, Hend in Hend'. rewrite <- Es in Hst.
  inversion Hend'; subst r' sl'. clear Hend' Hcase.
  destruct (parse_getopt_success _ _ _ _ Hp)
    as (_ & _ & _ & _ & s1 & w1 & Ho & Eo & Ee).
  assert (Hbit : has_opt s OPT_FAIL_NO_USER_INTERACTION
                 = has_opt s1 OPT_FAIL_NO_USER_INTERACTION)
    by (unfold has_opt; now rewrite Eo).
  assert (Hlast_f : forall pre r post,
    fst (Libc.getopt_all argv OPTSTRING) = (pre ++ r :: post)%list ->
    Libc.opt r = "f"%char -> given "e" post = false ->
    status o = match reason with
               | Timeout => 1
               | Interrupted => 0
               end).
  { intros pre r post Hsplit Ef He. rewrite Hsplit in Ho.
    destruct (parse_options_last_exit _ _ _ _ _ _ _ Ho He) as [Hf _].
    destruct (Hf Ef) as [H1 H2].
    rewrite Hst. unfold resolve_exitcode. rewrite Hbit, H1, Ee, H2.
    destruct reason; [subst sl; reflexivity|].
    replace (sl =? 0) with false by (symmetry; apply Z.eqb_neq; lia).
    reflexivity. }
  split; [|split].
  - intros Hf He. unfold given in Hf. apply existsb_exists in Hf.
    destruct Hf as (r & Hin & Er). apply Ascii.eqb_eq in Er.
    apply in_split in Hin. destruct Hin as (pre & post & Hsplit).
    apply (Hlast_f pre r post Hsplit Er).
    rewrite Hsplit in He. unfold given in *.
    rewrite existsb_app in He. cbn [existsb] in He.
    apply orb_false_iff in He. destruct He as [_ He].
    apply orb_false_iff in He. tauto.
  - intros pre r post Hsplit Er He Hf. rewrite Hsplit in Ho.
    destruct (parse_options_last_exit _ _ _ _ _ _ _ Ho He) as [_ Hlast].
    destruct (Hlast Er Hf) as [H1 H2].
    rewrite Hst. unfold resolve_exitcode. rewrite Hbit, H1, andb_false_r, Ee.
    exact H2.
  - exact Hlast_f.
Qed.

Lemma invalid_options_bad (rets : list Libc.getopt_ret) :
  existsb bad_option rets = false -> existsb invalid_option rets = false.
Proof.
  induction rets as [|r rest IH]; [reflexivity|].
  cbn [existsb]. intros H. apply orb_false_iff in H. destruct H as [Hr Hrest].
  rewrite (IH Hrest), orb_false_r.
  unfold bad_option in Hr. unfold invalid_option.
  apply orb_false_iff in Hr. destruct Hr as [Hr Hm].
  apply orb_false_iff in Hr. destruct Hr as [Hq He].
  rewrite Hq, Hm. cbn [orb]. rewrite orb_false_r.
  destruct (Libc.opt r =? "e")%char; [|reflexivity].
  cbn [andb] in *. now rewrite He.
Qed.

(** C6, as the program has it: a command line with an unknown option or an
    option without its argument, with an [-e] argument that does not start
    with an integer or starts with one outside 0..255, with a template of
    more than 255 bytes, with a countdown that does not start with an
    integer or starts with a negative one, or (help not being asked for)
    with no countdown, makes the process exit with 1 before the loop (the
    integers being such as fit an [int]):
    nothing is polled, nothing goes to standard output, something goes to
    standard error, and the terminal is not touched. *)
Theorem invalid_configuration_rejected (argv : list string)
    (select_results : nat -> Z) (term : option termios) :
  invalid_configuration (Libc.getopt_all argv OPTSTRING) = true ->
  exists o,
    run argv select_results term = Some o
    /\ status o = 1
    /\ loop_end o = None
    /\ polls (final o) = 0%nat
    /\ stdout_bytes (output (final o)) = ""
    /\ stderr_events (output (final o)) <> []
    /\ stdin_term (final o) = term
    /\ exit_handlers (final o) = [].
Proof.
  intros Hinv.
  pose proof (run_cases argv select_results term) as Hcase.
  unfold parse_arguments in Hcase.
  pose proof (parse_getopt_failure (Libc.getopt_all argv OPTSTRING)
                (initial_world term) (getopt_all_reports argv)) as Hfail.
  pose proof (parse_getopt_stderr (Libc.getopt_all argv OPTSTRING)
                (initial_world term)) as Hw.
  assert (Hdone : forall w',
    reported_error (initial_world term) w' ->
    run argv select_results term
    = Some {| status := 1; loop_end := None; final := w' |} ->
    exists o,
      run argv select_results term = Some o
      /\ status o = 1 /\ loop_end o = None /\ polls (final o) = 0%nat
      /\ stdout_bytes (output (final o)) = ""
      /\ stderr_events (output (final o)) <> []
      /\ stdin_term (final o) = term /\ exit_handlers (final o) = []).
  { intros w' Hrep Hrun. eexists. split; [exact Hrun|].
    cbn [status loop_end final].
    destruct (wrote_only_stderr_frame _ _ (reported_error_weaken _ _ Hrep))
      as (Ht & _ & Hex & Hp & _ & _ & Hout).
    repeat split; auto.
    now apply (reported_error_stderr _ _ Hrep). }
  destruct (parse_getopt (Libc.getopt_all argv OPTSTRING) (initial_world term))
    as [[s|] w'] eqn:Hp; cbn [fst snd] in Hfail, Hw.
  - destruct (parse_getopt_success _ _ _ _ Hp)
      as (Hbad & _ & Hh & Hn & _).
    unfold invalid_configuration in Hinv.
    rewrite (invalid_options_bad _ Hbad) in Hinv. cbn [orb] in Hinv.
    destruct (snd (Libc.getopt_all argv OPTSTRING)) as [|first rest].
    + apply negb_true_iff in Hinv. rewrite Hh, Hinv, Hn in Hcase.
      change (-1 <? 0) with true in Hcase. cbv iota in Hcase.
      apply (Hdone _ (reported_error_after _ _ _ Hw
                        (fputs_stderr_reported _ w')) Hcase).
    + destruct Hn as [Hn _]. unfold invalid_countdown in Hinv.
      rewrite Hn in Hinv. discriminate.
  - apply (Hdone w' (Hfail eq_refl) Hcase).
Qed.

(** C7: when [-s] is among the options, the process writes no byte to
    standard output, whatever the rest of the command line, the input and
    the terminal are, and however the run ends. *)
Theorem silent_run_writes_nothing (argv : list string)
    (select_results : nat -> Z) (term : option termios) :
  given "s" (fst (Libc.getopt_all argv OPTSTRING)) = true ->
  exists o,
    run argv select_results term = Some o
    /\ stdout_bytes (output (final o)) = "".
Proof.
  intros Hs.
  pose proof (run_cases argv select_results term) as Hcase.
  unfold parse_arguments in Hcase.
  pose proof (parse_getopt_stderr (Libc.getopt_all argv OPTSTRING)
                (initial_world term)) as Hw.
  destruct (parse_getopt (Libc.getopt_all argv OPTSTRING) (initial_world term))
    as [[s|] w'] eqn:Hp; cbn [snd] in Hw;
    destruct (wrote_only_stderr_frame _ _ Hw) as (_ & _ & _ & _ & _ & _ & Hout);
    cbn in Hout.
  - destruct (parse_getopt_success _ _ _ _ Hp) as (_ & Hsil & _).
    rewrite Hs in Hsil.
    destruct (has_opt s OPT_HELP).
    { eexists. split; [exact Hcase|]. cbn.
      rewrite stdout_bytes_app, Hout. reflexivity. }
    destruct (countdown s <? 0).
    { eexists. split; [exact Hcase|]. cbn.
      rewrite stdout_bytes_app, Hout. reflexivity. }
    destruct Hcase as [HN Hrun].
    destruct (run_loop_outcome s select_results term w' Hw HN
                (silent_message_fits s Hsil))
      as (o & Ho & _ & _ & _ & Hsame & _).
    exists o. split; [congruence|]. now rewrite (Hsame Hsil).
  - eexists. split; [exact Hcase|]. exact Hout.
Qed.

(** C8, as the program has it: whatever the command line, the input and the
    terminal (the messages shown being such as fit their buffer), the process
    ends by returning from [main], and the terminal then has the attributes
    it had at the start.  [reset_termio] has then run once if the loop ran on
    a terminal, and not at all otherwise: the exits before the loop come
    before [init_termio], and without a terminal nothing is registered.
    [init_termio] on a terminal keeps the attributes found, registers
    [reset_termio] and clears echo and canonical mode, leaving all else as it
    was; [reset_termio] can be repeated without further effect and changes
    nothing without a terminal. *)
Theorem terminal_mode_restored (argv : list string)
    (select_results : nat -> Z) (term : option termios) :
  messages_fit argv term = true ->
  (exists o,
     run argv select_results term = Some o
     /\ stdin_term (final o) = term
     /\ restores (final o)
        = match loop_end o, term with
          | Some _, Some _ => 1%nat
          | _, _ => 0%nat
          end)
  /\ (forall t,
        term = Some t ->
        let w := init_termio (initial_world term) in
        default_term w = t
        /\ exit_handlers w = [Reset_termio]
        /\ stdin_term w = Some (clear_echo_icanon t)
        /\ Z.land (c_lflag (clear_echo_icanon t)) ECHO = 0
        /\ Z.land (c_lflag (clear_echo_icanon t)) ICANON = 0
        /\ Z.lor (c_lflag (clear_echo_icanon t))
             (Z.land (c_lflag t) (Z.lor ECHO ICANON)) = c_lflag t)
  /\ (forall w,
        stdin_term (reset_termio (reset_termio w))
        = stdin_term (reset_termio w)
        /\ (stdin_term w = None -> stdin_term (reset_termio w) = None)).
Proof.
  intros Hfit. split; [|split].
  - pose proof (run_cases argv select_results term) as Hcase.
    unfold messages_fit in Hfit. unfold parse_arguments in Hcase, Hfit.
    pose proof (parse_getopt_stderr (Libc.getopt_all argv OPTSTRING)
                  (initial_world term)) as Hw.
    destruct (parse_getopt (Libc.getopt_all argv OPTSTRING)
                (initial_world term)) as [[s|] w'];
      cbn [snd] in Hw;
      destruct (wrote_only_stderr_frame _ _ Hw)
        as (Ht & _ & _ & _ & _ & Hres & _); cbn in Ht, Hres.
    + destruct (has_opt s OPT_HELP).
      { eexists. split; [exact Hcase|]. cbn. auto. }
      destruct (countdown s <? 0).
      { eexists. split; [exact Hcase|]. cbn. auto. }
      destruct Hcase as [HN Hrun].
      destruct (run_loop_outcome s select_results term w' Hw HN Hfit)
        as (o & Ho & Hend & Hterm & Hrs & _).
      exists o. split; [congruence|]. split; [exact Hterm|].
      rewrite Hrs. destruct (loop_end o); [now destruct term | congruence].
    + eexists. split; [exact Hcase|]. cbn. auto.
  - intros t ->. cbn zeta.
    destruct (init_termio_effect (initial_world (Some t)))
      as (_ & _ & _ & _ & I1 & I2 & I3). cbn in I1, I2, I3.
    destruct (clear_echo_icanon_flags t) as (F1 & F2 & _ & _ & _ & F3).
    repeat split; assumption.
  - intros w. destruct (reset_termio_idempotent w) as (H1 & _ & H3). auto.
Qed.

(** * Further properties of the program *)

(** ** The settings [parse_arguments] builds *)

(** One round of the option loop on a result that is no error: what it does
    to each field of the settings. *)
Lemma parse_options_round (r : Libc.getopt_ret) (rest : list Libc.getopt_ret)
    (s : Settings) (w : world) :
  bad_option r = false ->
  exists s',
    parse_options (r :: rest) s w = parse_options rest s' (getopt_report r w)
    /\ countdown s' = countdown s
    /\ has_opt s' OPT_SILENT
       = has_opt s OPT_SILENT || (Libc.opt r =? "s")%char
    /\ has_opt s' OPT_HELP = has_opt s OPT_HELP || (Libc.opt r =? "h")%char
    /\ has_opt s' OPT_SUPPRESS_EXIT_INFO
       = has_opt s OPT_SUPPRESS_EXIT_INFO || (Libc.opt r =? "z")%char
    /\ (0 <= exitcode s <= 255 -> 0 <= exitcode s' <= 255)
    /\ ((String.length (template s) <= 255)%nat ->
        (String.length (template s') <= 255)%nat)
    /\ (Libc.opt r = "m"%char -> template s' = Libc.optarg r)
    /\ (Libc.opt r <> "m"%char -> template s' = template s).
Proof.
  unfold bad_option, bad_exit_code. intros H. cbn [parse_options].
  apply orb_false_iff in H. destruct H as [H Hm].
  apply orb_false_iff in H. destruct H as [Hq He].
  destruct (Ascii.eqb_spec (Libc.opt r) "s") as [E|Hs].
  { eexists; split; [reflexivity|]. rewrite E. flags.
    repeat split; intros; try reflexivity; try congruence; auto; try lia. }
  destruct (Ascii.eqb_spec (Libc.opt r) "z") as [E|Hz].
  { eexists; split; [reflexivity|]. rewrite E. flags.
    repeat split; intros; try reflexivity; try congruence; auto; try lia. }
  destruct (Ascii.eqb_spec (Libc.opt r) "f") as [E|Hf].
  { eexists; split; [reflexivity|]. rewrite E. flags.
    repeat split; intros; try reflexivity; try congruence; auto; try lia. }
  destruct (Ascii.eqb_spec (Libc.opt r) "m") as [E|Hm'].
  { cbn [andb] in Hm.
    apply Nat.ltb_ge in Hm. unfold Libc.strnlen.
    replace (256 <=? Nat.min (String.length (Libc.optarg r)) 256)%nat
      with false by (symmetry; apply Nat.leb_gt; lia).
    eexists; split; [reflexivity|]. rewrite E. flags. cbn [template].
    repeat split; intros; try reflexivity; try congruence; auto; try lia. }
  destruct (Ascii.eqb_spec (Libc.opt r) "e") as [E|He'].
  { cbn [andb] in He.
    destruct (Libc.sscanf_i int_conv (Libc.optarg r)) as [val|];
      [|discriminate].
    rewrite Z.gtb_ltb, He. eexists; split; [reflexivity|]. rewrite E. flags.
    apply orb_false_iff in He. destruct He as [H0 H255].
    apply Z.ltb_ge in H0, H255.
    repeat split; intros; try reflexivity; try congruence; auto; try lia. }
  destruct (Ascii.eqb_spec (Libc.opt r) "h") as [E|Hh].
  { eexists; split; [reflexivity|]. rewrite E. flags.
    repeat split; intros; try reflexivity; try congruence; auto; try lia. }
  destruct (Ascii.eqb_spec (Libc.opt r) "?"); [discriminate|].
  eexists; split; [reflexivity|]. flags.
  repeat split; intros; try reflexivity; try congruence; auto; try lia.
Qed.

(** The option loop as a whole, on success: which bits it sets, and what it
    keeps of a well-formed record. *)
Lemma parse_options_fields (rets : list Libc.getopt_ret) :
  forall (s s' : Settings) (w w' : world),
    parse_options rets s w = (Some s', w') ->
    has_opt s' OPT_SUPPRESS_EXIT_INFO
    = has_opt s OPT_SUPPRESS_EXIT_INFO || given "z" rets
    /\ (0 <= exitcode s <= 255 -> 0 <= exitcode s' <= 255)
    /\ ((String.length (template s) <= 255)%nat ->
        (String.length (template s') <= 255)%nat)
    /\ (given "m" rets = false -> template s' = template s).
Proof.
  induction rets as [|r rest IH]; intros s s' w w' H.
  - cbn in H. inversion H; subst. cbn. rewrite orb_false_r. auto.
  - destruct (bad_option r) eqn:Hr.
    + pose proof (parse_options_bad_head r rest s w Hr) as Hf.
      rewrite H in Hf. discriminate.
    + destruct (parse_options_round r rest s w Hr)
        as (s1 & E & _ & _ & _ & Hz & Hc & Ht & _ & Hkeep).
      rewrite E in H. destruct (IH _ _ _ _ H) as (Hz' & Hc' & Ht' & Hm').
      unfold given in *. cbn [existsb]. rewrite Hz', Hz, orb_assoc.
      split; [reflexivity|]. split; [auto|]. split; [auto|].
      intros Hm. apply orb_false_iff in Hm. destruct Hm as [Hm Hrest].
      apply Ascii.eqb_neq in Hm. rewrite (Hm' Hrest). auto.
Qed.

(** An option that is given has a last occurrence. *)
Lemma given_last (c : ascii) (l : list Libc.getopt_ret) :
  given c l = true ->
  exists pre r post,
    l = (pre ++ r :: post)%list /\ Libc.opt r = c /\ given c post = false.
Proof.
  unfold given. induction l as [|x l IH]; cbn [existsb]; [discriminate|].
  intros H.
  destruct (existsb (fun r => (Libc.opt r =? c)%char) l) eqn:Hl.
  - destruct (IH eq_refl) as (pre & r & post & -> & E & Hp).
    exists (x :: pre), r, post. auto.
  - rewrite orb_false_r in H. apply Ascii.eqb_eq in H.
    exists [], x, l. auto.
Qed.

(** The last [-m] gives the template. *)
Lemma parse_options_last_template (pre post : list Libc.getopt_ret)
    (r : Libc.getopt_ret) (s s1 : Settings) (w w1 : world) :
  parse_options (pre ++ r :: post) s w = (Some s1, w1) ->
  Libc.opt r = "m"%char ->
  given "m" post = false ->
  template s1 = Libc.optarg r.
Proof.
  intros H Em Hpost. rewrite parse_options_app in H.
  destruct (parse_options pre s w) as [[s0|] w0]; [|discriminate].
  destruct (bad_option r) eqn:Hr.
  { pose proof (parse_options_bad_head r post s0 w0 Hr) as Hx.
    rewrite H in Hx. discriminate. }
  destruct (parse_options_round r post s0 w0 Hr)
    as (s' & E & _ & _ & _ & _ & _ & _ & Hm & _).
  rewrite E in H.
  destruct (parse_options_fields _ _ _ _ _ H) as (_ & _ & _ & Hkeep).
  rewrite (Hkeep Hpost). auto.
Qed.

(** What the option loop guarantees is what [parse_arguments] returns. *)
Lemma parse_arguments_settings (argv : list string) (w w' : world)
    (s : Settings) :
  parse_arguments argv w = (Some s, w') ->
  0 <= exitcode s <= 255 /\ (String.length (template s) <= 255)%nat.
Proof.
  unfold parse_arguments. intros H.
  destruct (parse_getopt_success _ _ _ _ H)
    as (_ & _ & _ & _ & s1 & w1 & Ho & _ & Ee).
  destruct (parse_options_fields _ _ _ _ _ Ho) as (_ & Hc & Ht & _).
  unfold parse_getopt in H. rewrite Ho in H.
  destruct (parse_operands_success _ _ _ _ _ H) as (_ & _ & Et & _).
  rewrite Ee, Et. cbn in Hc, Ht.
  split; [apply Hc; lia | apply Ht; lia].
Qed.

(** X1: the settings a successful [parse_arguments] hands to [main] are well
    formed: the exit code is between 0 and 255, the template has at most 255
    bytes (it fits [template[256]] with its terminator), and the countdown
    is -1 (none given) or not negative. *)
Theorem parsed_settings_well_formed (argv : list string) (w w' : world)
    (s : Settings) :
  parse_arguments argv w = (Some s, w') ->
  0 <= exitcode s <= 255
  /\ (String.length (template s) <= 255)%nat
  /\ (countdown s = -1 \/ 0 <= countdown s).
Proof.
  intros H. destruct (parse_arguments_settings _ _ _ _ H) as [He Ht].
  split; [exact He|]. split; [exact Ht|].
  unfold parse_arguments in H.
  destruct (parse_getopt_success _ _ _ _ H) as (_ & _ & _ & Hn & _).
  destruct (snd (Libc.getopt_all argv OPTSTRING)); [left | right]; tauto.
Qed.

(** X2: after a successful [parse_arguments] the silent, help and
    suppress-summary bits are set exactly when [-s], [-h] and [-z] are among
    the options, however often and in whatever order; the fail bit is only
    ever set by [-f]. *)
Theorem option_bits_as_given (argv : list string) (w w' : world)
    (s : Settings) :
  parse_arguments argv w = (Some s, w') ->
  has_opt s OPT_SILENT = given "s" (fst (Libc.getopt_all argv OPTSTRING))
  /\ has_opt s OPT_HELP = given "h" (fst (Libc.getopt_all argv OPTSTRING))
  /\ has_opt s OPT_SUPPRESS_EXIT_INFO
     = given "z" (fst (Libc.getopt_all argv OPTSTRING))
  /\ (has_opt s OPT_FAIL_NO_USER_INTERACTION = true ->
      given "f" (fst (Libc.getopt_all argv OPTSTRING)) = true).
Proof.
  unfold parse_arguments. intros H.
  destruct (parse_getopt_success _ _ _ _ H)
    as (_ & Hs & Hh & _ & s1 & w1 & Ho & Eo & Ee).
  destruct (parse_options_fields _ _ _ _ _ Ho) as (Hz & _).
  split; [exact Hs|]. split; [exact Hh|].
  split; [unfold has_opt in *; rewrite Eo; exact Hz|].
  intros Hf.
  destruct (given "f" (fst (Libc.getopt_all argv OPTSTRING))) eqn:Hgf;
    [reflexivity|].
  destruct (given "e" (fst (Libc.getopt_all argv OPTSTRING))) eqn:Hge.
  - destruct (given_last _ _ Hge) as (pre & r0 & post & Hsplit & E0 & Hpe).
    rewrite Hsplit in Ho, Hgf.
    assert (Hpf : given "f" post = false).
    { unfold given in *. rewrite existsb_app in Hgf. cbn [existsb] in Hgf.
      apply orb_false_iff in Hgf. destruct Hgf as [_ Hgf].
      apply orb_false_iff in Hgf. tauto. }
    destruct (parse_options_last_exit _ _ _ _ _ _ _ Ho Hpe) as [_ Hl].
    destruct (Hl E0 Hpf) as [Hbit _].
    unfold has_opt in *. rewrite Eo in Hf. congruence.
  - destruct (parse_options_keeps_exit _ _ _ _ _ Hge Hgf Ho) as [Hbit _].
    unfold has_opt in *. rewrite Eo in Hf. rewrite Hbit in Hf.
    cbn in Hf. discriminate.
Qed.

(** X3: the template is the argument of the last [-m], and the default one
    when there is no [-m]. *)
Theorem template_of_last_m (argv : list string) (w w' : world) (s : Settings) :
  parse_arguments argv w = (Some s, w') ->
  (given "m" (fst (Libc.getopt_all argv OPTSTRING)) = false ->
   template s = DEFAULT_MSG_TEMPLATE)
  /\ (forall pre r post,
        fst (Libc.getopt_all argv OPTSTRING) = (pre ++ r :: post)%list ->
        Libc.opt r = "m"%char ->
        given "m" post = false ->
        template s = Libc.optarg r).
Proof.
  unfold parse_arguments. intros H.
  destruct (parse_getopt_success _ _ _ _ H) as (_ & _ & _ & _ & s1 & w1 & Ho & _).
  unfold parse_getopt in H. rewrite Ho in H.
  destruct (parse_operands_success _ _ _ _ _ H) as (_ & _ & Et & _).
  rewrite Et. split.
  - intros Hm.
    destruct (parse_options_fields _ _ _ _ _ Ho) as (_ & _ & _ & Hkeep).
    exact (Hkeep Hm).
  - intros pre r post Hsplit Em Hpost. rewrite Hsplit in Ho.
    exact (parse_options_last_template _ _ _ _ _ _ _ Ho Em Hpost).
Qed.

(** X4: the countdown is the number [sscanf] reads from the first word that
    is not an option, which is not negative; further such words are
    ignored, and without one the countdown stays -1. *)
Theorem countdown_of_first_operand (argv : list string) (w w' : world)
    (s : Settings) :
  parse_arguments argv w = (Some s, w') ->
  match snd (Libc.getopt_all argv OPTSTRING) with
  | first :: _ =>
      Libc.sscanf_i int_conv first = Some (countdown s) /\ 0 <= countdown s
  | [] => countdown s = -1
  end.
Proof.
  unfold parse_arguments. intros H.
  destruct (parse_getopt_success _ _ _ _ H)
    as (_ & _ & _ & Hn & s1 & w1 & Ho & _).
  unfold parse_getopt in H. rewrite Ho in H.
  destruct (snd (Libc.getopt_all argv OPTSTRING)) as [|first rest];
    [exact Hn|].
  split; [|tauto]. cbn [parse_operands] in H.
  destruct (Libc.sscanf_i int_conv first) as [val|]; [|discriminate].
  destruct (val <? 0); [discriminate|]. inversion H; subst. reflexivity.
Qed.

(** ** What is written before the countdown *)

Lemma scan_cluster_quiet (self : string) (cs : list ascii)
    (next : option string) :
  reports_only_errors
    (fst (Libc.scan_cluster self (list_ascii_of_string OPTSTRING) cs next)).
Proof.
  induction cs as [|c cs IH]; [intros r []|].
  cbn [Libc.scan_cluster].
  destruct (Libc.takes_arg (list_ascii_of_string OPTSTRING) c)
    as [[|]|] eqn:Hc.
  - destruct cs as [|c' cs'], next as [a|]; cbn [fst];
      intros r [<-|[]]; cbn; congruence.
  - destruct (Libc.scan_cluster self (list_ascii_of_string OPTSTRING) cs next)
      as [rets used]. cbn [fst] in *.
    intros r [<-|Hin]; [reflexivity | now apply IH].
  - destruct (Libc.scan_cluster self (list_ascii_of_string OPTSTRING) cs next)
      as [rets used]. cbn [fst] in *.
    intros r [<-|Hin]; [cbn; congruence | now apply IH].
Qed.

Lemma getopt_scan_quiet (self : string) (args : list string) :
  forall skip,
    reports_only_errors
      (fst (Libc.getopt_scan self (list_ascii_of_string OPTSTRING) skip args)).
Proof.
  induction args as [|a rest IH]; intros skip; [intros r []|].
  cbn [Libc.getopt_scan]. destruct skip; [apply IH|].
  destruct (a =? "--")%string; [intros r []|].
  destruct (list_ascii_of_string a) as [|c0 [|c cs]].
  - specialize (IH false).
    destruct (Libc.getopt_scan self _ false rest) as [rets ops]. exact IH.
  - specialize (IH false).
    destruct (Libc.getopt_scan self _ false rest) as [rets ops].
    destruct c0 as [[] [] [] [] [] [] [] []]; exact IH.
  - pose proof (scan_cluster_quiet self (c :: cs) (hd_error rest)) as Hcl.
    destruct (Libc.scan_cluster self _ (c :: cs) (hd_error rest))
      as [rets used].
    pose proof (IH used) as IHu. pose proof (IH false) as IHf.
    destruct (Libc.getopt_scan self _ used rest) as [rets' ops'].
    destruct (Libc.getopt_scan self _ false rest) as [rets'' ops''].
    cbn [fst] in *.
    destruct c0 as [[] [] [] [] [] [] [] []]; try exact IHf.
    intros r Hin. apply in_app_or in Hin. destruct Hin; auto.
Qed.

Lemma getopt_all_quiet (argv : list string) :
  reports_only_errors (fst (Libc.getopt_all argv OPTSTRING)).
Proof. apply getopt_scan_quiet. Qed.

Lemma getopt_report_quiet (r : Libc.getopt_ret) (w : world) :
  Libc.diag r = "" -> getopt_report r w = w.
Proof. unfold getopt_report. intros ->. reflexivity. Qed.

(** The option loop writes nothing when it succeeds, and one message when it
    gives up. *)
Lemma parse_options_output (rets : list Libc.getopt_ret) :
  forall (s : Settings) (w : world),
    reports_errors rets -> reports_only_errors rets ->
    match parse_options rets s w with
    | (Some _, w') => w' = w
    | (None, w') => exists text, text <> "" /\ w' = fputs text Stderr w
    end.
Proof.
  induction rets as [|r rest IH]; intros s w He Hq; [reflexivity|].
  assert (He' : reports_errors rest) by (intros x Hx; apply He; now right).
  assert (Hq' : reports_only_errors rest) by (intros x Hx; apply Hq; now right).
  pose proof (He r (or_introl eq_refl)) as Her.
  pose proof (Hq r (or_introl eq_refl)) as Hqr.
  cbn [parse_options].
  destruct (Ascii.eqb_spec (Libc.opt r) "s") as [E|Ns].
  { rewrite getopt_report_quiet by (apply Hqr; rewrite E; discriminate).
    apply IH; assumption. }
  destruct (Ascii.eqb_spec (Libc.opt r) "z") as [E|Nz].
  { rewrite getopt_report_quiet by (apply Hqr; rewrite E; discriminate).
    apply IH; assumption. }
  destruct (Ascii.eqb_spec (Libc.opt r) "f") as [E|Nf].
  { rewrite getopt_report_quiet by (apply Hqr; rewrite E; discriminate).
    apply IH; assumption. }
  destruct (Ascii.eqb_spec (Libc.opt r) "m") as [E|Nm].
  { rewrite getopt_report_quiet by (apply Hqr; rewrite E; discriminate).
    destruct (256 <=? Libc.strnlen (Libc.optarg r) 256)%nat.
    - eexists; split; [|reflexivity]. discriminate.
    - apply IH; assumption. }
  destruct (Ascii.eqb_spec (Libc.opt r) "e") as [E|Ne].
  { rewrite getopt_report_quiet by (apply Hqr; rewrite E; discriminate).
    destruct (Libc.sscanf_i int_conv (Libc.optarg r)) as [val|].
    - destruct ((val <? 0) || (val >? 255)).
      + eexists; split; [|reflexivity]. discriminate.
      + apply IH; assumption.
    - eexists; split; [|reflexivity]. discriminate. }
  destruct (Ascii.eqb_spec (Libc.opt r) "h") as [E|Nh].
  { rewrite getopt_report_quiet by (apply Hqr; rewrite E; discriminate).
    apply IH; assumption. }
  destruct (Ascii.eqb_spec (Libc.opt r) "?") as [E|Nq].
  { exists (Libc.diag r). split; [exact (Her E)|]. unfold getopt_report.
    destruct (String.eqb_spec (Libc.diag r) "") as [Ed|Nd];
      [exfalso; exact (Her E Ed) | reflexivity]. }
  rewrite getopt_report_quiet by (apply Hqr; assumption).
  apply IH; assumption.
Qed.

Lemma parse_arguments_output (argv : list string) (w : world) :
  match parse_arguments argv w with
  | (Some _, w') => w' = w
  | (None, w') => exists text, text <> "" /\ w' = fputs text Stderr w
  end.
Proof.
  unfold parse_arguments, parse_getopt.
  pose proof (parse_options_output (fst (Libc.getopt_all argv OPTSTRING))
                initial_settings w (getopt_all_reports argv)
                (getopt_all_quiet argv)) as Ho.
  destruct (parse_options _ initial_settings w) as [[s1|] w1]; [|exact Ho].
  subst w1. unfold parse_operands.
  destruct (snd (Libc.getopt_all argv OPTSTRING)) as [|first rest];
    [reflexivity|].
  destruct (Libc.sscanf_i int_conv first) as [val|].
  - destruct (val <? 0); [|reflexivity].
    eexists; split; [|reflexivity]. discriminate.
  - eexists; split; [|reflexivity]. discriminate.
Qed.

(** X5: a run that ends before the countdown either printed the usage text
    and nothing else, with status 0 (and [-h] was given), or wrote exactly
    one message, to standard error, with status 1.  It polled nothing and
    left the terminal and the exit handlers untouched. *)
Theorem early_exit_output (argv : list string) (select_results : nat -> Z)
    (term : option termios) (o : outcome) :
  run argv select_results term = Some o ->
  loop_end o = None ->
  ((status o = 0
    /\ given "h" (fst (Libc.getopt_all argv OPTSTRING)) = true
    /\ output (final o) = [Usage (hd "" argv)])
   \/ (status o = 1
       /\ exists text,
            text <> "" /\ output (final o) = [Fputs Stderr text]))
  /\ polls (final o) = 0%nat
  /\ stdin_term (final o) = term
  /\ restores (final o) = 0%nat
  /\ stdout_unbuffered (final o) = false.
Proof.
  intros Hrun Hend.
  pose proof (run_cases argv select_results term) as Hc.
  pose proof (parse_arguments_output argv (initial_world term)) as Hw.
  destruct (parse_arguments argv (initial_world term)) as [[s|] w'] eqn:Hp.
  - subst w'.
    destruct (parse_getopt_success _ _ _ _ Hp) as (_ & _ & Hh & _).
    destruct (has_opt s OPT_HELP) eqn:Hhelp.
    + rewrite Hrun in Hc. inversion Hc; subst o. cbn.
      split; [left; auto | auto].
    + destruct (countdown s <? 0).
      * rewrite Hrun in Hc. inversion Hc; subst o. cbn.
        split; [right; split; [reflexivity|] | auto].
        eexists; split; [|reflexivity]. discriminate.
      * destruct Hc as [_ Hc]. rewrite Hrun in Hc.
        destruct (main_loop s select_results _) as [o'|] eqn:Hl;
          [|discriminate].
        inversion Hc; subst o. cbn in Hend.
        unfold main_loop in Hl.
        destruct (countdown_loop _ _ _ _ _) as [[[r sl] wl]|];
          [|discriminate].
        inversion Hl; subst o'. discriminate.
  - destruct Hw as (text & Ht & ->).
    rewrite Hrun in Hc. inversion Hc; subst o. cbn.
    split; [right; split; [reflexivity|]; exists text; auto | auto].
Qed.

(** ** Accepted command lines *)

Lemma parse_options_good (rets : list Libc.getopt_ret) :
  forall (s : Settings) (w : world),
    existsb bad_option rets = false ->
    exists s', fst (parse_options rets s w) = Some s'.
Proof.
  induction rets as [|r rest IH]; intros s w H; [now exists s|].
  cbn [existsb] in H. apply orb_false_iff in H. destruct H as [Hr Hrest].
  destruct (parse_options_round r rest s w Hr) as (s1 & E & _).
  rewrite E. apply IH. exact Hrest.
Qed.

(** With no bad option and no bad countdown [parse_arguments] succeeds. *)
Lemma parse_arguments_good (argv : list string) (w : world) :
  existsb bad_option (fst (Libc.getopt_all argv OPTSTRING)) = false ->
  match snd (Libc.getopt_all argv OPTSTRING) with
  | first :: _ => bad_countdown first = false
  | [] => True
  end ->
  exists s, parse_arguments argv w = (Some s, w).
Proof.
  intros Ho Hn.
  pose proof (parse_arguments_output argv w) as Hw.
  unfold parse_arguments, parse_getopt in *.
  destruct (parse_options_good _ initial_settings w Ho) as (s1 & E1).
  destruct (parse_options _ initial_settings w) as [o1 w1].
  cbn [fst] in E1. subst o1.
  destruct (snd (Libc.getopt_all argv OPTSTRING)) as [|first rest].
  - cbn [parse_operands] in *. subst w1. now exists s1.
  - unfold bad_countdown in Hn. cbn [parse_operands] in *.
    destruct (Libc.sscanf_i int_conv first) as [val|]; [|discriminate].
    rewrite Hn in *. subst w1. eexists; reflexivity.
Qed.

(** X7: whatever the command line, the input and the terminal, the status
    of a run is between 0 and 255: it is a value [exit] passes on
    unchanged. *)
Theorem exit_status_range (argv : list string) (select_results : nat -> Z)
    (term : option termios) (o : outcome) :
  run argv select_results term = Some o ->
  0 <= status o <= 255.
Proof.
  intros Hrun.
  pose proof (run_cases argv select_results term) as Hc.
  destruct (parse_arguments argv (initial_world term)) as [[s|] w'] eqn:Hp.
  - destruct (parse_arguments_settings _ _ _ _ Hp) as (He & _).
    destruct (has_opt s OPT_HELP).
    + rewrite Hrun in Hc. inversion Hc. cbn. lia.
    + destruct (countdown s <? 0).
      * rewrite Hrun in Hc. inversion Hc. cbn. lia.
      * destruct Hc as [Hn Hc]. rewrite Hrun in Hc.
        destruct (main_loop s select_results _) as [o'|] eqn:Hl;
          [|discriminate].
        destruct (main_loop_end _ _ _ _ Hl Hn) as (r & sl & _ & Es & _).
        inversion Hc. cbn. rewrite Es. unfold resolve_exitcode.
        destruct ((sl =? 0) && has_opt s OPT_FAIL_NO_USER_INTERACTION); lia.
  - rewrite Hrun in Hc. inversion Hc. cbn. lia.
Qed.

(** ** The countdown, tick by tick *)

Section Trace.

Variable settings : Settings.
Variable select_results : nat -> Z.

(** What one run of the loop body does to the world. *)
Lemma tick_trace (n : Z) (w : world) (st' : loop_state) (w' : world) :
  tick settings select_results (Running n) w = Some (st', w') ->
  stdin_term w' = stdin_term w /\ default_term w' = default_term w
  /\ exit_handlers w' = exit_handlers w /\ restores w' = restores w
  /\ stdout_unbuffered w' = stdout_unbuffered w
  /\ ((n <= 0 /\ st' = Done Timeout n /\ w' = w)
      \/ (0 < n /\ select_results (polls w) = 0 /\ st' = Running (n - 1)
          /\ polls w' = S (polls w) /\ drains w' = drains w
          /\ output w'
             = (output w
                ++ if has_opt settings OPT_SILENT then []
                   else [Fputs Stdout (render (template settings) n);
                         Fputs Stdout CLEAR_LINE])%list)
      \/ (0 < n /\ select_results (polls w) <> 0 /\ st' = Done Interrupted n
          /\ polls w' = S (polls w) /\ drains w' = S (drains w)
          /\ output w'
             = (output w
                ++ if has_opt settings OPT_SILENT then []
                   else [Fputs Stdout (render (template settings) n)])%list)).
Proof.
  clear int_conv.
  unfold tick. destruct (n >? 0) eqn:Hn.
  2:{ intros H. inversion H; subst.
      repeat (split; [reflexivity|]). left.
      rewrite Z.gtb_ltb in Hn. apply Z.ltb_ge in Hn. auto. }
  rewrite Z.gtb_ltb in Hn. apply Z.ltb_lt in Hn.
  rewrite prepare_message_render.
  unfold wait_for_one_second_or_input, fputs, emit, set_output.
  destruct (has_opt settings OPT_SILENT); cbn [negb].
  - destruct (select_results (polls w) =? 0) eqn:Hs; cbn [negb].
    + rewrite Z.eqb_refl. cbn [negb]. intros H. inversion H; subst. cbn.
      repeat (split; [reflexivity|]). right; left.
      apply Z.eqb_eq in Hs. rewrite app_nil_r. auto 10.
    + rewrite Hs. cbn [negb]. intros H. inversion H; subst. cbn.
      repeat (split; [reflexivity|]). right; right.
      apply Z.eqb_neq in Hs. rewrite app_nil_r. auto 10.
  - destruct (String.length (render (template settings) n) <? MSG_SIZE)%nat;
      [|discriminate].
    cbn [polls output stdin_term default_term exit_handlers drains restores
         stdout_unbuffered].
    destruct (select_results (polls w) =? 0) eqn:Hs; cbn [negb].
    + rewrite Z.eqb_refl. cbn [negb]. intros H. inversion H; subst. cbn.
      repeat (split; [reflexivity|]). right; left.
      apply Z.eqb_eq in Hs. rewrite <- app_assoc. auto 10.
    + rewrite Hs. cbn [negb]. intros H. inversion H; subst. cbn.
      repeat (split; [reflexivity|]). right; right.
      apply Z.eqb_neq in Hs. auto 10.
Qed.

(** The whole loop: how often it polls and reads, and what it writes. *)
Lemma countdown_loop_trace (fuel : nat) :
  forall (n : Z) (w : world) (r : exit_reason) (sl : Z) (w' : world),
    countdown_loop fuel settings select_results (Running n) w
    = Some (r, sl, w') ->
    0 <= n ->
    0 <= sl <= n
    /\ polls w' = (polls w + Z.to_nat (n - sl) + interrupts r)%nat
    /\ drains w' = (drains w + interrupts r)%nat
    /\ output w'
       = (output w
          ++ if has_opt settings OPT_SILENT then []
             else (countdown_output (Z.to_nat (n - sl)) n (template settings)
                   ++ interrupted_output r sl (template settings)))%list
    /\ (forall i, (i < Z.to_nat (n - sl))%nat ->
                  select_results (polls w + i)%nat = 0)
    /\ match r with
       | Timeout => sl = 0
       | Interrupted =>
           0 < sl /\ select_results (polls w + Z.to_nat (n - sl))%nat <> 0
       end.
Proof.
  clear int_conv.
  induction fuel as [|fuel IH]; intros n w r sl w' H Hn; [discriminate|].
  cbn [countdown_loop] in H.
  destruct (tick settings select_results (Running n) w) as [[st1 w1]|] eqn:Ht;
    [|discriminate].
  destruct (tick_trace _ _ _ _ Ht)
    as (_ & _ & _ & _ & _ &
        [(Hle & -> & ->) | [(Hlt & Hs & -> & Hp & Hd & Ho)
                           | (Hlt & Hs & -> & Hp & Hd & Ho)]]).
  - inversion H; subst. assert (sl = 0) by lia. subst sl.
    replace (Z.to_nat (0 - 0)) with 0%nat by reflexivity.
    cbn [interrupts countdown_output interrupted_output app].
    rewrite !Nat.add_0_r.
    destruct (has_opt settings OPT_SILENT); rewrite app_nil_r.
    all: repeat split; try lia; intros i Hi; lia.
  - destruct (IH _ _ _ _ _ H ltac:(lia)) as (Hr & Hp' & Hd' & Ho' & Hz & Hend).
    assert (En : Z.to_nat (n - sl) = S (Z.to_nat (n - 1 - sl))) by lia.
    split; [lia|]. split; [lia|]. split; [lia|].
    split.
    { rewrite Ho', Ho, En. cbn [countdown_output].
      destruct (has_opt settings OPT_SILENT);
        [now rewrite !app_nil_r | now rewrite <- app_assoc]. }
    split.
    { intros i Hi. destruct i as [|i].
      - now rewrite Nat.add_0_r.
      - specialize (Hz i ltac:(lia)). rewrite Hp in Hz.
        replace (polls w + S i)%nat with (S (polls w) + i)%nat by lia.
        exact Hz. }
    destruct r; [exact Hend|]. destruct Hend as [Hsl Hne]. split; [exact Hsl|].
    rewrite Hp in Hne. rewrite En.
    replace (polls w + S (Z.to_nat (n - 1 - sl)))%nat
      with (S (polls w) + Z.to_nat (n - 1 - sl))%nat by lia.
    exact Hne.
  - inversion H; subst.
    replace (Z.to_nat (sl - sl)) with 0%nat by lia.
    cbn [interrupts countdown_output interrupted_output app].
    rewrite !Nat.add_0_r.
    repeat split; try lia; try assumption.
Qed.

End Trace.

(** [main] from the loop on: polls, reads and writes. *)
Lemma main_loop_trace (settings : Settings) (select_results : nat -> Z)
    (w : world) (o : outcome) :
  main_loop settings select_results w = Some o ->
  0 <= countdown settings ->
  exists r sl,
    loop_end o = Some (r, sl)
    /\ status o = resolve_exitcode settings sl
    /\ 0 <= sl <= countdown settings
    /\ polls (final o)
       = (polls w + Z.to_nat (countdown settings - sl) + interrupts r)%nat
    /\ drains (final o) = (drains w + interrupts r)%nat
    /\ output (final o)
       = (output w
          ++ if has_opt settings OPT_SILENT then []
             else (countdown_output (Z.to_nat (countdown settings - sl))
                     (countdown settings) (template settings)
                   ++ interrupted_output r sl (template settings)
                   ++ [Fputs Stdout
                         (if has_opt settings OPT_SUPPRESS_EXIT_INFO
                          then CLEAR_LINE ++ String LF ""
                          else exit_summary (status o)
                                 (countdown settings - sl))]))%list
    /\ (forall i, (i < Z.to_nat (countdown settings - sl))%nat ->
                  select_results (polls w + i)%nat = 0)
    /\ match r with
       | Timeout => sl = 0
       | Interrupted =>
           0 < sl
           /\ select_results
                (polls w + Z.to_nat (countdown settings - sl))%nat <> 0
       end.
Proof.
  clear int_conv.
  unfold main_loop. intros H Hn.
  destruct (countdown_loop _ settings select_results _ w)
    as [[[r sl] w1]|] eqn:Hl; [|discriminate].
  destruct (countdown_loop_trace _ _ _ _ _ _ _ _ Hl Hn)
    as (Hr & Hp & Hd & Ho & Hz & Hend).
  exists r, sl. inversion H; subst o; clear H. cbn [status loop_end final].
  split; [reflexivity|]. split; [reflexivity|]. split; [exact Hr|].
  unfold fputs, emit, set_output.
  destruct (has_opt settings OPT_SILENT); cbn [negb].
  - auto 10.
  - destruct (has_opt settings OPT_SUPPRESS_EXIT_INFO);
      cbn [polls drains output]; rewrite Ho, <- !app_assoc; auto 10.
Qed.

(** A run that reaches the countdown: the command line was accepted without
    a word being written, and [main] went through the loop. *)
Lemma run_reaches_loop (argv : list string) (select_results : nat -> Z)
    (term : option termios) (o : outcome) (r : exit_reason) (sl : Z) :
  run argv select_results term = Some o ->
  loop_end o = Some (r, sl) ->
  exists s o',
    parse_arguments argv (initial_world term) = (Some s, initial_world term)
    /\ has_opt s OPT_HELP = false
    /\ 0 <= countdown s
    /\ main_loop s select_results (init_termio (initial_world term)) = Some o'
    /\ status o = status o' /\ loop_end o = loop_end o'
    /\ final o = run_exit_handlers (final o').
Proof.
  intros Hrun Hend.
  pose proof (run_cases argv select_results term) as Hc.
  pose proof (parse_arguments_output argv (initial_world term)) as Hw.
  destruct (parse_arguments argv (initial_world term)) as [[s|] w'].
  - subst w'. exists s. destruct (has_opt s OPT_HELP).
    + rewrite Hrun in Hc. inversion Hc; subst o. discriminate.
    + destruct (countdown s <? 0).
      * rewrite Hrun in Hc. inversion Hc; subst o. discriminate.
      * destruct Hc as [Hn Hc]. rewrite Hrun in Hc.
        destruct (main_loop s select_results _) as [o'|]; [|discriminate].
        exists o'. inversion Hc; subst o. cbn. auto 10.
  - rewrite Hrun in Hc. inversion Hc; subst o. discriminate.
Qed.

Lemma run_exit_handlers_effect (w : world) :
  output (run_exit_handlers w) = output w
  /\ polls (run_exit_handlers w) = polls w
  /\ drains (run_exit_handlers w) = drains w.
Proof.
  unfold run_exit_handlers.
  destruct (run_handlers_effect (exit_handlers w) w) as (Ho & Hp & Hd & _).
  auto.
Qed.

(** X8: everything a run that reaches the countdown writes, in order.  With
    [-s]: nothing at all.  Otherwise, for each second that passes, the
    message for the seconds left and then ["\r\033[K"]; when input arrives,
    the message then on display; and at last one line: ["\r\033[K\n"] with
    [-z], the exit summary without.  Nothing goes to standard error. *)
Theorem run_transcript (argv : list string) (select_results : nat -> Z)
    (term : option termios) (o : outcome) (r : exit_reason) (sl : Z)
    (s : Settings) (w' : world) :
  run argv select_results term = Some o ->
  loop_end o = Some (r, sl) ->
  parse_arguments argv (initial_world term) = (Some s, w') ->
  output (final o)
  = if has_opt s OPT_SILENT then []
    else (countdown_output (Z.to_nat (countdown s - sl)) (countdown s)
            (template s)
          ++ interrupted_output r sl (template s)
          ++ [Fputs Stdout
                (if has_opt s OPT_SUPPRESS_EXIT_INFO
                 then CLEAR_LINE ++ String LF ""
                 else exit_summary (status o) (countdown s - sl))])%list.
Proof.
  intros Hrun Hend Hp.
  destruct (run_reaches_loop _ _ _ _ _ _ Hrun Hend)
    as (s0 & o' & Hp0 & _ & Hn & Hl & Es & El & Ef).
  rewrite Hp in Hp0. inversion Hp0; subst s0 w'; clear Hp0.
  destruct (main_loop_trace _ _ _ _ Hl Hn)
    as (r' & sl' & El' & _ & _ & _ & _ & Ho & _).
  rewrite Hend, El' in El. inversion El; subst r' sl'; clear El.
  destruct (run_exit_handlers_effect (final o')) as (Eo & _).
  destruct (init_termio_effect (initial_world term)) as (Eio & _).
  rewrite Ef, Eo, Ho, Eio, Es. reflexivity.
Qed.

(** X9: a run that reaches the countdown calls [select] once for every
    second that passes, each of these calls timing out, and once more when
    it is ended by input, that call reporting input; it calls [read]
    exactly once in that case and never otherwise. *)
Theorem polls_and_reads (argv : list string) (select_results : nat -> Z)
    (term : option termios) (o : outcome) (r : exit_reason) (sl : Z)
    (s : Settings) (w' : world) :
  run argv select_results term = Some o ->
  loop_end o = Some (r, sl) ->
  parse_arguments argv (initial_world term) = (Some s, w') ->
  0 <= sl <= countdown s
  /\ polls (final o) = (Z.to_nat (countdown s - sl) + interrupts r)%nat
  /\ drains (final o) = interrupts r
  /\ (forall i, (i < Z.to_nat (countdown s - sl))%nat -> select_results i = 0)
  /\ match r with
     | Timeout => sl = 0
     | Interrupted =>
         0 < sl /\ select_results (Z.to_nat (countdown s - sl)) <> 0
     end.
Proof.
  intros Hrun Hend Hp.
  destruct (run_reaches_loop _ _ _ _ _ _ Hrun Hend)
    as (s0 & o' & Hp0 & _ & Hn & Hl & Es & El & Ef).
  rewrite Hp in Hp0. inversion Hp0; subst s0 w'; clear Hp0.
  destruct (main_loop_trace _ _ _ _ Hl Hn)
    as (r' & sl' & El' & _ & Hr & Hpo & Hd & _ & Hz & He).
  rewrite Hend, El' in El. inversion El; subst r' sl'; clear El.
  destruct (run_exit_handlers_effect (final o')) as (_ & Epo & Ed).
  destruct (init_termio_effect (initial_world term)) as (_ & Eip & Eid & _).
  rewrite Eip in Hpo, Hz, He. rewrite Eid in Hd. cbn [initial_world polls drains] in *.
  rewrite Ef, Epo, Ed, Hpo, Hd.
  repeat split; try lia; try exact Hz; exact He.
Qed.

(** ** The decimal text of a number *)

Lemma string_of_uint_length (d : Decimal.uint) :
  String.length (NilEmpty.string_of_uint d) = Decimal.nb_digits d.
Proof. induction d; cbn; congruence. Qed.

Lemma string_of_uint_no_linebreak (d : Decimal.uint) :
  forallb (fun c => negb (is_linebreak c))
    (list_ascii_of_string (NilEmpty.string_of_uint d)) = true.
Proof. induction d; cbn; auto. Qed.

(** [sprintf] with [%d] writes digits and a minus sign only. *)
Lemma sprintf_d_no_linebreak (n : Z) :
  forallb (fun c => negb (is_linebreak c)) (Libc.sprintf_d n) = true.
Proof.
  unfold Libc.sprintf_d.
  assert (H : forall d,
    forallb (fun c => negb (is_linebreak c))
      (list_ascii_of_string (NilZero.string_of_uint d)) = true).
  { intros d. unfold NilZero.string_of_uint.
    destruct d; try apply (string_of_uint_no_linebreak (_ _)). reflexivity. }
  destruct (Z.to_int n) as [d|d]; cbn [NilZero.string_of_int].
  - apply H.
  - cbn [list_ascii_of_string forallb]. rewrite H. reflexivity.
Qed.

Lemma of_uint_acc_bounds (d : Decimal.uint) :
  forall acc : positive,
    Z.pos acc * 10 ^ Z.of_nat (Decimal.nb_digits d)
    <= Z.pos (Pos.of_uint_acc d acc)
    < (Z.pos acc + 1) * 10 ^ Z.of_nat (Decimal.nb_digits d).
Proof.
  clear int_conv.
  induction d; intros acc; cbn [Pos.of_uint_acc Decimal.nb_digits];
    [cbn; lia | ..];
    rewrite Nat2Z.inj_succ, Z.pow_succ_r by lia;
    match goal with
    | |- context [Pos.of_uint_acc d ?a] => specialize (IHd a)
    end;
    pose proof (Z.pow_pos_nonneg 10 (Z.of_nat (Decimal.nb_digits d))
                  ltac:(lia) ltac:(lia));
    nia.
Qed.

(** The decimal text of a positive number has no leading zero: with [k]
    digits the number is at least [10 ^ (k - 1)], and below [10 ^ k]. *)
Lemma to_uint_bounds (p : positive) :
  10 ^ (Z.of_nat (Decimal.nb_digits (Pos.to_uint p)) - 1) <= Z.pos p
  < 10 ^ Z.of_nat (Decimal.nb_digits (Pos.to_uint p)).
Proof.
  clear int_conv.
  pose proof (DecimalPos.Unsigned.of_to p) as Hof.
  pose proof (DecimalPos.Unsigned.to_of (Pos.to_uint p)) as Hto.
  rewrite Hof in Hto. cbn [N.to_uint] in Hto.
  pose proof (DecimalPos.Unsigned.to_uint_nonzero p) as Hnz.
  pose proof (DecimalPos.Unsigned.to_uint_nonnil p) as Hnn.
  assert (Hhead : forall d', Pos.to_uint p <> Decimal.D0 d').
  { intros d' E. unfold Decimal.unorm in Hto.
    destruct (Decimal.nzhead (Pos.to_uint p)) eqn:Hh; try congruence.
    exact (DecimalFacts.nzhead_nonzero _ _ Hh). }
  destruct (Pos.to_uint p) as [|l|l|l|l|l|l|l|l|l|l] eqn:Ed;
    [congruence | exfalso; exact (Hhead l eq_refl) | ..];
    cbn [Pos.of_uint] in Hof; injection Hof as Hof;
    cbn [Decimal.nb_digits];
    rewrite Nat2Z.inj_succ;
    replace (Z.succ (Z.of_nat (Decimal.nb_digits l)) - 1)
      with (Z.of_nat (Decimal.nb_digits l)) by lia;
    rewrite Z.pow_succ_r by lia;
    match type of Hof with
    | Pos.of_uint_acc l ?a = p =>
        pose proof (of_uint_acc_bounds l a) as Hb; rewrite Hof in Hb
    end;
    pose proof (Z.pow_pos_nonneg 10 (Z.of_nat (Decimal.nb_digits l))
                  ltac:(lia) ltac:(lia));
    lia.
Qed.

Lemma sprintf_d_length (n : Z) :
  0 < n ->
  10 ^ (Z.of_nat (List.length (Libc.sprintf_d n)) - 1) <= n
  < 10 ^ Z.of_nat (List.length (Libc.sprintf_d n)).
Proof.
  intros Hn. destruct n as [|p|p]; try lia.
  unfold Libc.sprintf_d. cbn [Z.to_int NilZero.string_of_int].
  assert (E : List.length
                (list_ascii_of_string
                   (NilZero.string_of_uint (Pos.to_uint p)))
              = Decimal.nb_digits (Pos.to_uint p)).
  { unfold NilZero.string_of_uint.
    pose proof (DecimalPos.Unsigned.to_uint_nonnil p).
    rewrite list_length_of_string.
    destruct (Pos.to_uint p) eqn:Ed; try congruence;
      rewrite <- Ed; apply string_of_uint_length. }
  rewrite E. apply to_uint_bounds.
Qed.

(** Eight digits are enough below a hundred million; nine are needed from
    there on. *)
Lemma sprintf_d_short (n : Z) :
  0 < n < 100000000 -> (List.length (Libc.sprintf_d n) <= 8)%nat.
Proof.
  intros Hn. pose proof (sprintf_d_length n ltac:(lia)) as [Hlo _].
  destruct (le_lt_dec (List.length (Libc.sprintf_d n)) 8) as [|Hgt];
    [assumption|exfalso].
  assert (10 ^ 8 <= 10 ^ (Z.of_nat (List.length (Libc.sprintf_d n)) - 1))
    by (apply Z.pow_le_mono_r; lia).
  change (10 ^ 8) with 100000000 in *. lia.
Qed.

Lemma sprintf_d_long (n : Z) :
  100000000 <= n -> (9 <= List.length (Libc.sprintf_d n))%nat.
Proof.
  intros Hn. pose proof (sprintf_d_length n ltac:(lia)) as [_ Hhi].
  destruct (le_lt_dec 9 (List.length (Libc.sprintf_d n))) as [|Hlt];
    [assumption|exfalso].
  assert (10 ^ Z.of_nat (List.length (Libc.sprintf_d n)) <= 10 ^ 8)
    by (apply Z.pow_le_mono_r; lia).
  change (10 ^ 8) with 100000000 in *. lia.
Qed.

(** ** The message: its characters and its size *)

Lemma render_chars_no_linebreak (s : Z) (n : nat) :
  forall t : list ascii,
    (List.length t <= n)%nat ->
    forallb (fun c => negb (is_linebreak c)) (render_chars t s) = true.
Proof.
  induction n as [|n IH]; intros t Hn.
  - destruct t; [reflexivity | cbn in Hn; lia].
  - destruct t as [|c r]; [reflexivity|].
    cbn [List.length] in Hn. cbn [render_chars].
    pose proof (IH r ltac:(lia)) as Hr.
    destruct (is_linebreak c) eqn:Hc; [exact Hr|].
    destruct (c =? "%")%char.
    + destruct r as [|c' r']; [cbn; now rewrite Hc|].
      destruct (c' =? "S")%char.
      * rewrite forallb_app, sprintf_d_no_linebreak.
        apply (IH r'). cbn in Hn. lia.
      * cbn [forallb]. now rewrite Hc, Hr.
    + cbn [forallb]. now rewrite Hc, Hr.
Qed.

Lemma render_chars_length (s : Z) (n : nat) :
  forall t : list ascii,
    (List.length t <= n)%nat ->
    (List.length (render_chars t s) + 2 * placeholders t
     = List.length (strip_linebreaks t)
       + placeholders t * List.length (Libc.sprintf_d s))%nat.
Proof.
  clear int_conv.
  induction n as [|n IH]; intros t Hn.
  - destruct t; [reflexivity | cbn in Hn; lia].
  - destruct t as [|c r]; [reflexivity|].
    cbn [List.length] in Hn.
    pose proof (IH r ltac:(lia)) as Hr.
    cbn [render_chars placeholders strip_linebreaks filter].
    fold (strip_linebreaks r).
    destruct (Ascii.eqb_spec c "%") as [->|Hc].
    + change (is_linebreak "%") with false. cbn [negb andb].
      destruct r as [|c' r']; [reflexivity|].
      cbn [starts_with_S].
      destruct (Ascii.eqb_spec c' "S") as [->|Hc'].
      * pose proof (IH r' ltac:(cbn in Hn; lia)) as Hr'.
        cbn [placeholders strip_linebreaks filter starts_with_S] in *.
        change (is_linebreak "S") with false in *. cbn [negb andb] in *.
        fold (strip_linebreaks r') in *.
        change (("S" =? "%")%char) with false in *. cbn [andb] in *.
        rewrite length_app. cbn [List.length]. lia.
      * cbn [List.length]. lia.
    + cbn [andb]. destruct (is_linebreak c); cbn [negb List.length]; lia.
Qed.

(** X10: the message [prepare_message] builds is a single line: it holds no
    carriage return and no line feed, whatever the template and the number
    of seconds. *)
Theorem message_is_one_line (template : string) (s : Z) :
  exists msg,
    prepare_message template s = Some msg
    /\ forallb (fun c => negb (is_linebreak c)) (list_ascii_of_string msg)
       = true.
Proof.
  exists (render template s). split; [apply prepare_message_render|].
  unfold render. rewrite list_ascii_of_string_of_list_ascii.
  exact (render_chars_no_linebreak s _ _ (le_n _)).
Qed.

(** X11: the exact size of the message: the template's characters other
    than line breaks, with every [%S] (two characters) exchanged for the
    decimal text of the seconds. *)
Theorem message_length (template : string) (s : Z) :
  exists msg,
    prepare_message template s = Some msg
    /\ (String.length msg + 2 * placeholders (list_ascii_of_string template)
        = List.length (strip_linebreaks (list_ascii_of_string template))
          + placeholders (list_ascii_of_string template)
            * List.length (Libc.sprintf_d s))%nat.
Proof.
  exists (render template s). split; [apply prepare_message_render|].
  unfold render. rewrite string_length_of_list.
  exact (render_chars_length s _ _ (le_n _)).
Qed.

Lemma placeholders_stripped (t : list ascii) :
  (2 * placeholders t <= List.length (strip_linebreaks t))%nat.
Proof.
  clear int_conv.
  assert (H : forall n t, (List.length t <= n)%nat ->
    (2 * placeholders t <= List.length (strip_linebreaks t))%nat);
    [|exact (H _ t (le_n _))].
  clear t. induction n as [|n IH]; intros t Hn.
  - destruct t; [cbn; lia | cbn in Hn; lia].
  - destruct t as [|c r]; [cbn; lia|].
    cbn [List.length] in Hn. pose proof (IH r ltac:(lia)) as Hr.
    cbn [placeholders strip_linebreaks filter]. fold (strip_linebreaks r).
    destruct (Ascii.eqb_spec c "%") as [->|Hc].
    + change (is_linebreak "%") with false. cbn [negb andb].
      destruct r as [|c' r']; [cbn; lia|]. cbn [starts_with_S].
      destruct (Ascii.eqb_spec c' "S") as [->|Hc']; [|cbn [List.length]; lia].
      pose proof (IH r' ltac:(cbn in Hn; lia)) as Hr'.
      cbn [placeholders strip_linebreaks filter starts_with_S].
      change (is_linebreak "S") with false. cbn [negb andb].
      fold (strip_linebreaks r').
      change (("S" =? "%")%char) with false. cbn [andb List.length]. lia.
    + cbn [andb]. destruct (is_linebreak c); cbn [negb List.length]; lia.
Qed.

(** X12: a countdown of less than 100000000 seconds is safe with every
    accepted command line that does not ask for the help text: each
    message fits [msg] with its terminator, and the run comes to an end
    with a result.  (With [-h] there is no countdown, and whether the run
    comes to an end is the business of [print_usage].) *)
Theorem short_countdown_is_safe (argv : list string)
    (select_results : nat -> Z) (term : option termios) (s : Settings)
    (w' : world) :
  parse_arguments argv (initial_world term) = (Some s, w') ->
  has_opt s OPT_HELP = false ->
  countdown s < 100000000 ->
  message_fits s = true
  /\ (forall n msg,
        0 < n <= countdown s ->
        prepare_message (template s) n = Some msg ->
        (String.length msg + 1 <= MSG_SIZE)%nat)
  /\ exists o, run argv select_results term = Some o.
Proof.
  intros Hp Hh Hn.
  destruct (parse_arguments_settings _ _ _ _ Hp) as (_ & Ht).
  assert (Hfit : message_fits s = true).
  { apply message_fits_when; [exact Ht|].
    intros n Hr. apply sprintf_d_short. lia. }
  split; [exact Hfit|]. split.
  - intros n msg Hr Hm. rewrite prepare_message_render in Hm.
    inversion Hm; subst msg.
    apply (render_fits_msg (template s) n Ht). apply sprintf_d_short. lia.
  - pose proof (run_cases argv select_results term) as Hc.
    pose proof (parse_arguments_output argv (initial_world term)) as Hw.
    rewrite Hp in Hc, Hw. rewrite Hh in Hc. subst w'.
    destruct (countdown s <? 0); [eexists; exact Hc|].
    destruct Hc as [Hge Hc].
    destruct (run_loop_outcome s select_results term (initial_world term)
                (wrote_only_stderr_refl _) Hge Hfit) as (o & Ho & _).
    exists o. rewrite Hc. exact Ho.
Qed.

(** X13: the 255 bytes allowed for a template do not protect [msg]: with 114
    or more placeholders and 100000000 or more seconds to count, the first
    message takes more than the 1024 bytes of [msg], and the run has no
    defined behaviour. *)
Theorem long_countdown_overflows (argv : list string)
    (select_results : nat -> Z) (term : option termios) (s : Settings)
    (w' : world) :
  parse_arguments argv (initial_world term) = (Some s, w') ->
  has_opt s OPT_HELP = false ->
  has_opt s OPT_SILENT = false ->
  (114 <= placeholders (list_ascii_of_string (template s)))%nat ->
  100000000 <= countdown s ->
  (exists msg,
     prepare_message (template s) (countdown s) = Some msg
     /\ (MSG_SIZE < String.length msg + 1)%nat)
  /\ run argv select_results term = None.
Proof.
  intros Hp Hh Hs Hk Hn.
  pose proof (prepare_message_render (countdown s) (template s)) as Hm.
  pose proof (render_chars_length (countdown s) _
                (list_ascii_of_string (template s)) (le_n _)) as Hlen.
  rewrite <- string_length_of_list in Hlen.
  fold (render (template s) (countdown s)) in Hlen.
  set (msg := render (template s) (countdown s)) in *.
  pose proof (placeholders_stripped (list_ascii_of_string (template s))) as H2.
  pose proof (sprintf_d_long _ Hn) as Hd.
  assert (Hbig : (MSG_SIZE < String.length msg + 1)%nat)
    by (unfold MSG_SIZE; nia).
  split; [exists msg; auto|].
  pose proof (run_cases argv select_results term) as Hc.
  rewrite Hp, Hh in Hc.
  replace (countdown s <? 0) with false in Hc
    by (symmetry; apply Z.ltb_ge; lia).
  destruct Hc as [_ Hc]. rewrite Hc. unfold main_loop.
  cbn [countdown_loop]. unfold tick.
  replace (countdown s >? 0) with true
    by (rewrite Z.gtb_ltb; symmetry; apply Z.ltb_lt; lia).
  rewrite Hs, Hm. cbn [negb].
  replace (String.length msg <? MSG_SIZE)%nat with false
    by (symmetry; apply Nat.ltb_ge; lia).
  reflexivity.
Qed.

(** ** The terminal during the countdown *)

Lemma ticks_frame (settings : Settings) (select_results : nat -> Z) (k : nat) :
  forall (st st' : loop_state) (w w' : world),
    ticks k settings select_results st w = Some (st', w') ->
    stdin_term w' = stdin_term w /\ default_term w' = default_term w
    /\ exit_handlers w' = exit_handlers w /\ restores w' = restores w
    /\ stdout_unbuffered w' = stdout_unbuffered w.
Proof.
  clear int_conv.
  induction k as [|k IH]; intros st st' w w' H.
  - inversion H; subst. auto.
  - cbn [ticks] in H.
    destruct (tick settings select_results st w) as [[st1 w1]|] eqn:Ht;
      [|discriminate].
    destruct (IH _ _ _ _ H) as (E1 & E2 & E3 & E4 & E5).
    rewrite E1, E2, E3, E4, E5. destruct st as [n|r n].
    + destruct (tick_trace _ _ _ _ _ _ Ht) as (F1 & F2 & F3 & F4 & F5 & _).
      auto.
    + inversion Ht; subst. auto.
Qed.

(** X14: from [init_termio] to the end of the loop the terminal stays as
    [init_termio] set it: echo and canonical mode off when standard input
    is a terminal, the mode to go back to saved, [reset_termio] registered
    once and not yet run, standard output unbuffered.  When standard input
    is no terminal nothing is registered. *)
Theorem terminal_during_countdown (settings : Settings)
    (select_results : nat -> Z) (term : option termios) (k : nat)
    (st : loop_state) (w : world) :
  ticks k settings select_results (Running (countdown settings))
    (init_termio (initial_world term)) = Some (st, w) ->
  match term with
  | Some t =>
      stdin_term w = Some (clear_echo_icanon t)
      /\ Z.land (c_lflag (clear_echo_icanon t)) (Z.lor ECHO ICANON) = 0
      /\ default_term w = t
      /\ exit_handlers w = [Reset_termio]
  | None => stdin_term w = None /\ exit_handlers w = []
  end
  /\ restores w = 0%nat
  /\ stdout_unbuffered w = true.
Proof.
  clear int_conv.
  intros H.
  destruct (ticks_frame _ _ _ _ _ _ _ H) as (E1 & E2 & E3 & E4 & E5).
  rewrite E1, E2, E3, E4, E5.
  destruct term as [t|]; cbn.
  - repeat split. unfold clear_echo_icanon. cbn [c_lflag].
    rewrite <- Z.land_assoc.
    replace (Z.land (Z.lnot (Z.lor ECHO ICANON)) (Z.lor ECHO ICANON)) with 0
      by reflexivity.
    apply Z.land_0_r.
  - auto.
Qed.

(** ** The help text: [print_aligned] *)

Section Wrap.

Variable formatting_width : Z.
Variables prefix_len size : nat.

(** The last-line branch, and the loop that is not entered. *)
Lemma wrap_loop_last (fuel : nat) (text : list ascii) (remain : nat)
    (buf : list ascii) :
  (formatting_width < Z.of_nat prefix_len
   \/ Z.of_nat remain <= formatting_width - Z.of_nat prefix_len) ->
  (List.length buf + remain <= size)%nat ->
  (List.length text <= remain)%nat ->
  wrap_loop (S fuel) formatting_width prefix_len size text remain buf
  = Some (buf ++ Libc.skip_spaces text)%list.
Proof.
  clear int_conv.
  intros Hfit Hsize Hlen. cbn [wrap_loop].
  destruct (Nat.ltb_spec 0 remain) as [Hr|Hr].
  - replace ((0 <=? formatting_width - Z.of_nat prefix_len)
             && (formatting_width - Z.of_nat prefix_len <? Z.of_nat remain))
      with false
      by (symmetry; apply andb_false_iff;
          rewrite Z.leb_gt, Z.ltb_ge; lia).
    replace (List.length buf + remain <=? size)%nat with true
      by (symmetry; apply Nat.leb_le; lia).
    rewrite firstn_all2; [reflexivity|].
    assert (H : forall l, (List.length (Libc.skip_spaces l) <= List.length l)%nat).
    { clear. induction l as [|c r IH]; cbn; [lia|].
      destruct (Libc.isspace c); cbn; lia. }
    specialize (H text). lia.
  - assert (text = []) by (destruct text; [reflexivity | cbn in Hlen; lia]).
    subst text. cbn. now rewrite app_nil_r.
Qed.

(** With no room beside the prefix the loop writes line feed after line feed
    and never gets on in the text. *)
Lemma wrap_loop_stuck (fuel : nat) :
  forall (text : list ascii) (remain : nat) (buf : list ascii),
    formatting_width = Z.of_nat prefix_len ->
    (0 < remain)%nat ->
    wrap_loop fuel formatting_width prefix_len size text remain buf = None.
Proof.
  clear int_conv.
  induction fuel as [|fuel IH]; intros text remain buf Hw Hr; [reflexivity|].
  cbn [wrap_loop].
  replace (0 <? remain)%nat with true by (symmetry; apply Nat.ltb_lt; lia).
  replace (formatting_width - Z.of_nat prefix_len) with 0 by lia.
  replace ((0 <=? 0) && (0 <? Z.of_nat remain)) with true
    by (symmetry; apply andb_true_iff; rewrite Z.leb_le, Z.ltb_lt; lia).
  change (Z.to_nat 0) with 0%nat. cbn [Nat.leb backtrack Nat.eqb].
  match goal with
  | |- context [firstn ?l _] =>
      replace l with 0%nat by (destruct (Libc.isspace _); reflexivity)
  end.
  rewrite Nat.sub_0_r. cbn [firstn skipn].
  match goal with
  | |- (if ?b then _ else _) = _ => destruct b; [|reflexivity]
  end.
  apply IH; assumption.
Qed.

End Wrap.

Lemma widest_ge (s : list ascii) : forall cur, (cur <= widest s cur)%nat.
Proof.
  clear int_conv.
  induction s as [|c r IH]; intros cur; cbn [widest]; [lia|].
  destruct (c =? LF)%char; [lia|]. specialize (IH (S cur)). lia.
Qed.

Lemma last_col_widest (s : list ascii) :
  forall cur, (last_col s cur <= widest s cur)%nat.
Proof.
  clear int_conv.
  induction s as [|c r IH]; intros cur; cbn [widest last_col]; [lia|].
  destruct (c =? LF)%char; [specialize (IH 0%nat); lia | apply IH].
Qed.

Lemma last_col_app (a b : list ascii) :
  forall cur, last_col (a ++ b) cur = last_col b (last_col a cur).
Proof.
  induction a as [|c r IH]; intros cur; cbn [app last_col]; [reflexivity|].
  destruct (c =? LF)%char; apply IH.
Qed.

Lemma widest_app (a b : list ascii) :
  forall cur,
    widest (a ++ b) cur = Nat.max (widest a cur) (widest b (last_col a cur)).
Proof.
  clear int_conv.
  induction a as [|c r IH]; intros cur; cbn [app widest last_col].
  - pose proof (widest_ge b cur). lia.
  - destruct (c =? LF)%char; rewrite IH; lia.
Qed.

Lemma widest_bound (s : list ascii) :
  forall cur, (widest s cur <= cur + List.length s)%nat.
Proof.
  clear int_conv.
  induction s as [|c r IH]; intros cur; cbn [widest List.length]; [lia|].
  destruct (c =? LF)%char;
    [specialize (IH 0%nat) | specialize (IH (S cur))]; lia.
Qed.

Lemma widest_spaces (n : nat) :
  forall cur, widest (repeat " "%char n) cur = (cur + n)%nat.
Proof.
  clear int_conv.
  induction n as [|n IH]; intros cur; cbn [repeat widest]; [lia|].
  change ((" " =? LF)%char) with false. cbv iota. rewrite IH. lia.
Qed.

Lemma last_col_spaces (n : nat) :
  forall cur, last_col (repeat " "%char n) cur = (cur + n)%nat.
Proof.
  clear int_conv.
  induction n as [|n IH]; intros cur; cbn [repeat last_col]; [lia|].
  change ((" " =? LF)%char) with false. cbv iota. rewrite IH. lia.
Qed.

Lemma skip_spaces_length (l : list ascii) :
  (List.length (Libc.skip_spaces l) <= List.length l)%nat.
Proof.
  clear int_conv.
  induction l as [|c r IH]; cbn; [lia|]. destruct (Libc.isspace c); cbn; lia.
Qed.

Lemma nonblank_skip_spaces (l : list ascii) :
  nonblank (Libc.skip_spaces l) = nonblank l.
Proof.
  induction l as [|c r IH]; [reflexivity|]. cbn [Libc.skip_spaces].
  destruct (Libc.isspace c) eqn:Hc; [|reflexivity].
  unfold nonblank in *. cbn [filter]. now rewrite Hc.
Qed.

Lemma nonblank_spaces (n : nat) : nonblank (repeat " "%char n) = [].
Proof. induction n as [|n IH]; [reflexivity | exact IH]. Qed.

Lemma nonblank_app (a b : list ascii) :
  nonblank (a ++ b) = (nonblank a ++ nonblank b)%list.
Proof. apply filter_app. Qed.

Lemma backtrack_le (text : list ascii) (n : nat) : (backtrack text n <= n)%nat.
Proof.
  clear int_conv.
  induction n as [|n IH]; cbn [backtrack]; [lia|].
  destruct (Libc.isspace (char_at text n)); lia.
Qed.

Section Layout.

Variable formatting_width : Z.
Variables prefix_len size : nat.

(** The line the loop breaks off: not longer than the room beside the
    prefix, and inside the text. *)
Lemma broken_line_length (text : list ascii) (linemax0 : nat) :
  ((if Libc.isspace (char_at text linemax0) then linemax0
    else
      let l := backtrack text linemax0 in
      if (l =? 0)%nat then linemax0 else l) <= linemax0)%nat.
Proof.
  clear int_conv.
  destruct (Libc.isspace (char_at text linemax0)); [lia|]. cbv zeta.
  pose proof (backtrack_le text linemax0).
  destruct (backtrack text linemax0 =? 0)%nat; lia.
Qed.

(** No line gets wider than the formatting width. *)
Lemma wrap_loop_width (fuel : nat) :
  forall (text : list ascii) (remain : nat) (buf res : list ascii) (c0 : nat),
    wrap_loop fuel formatting_width prefix_len size text remain buf
    = Some res ->
    Z.of_nat prefix_len <= formatting_width ->
    (last_col buf c0 <= prefix_len)%nat ->
    Z.of_nat (widest buf c0) <= formatting_width ->
    Z.of_nat (widest res c0) <= formatting_width.
Proof.
  clear int_conv.
  induction fuel as [|fuel IH]; intros text remain buf res c0 H Hp Hc Hw;
    [discriminate|].
  cbn [wrap_loop] in H.
  destruct (0 <? remain)%nat; [|inversion H; subst; exact Hw].
  set (linemax := formatting_width - Z.of_nat prefix_len) in *.
  destruct ((0 <=? linemax) && (linemax <? Z.of_nat remain)) eqn:Hb.
  - apply andb_true_iff in Hb. destruct Hb as [H0 H1].
    apply Z.leb_le in H0. apply Z.ltb_lt in H1.
    destruct (Z.to_nat linemax <=? List.length (Libc.skip_spaces text))%nat;
      [|discriminate].
    pose proof (broken_line_length (Libc.skip_spaces text) (Z.to_nat linemax))
      as Hl.
    set (lm := if Libc.isspace _ then _ else _) in *. clearbody lm.
    match type of H with
    | (if ?b then _ else _) = _ => destruct b; [|discriminate]
    end.
    apply (IH _ _ _ _ c0 H Hp).
    + rewrite !last_col_app. cbn [last_col].
      change ((LF =? LF)%char) with true. cbv iota.
      rewrite last_col_spaces. lia.
    + rewrite !widest_app. cbn [widest last_col].
      change ((LF =? LF)%char) with true. cbv iota.
      rewrite widest_spaces.
      pose proof (widest_bound (firstn lm (Libc.skip_spaces text))
                    (last_col buf c0)) as Hb1.
      pose proof (last_col_widest (firstn lm (Libc.skip_spaces text))
                    (last_col buf c0)) as Hb2.
      pose proof (length_firstn lm (Libc.skip_spaces text)) as Hf.
      lia.
  - match type of H with
    | (if ?b then _ else _) = _ => destruct b; [|discriminate]
    end.
    inversion H; subst res; clear H.
    apply andb_false_iff in Hb.
    assert (Hr : Z.of_nat remain <= linemax).
    { destruct Hb as [Hb|Hb]; [apply Z.leb_gt in Hb | apply Z.ltb_ge in Hb];
        unfold linemax in *; lia. }
    rewrite widest_app.
    pose proof (widest_bound (firstn remain (Libc.skip_spaces text))
                  (last_col buf c0)) as Hb1.
    pose proof (length_firstn remain (Libc.skip_spaces text)) as Hf.
    unfold linemax in *. lia.
Qed.

(** Nothing of the text is lost, and nothing but white space is added. *)
Lemma wrap_loop_content (fuel : nat) :
  forall (text : list ascii) (remain : nat) (buf res : list ascii),
    wrap_loop fuel formatting_width prefix_len size text remain buf
    = Some res ->
    (List.length text <= remain)%nat ->
    nonblank res = (nonblank buf ++ nonblank text)%list.
Proof.
  clear int_conv.
  induction fuel as [|fuel IH]; intros text remain buf res H Hlen;
    [discriminate|].
  cbn [wrap_loop] in H.
  destruct (Nat.ltb_spec 0 remain) as [Hr|Hr].
  2:{ inversion H; subst.
      assert (text = []) by (destruct text; [reflexivity | cbn in Hlen; lia]).
      subst text. cbn. now rewrite app_nil_r. }
  pose proof (skip_spaces_length text) as Hs.
  rewrite <- (nonblank_skip_spaces text).
  set (linemax := formatting_width - Z.of_nat prefix_len) in *.
  destruct ((0 <=? linemax) && (linemax <? Z.of_nat remain)).
  - destruct (Nat.leb_spec (Z.to_nat linemax)
                (List.length (Libc.skip_spaces text))) as [Hin|];
      [|discriminate].
    pose proof (broken_line_length (Libc.skip_spaces text) (Z.to_nat linemax))
      as Hl.
    set (lm := if Libc.isspace _ then _ else _) in *. clearbody lm.
    match type of H with
    | (if ?b then _ else _) = _ => destruct b; [|discriminate]
    end.
    rewrite (IH _ _ _ _ H) by (rewrite length_skipn; lia).
    rewrite !nonblank_app, nonblank_spaces.
    change (nonblank [LF]) with (@nil ascii). cbn [app].
    rewrite app_nil_r, <- app_assoc, <- nonblank_app, firstn_skipn.
    reflexivity.
  - match type of H with
    | (if ?b then _ else _) = _ => destruct b; [|discriminate]
    end.
    inversion H; subst res; clear H.
    rewrite firstn_all2 by lia. apply nonblank_app.
Qed.

End Layout.

(** The width [print_aligned] formats for: the terminal's when it is known
    and below 80, and 80 otherwise. *)
Lemma formatting_width_range (tw : Z) :
  1 <= formatting_width_of tw <= FORMATTING_MAX_WIDTH
  /\ (0 < tw < FORMATTING_MAX_WIDTH -> formatting_width_of tw = tw)
  /\ (tw <= 0 \/ FORMATTING_MAX_WIDTH <= tw ->
      formatting_width_of tw = FORMATTING_MAX_WIDTH).
Proof.
  clear int_conv.
  unfold formatting_width_of, FORMATTING_MAX_WIDTH.
  destruct (Z.ltb_spec 0 tw) as [H0|H0]; rewrite Z.gtb_ltb;
    destruct (Z.ltb_spec 0 tw) as [H0'|H0']; try lia;
    destruct (Z.ltb_spec tw 80) as [H1|H1]; cbn [andb]; lia.
Qed.

(** X15: a text that fits beside the prefix is printed on the prefix's line,
    without its leading white space and with a line feed; so is the empty
    text, and so is any text, however long, when the prefix is wider than
    the formatting width: this text is not wrapped at all. *)
Theorem print_aligned_one_line (out : stream) (first_line_prefix text : string)
    (ioctl : option Z) (term_width : Z) (w : world) :
  formatting_width_of (fst (get_terminal_width ioctl term_width))
  < Z.of_nat (String.length first_line_prefix)
  \/ Z.of_nat (String.length text)
     <= formatting_width_of (fst (get_terminal_width ioctl term_width))
        - Z.of_nat (String.length first_line_prefix) ->
  print_aligned out first_line_prefix text ioctl (term_width, w)
  = Some (snd (get_terminal_width ioctl term_width),
          fputs (string_of_list_ascii
                   (Libc.skip_spaces (list_ascii_of_string text) ++ [LF]))
            out (fputs first_line_prefix out w)).
Proof.
  clear int_conv.
  intros Hfit. unfold print_aligned.
  destruct (get_terminal_width ioctl term_width) as [tw tw'].
  cbn [fst snd] in *.
  rewrite wrap_loop_last;
    [| exact Hfit | cbn; lia | rewrite list_length_of_string; lia].
  cbn [app].
  pose proof (skip_spaces_length (list_ascii_of_string text)) as Hs.
  rewrite list_length_of_string in Hs.
  replace (List.length (Libc.skip_spaces (list_ascii_of_string text)) + 2
           <=? 1024 + String.length text)%nat
    with true by (symmetry; apply Nat.leb_le; lia).
  reflexivity.
Qed.

(** X16: when the prefix is exactly as wide as the formatting width, a text
    that is not empty is never printed: the loop finds no room for a single
    character, goes on for ever writing empty lines to [buf], and runs past
    its end. *)
Theorem print_aligned_no_room (out : stream) (first_line_prefix text : string)
    (ioctl : option Z) (term_width : Z) (w : world) :
  formatting_width_of (fst (get_terminal_width ioctl term_width))
  = Z.of_nat (String.length first_line_prefix) ->
  text <> "" ->
  print_aligned out first_line_prefix text ioctl (term_width, w) = None.
Proof.
  clear int_conv.
  intros Hw Ht. unfold print_aligned.
  destruct (get_terminal_width ioctl term_width) as [tw tw'].
  cbn [fst] in Hw.
  rewrite wrap_loop_stuck; [reflexivity | exact Hw |].
  destruct text; [congruence | cbn; lia].
Qed.

(** X17: when [print_aligned] returns, it has written the prefix and then
    the text laid out in lines, and no line of the two together is wider
    than the formatting width, provided the prefix itself is not.  The
    formatting width is at most 80, and the width of the terminal when that
    is known and smaller. *)
Theorem print_aligned_width (out : stream) (first_line_prefix text : string)
    (ioctl : option Z) (term_width term_width' : Z) (w w' : world) :
  print_aligned out first_line_prefix text ioctl (term_width, w)
  = Some (term_width', w') ->
  Z.of_nat (String.length first_line_prefix)
  <= formatting_width_of (fst (get_terminal_width ioctl term_width)) ->
  exists buf,
    w' = fputs buf out (fputs first_line_prefix out w)
    /\ Z.of_nat (widest (list_ascii_of_string (first_line_prefix ++ buf)) 0)
       <= formatting_width_of (fst (get_terminal_width ioctl term_width))
    /\ formatting_width_of (fst (get_terminal_width ioctl term_width))
       <= FORMATTING_MAX_WIDTH.
Proof.
  clear int_conv.
  unfold print_aligned.
  destruct (get_terminal_width ioctl term_width) as [tw tw'].
  cbn [fst]. intros H Hp.
  destruct (wrap_loop _ _ _ _ _ _ _) as [buf|] eqn:Hl; [|discriminate].
  destruct (_ <=? _)%nat; [|discriminate].
  inversion H; subst term_width' w'; clear H.
  exists (string_of_list_ascii (buf ++ [LF])). split; [reflexivity|].
  split; [|apply formatting_width_range].
  rewrite list_ascii_of_string_app, list_ascii_of_string_of_list_ascii.
  pose proof (widest_bound (list_ascii_of_string first_line_prefix) 0) as Hb.
  pose proof (last_col_widest (list_ascii_of_string first_line_prefix) 0)
    as Hc.
  rewrite list_length_of_string in Hb.
  pose proof (wrap_loop_width _ _ _ _ _ _ _ _
                (last_col (list_ascii_of_string first_line_prefix) 0)
                Hl Hp ltac:(cbn [last_col]; lia)
                ltac:(cbn [widest]; lia)) as Hw.
  rewrite !widest_app. cbn [widest].
  change ((LF =? LF)%char) with true. cbv iota.
  pose proof (last_col_widest buf
                (last_col (list_ascii_of_string first_line_prefix) 0)).
  lia.
Qed.

(** X18: when [print_aligned] returns, what it has written after the prefix
    holds the characters of the text that are not white space, all of them
    and in their order, and white space between them: laying out loses and
    invents no text. *)
Theorem print_aligned_keeps_text (out : stream)
    (first_line_prefix text : string) (ioctl : option Z)
    (term_width term_width' : Z) (w w' : world) :
  print_aligned out first_line_prefix text ioctl (term_width, w)
  = Some (term_width', w') ->
  exists buf,
    w' = fputs buf out (fputs first_line_prefix out w)
    /\ nonblank (list_ascii_of_string buf)
       = nonblank (list_ascii_of_string text).
Proof.
  clear int_conv.
  unfold print_aligned.
  destruct (get_terminal_width ioctl term_width) as [tw tw'].
  intros H.
  destruct (wrap_loop _ _ _ _ _ _ _) as [buf|] eqn:Hl; [|discriminate].
  destruct (_ <=? _)%nat; [|discriminate].
  inversion H; subst term_width' w'; clear H.
  exists (string_of_list_ascii (buf ++ [LF])). split; [reflexivity|].
  rewrite list_ascii_of_string_of_list_ascii, nonblank_app.
  change (nonblank [LF]) with (@nil ascii). rewrite app_nil_r.
  rewrite (wrap_loop_content _ _ _ _ _ _ _ _ Hl)
    by (rewrite list_length_of_string; lia).
  reflexivity.
Qed.

(** ** The help text: [print_usage] *)

Lemma stderr_bytes_app (a b : list out_event) :
  stderr_bytes (a ++ b) = stderr_bytes a ++ stderr_bytes b.
Proof.
  induction a as [|e r IH]; [reflexivity|].
  destruct e as [[|] text|self]; cbn; rewrite IH;
    [reflexivity | symmetry; apply append_assoc | reflexivity].
Qed.

Lemma string_length_app (a b : string) :
  String.length (a ++ b) = (String.length a + String.length b)%nat.
Proof. induction a as [|c a IH]; cbn; congruence. Qed.

(** For a terminal of 80 columns and more, or of unknown width,
    [print_aligned] formats for 80 columns, and goes on doing so. *)
Lemma print_aligned_full_width (out : stream) (first_line_prefix text : string)
    (ioctl : option Z) (term_width : Z) (w : world) :
  full_width term_width ->
  (forall c, ioctl = Some c -> full_width c) ->
  exists term_width',
    full_width term_width'
    /\ print_aligned out first_line_prefix text ioctl (term_width, w)
       = match wrap_loop (S (1024 + String.length text)) FORMATTING_MAX_WIDTH
                 (String.length first_line_prefix)
                 (1024 + String.length text) (list_ascii_of_string text)
                 (String.length text) [] with
         | Some buf =>
             if (List.length buf + 2 <=? 1024 + String.length text)%nat then
               Some (term_width',
                     fputs (string_of_list_ascii (buf ++ [LF])) out
                       (fputs first_line_prefix out w))
             else None
         | None => None
         end.
Proof.
  clear int_conv.
  intros Ht Hi. unfold print_aligned.
  assert (Hg : full_width (fst (get_terminal_width ioctl term_width))
               /\ full_width (snd (get_terminal_width ioctl term_width))).
  { unfold get_terminal_width. destruct (term_width =? 0).
    - destruct ioctl as [c|]; cbn; auto.
    - cbn; auto. }
  destruct (get_terminal_width ioctl term_width) as [tw tw'].
  cbn [fst snd] in Hg. destruct Hg as [Hg Hg'].
  exists tw'. split; [exact Hg'|].
  destruct (formatting_width_range tw) as (_ & _ & Hf).
  rewrite (Hf Hg). reflexivity.
Qed.

Lemma output_fputs (text : string) (f : stream) (w : world) :
  output (fputs text f w) = (output w ++ [Fputs f text])%list.
Proof. reflexivity. Qed.

Lemma append_empty_r (a : string) : a ++ "" = a.
Proof. induction a as [|c a IH]; cbn; congruence. Qed.

Lemma get_terminal_width_full (ioctl : option Z) (term_width : Z) :
  full_width term_width ->
  (forall c, ioctl = Some c -> full_width c) ->
  formatting_width_of (fst (get_terminal_width ioctl term_width))
  = FORMATTING_MAX_WIDTH
  /\ full_width (snd (get_terminal_width ioctl term_width)).
Proof.
  clear int_conv.
  intros Ht Hi.
  assert (Hg : full_width (fst (get_terminal_width ioctl term_width))
               /\ full_width (snd (get_terminal_width ioctl term_width))).
  { unfold get_terminal_width. destruct (term_width =? 0).
    - destruct ioctl as [c|]; cbn; auto.
    - cbn; auto. }
  destruct Hg as [Hg Hg']. split; [|exact Hg'].
  now apply formatting_width_range.
Qed.

(** One line of the help text at full width: the call of [print_aligned] is
    replaced by what it comes to. *)
Ltac usage_line Htw Hi k :=
  match goal with
  | |- context [print_aligned Stderr ?p ?t (?io k) (?tw, ?w)] =>
      let tw' := fresh "tw" in
      let Htw' := fresh "Htw" in
      let E := fresh "E" in
      destruct (print_aligned_full_width Stderr p t (io k) tw w Htw (Hi k))
        as (tw' & Htw' & E);
      rewrite E; clear E
  end.

Ltac eval_wrap_loop :=
  match goal with
  | |- context [wrap_loop ?f ?fw ?p ?s ?t ?r ?b] =>
      let v := eval vm_compute in (wrap_loop f fw p s t r b) in
      replace (wrap_loop f fw p s t r b) with v by (vm_compute; reflexivity);
      cbv beta iota
  end;
  match goal with
  | |- context [(?a <=? ?b)%nat] =>
      replace (a <=? b)%nat with true by (vm_compute; reflexivity);
      cbv beta iota
  end.

(** X19: on a terminal of 80 columns or more, or of unknown width, and for a
    program name of at most 27 characters, [print_usage] writes the help
    text exactly as the README shows it, with the name of the program in
    it, all of it to standard error. *)
Theorem usage_at_full_width (self : string) (ioctls : nat -> option Z)
    (term_width : Z) (w : world) :
  full_width term_width ->
  (forall k c, ioctls k = Some c -> full_width c) ->
  (String.length (basename self) <= 27)%nat ->
  exists term_width' w',
    print_usage_text self ioctls (term_width, w) = Some (term_width', w')
    /\ full_width term_width'
    /\ stderr_bytes (output w')
       = stderr_bytes (output w) ++ README_usage (basename self)
    /\ stdout_bytes (output w') = stdout_bytes (output w).
Proof.
  clear int_conv.
  intros Htw Hi. unfold print_usage_text, usage_lines.
  generalize (basename self). intros name Hname.
  cbn [print_aligned_all].
  usage_line Htw Hi 0%nat. eval_wrap_loop.
  usage_line Htw0 Hi 1%nat. eval_wrap_loop.
  (* the line with the name *)
  usage_line Htw1 Hi 2%nat.
  rewrite wrap_loop_last;
    [| right; rewrite !string_length_app; cbn [String.length];
       unfold FORMATTING_MAX_WIDTH; lia
     | cbn [List.length String.length]; lia
     | rewrite list_length_of_string; lia].
  match goal with
  | |- context [(?a <=? ?b)%nat] =>
      replace (a <=? b)%nat with true by (vm_compute; reflexivity);
      cbv beta iota
  end.
  usage_line Htw2 Hi 3%nat. eval_wrap_loop.
  usage_line Htw3 Hi 4%nat. eval_wrap_loop.
  usage_line Htw4 Hi 5%nat. eval_wrap_loop.
  usage_line Htw5 Hi 6%nat. eval_wrap_loop.
  usage_line Htw6 Hi 7%nat. eval_wrap_loop.
  usage_line Htw7 Hi 8%nat. eval_wrap_loop.
  usage_line Htw8 Hi 9%nat. eval_wrap_loop.
  usage_line Htw9 Hi 10%nat. eval_wrap_loop.
  eexists; eexists. split; [reflexivity|]. split; [assumption|].
  rewrite !output_fputs.
  rewrite !stderr_bytes_app, !stdout_bytes_app.
  cbn [stderr_bytes stdout_bytes].
  rewrite !append_empty_r, !append_assoc.
  split; [|reflexivity].
  reflexivity.
Qed.

(** ** The first version and the later one *)

(** An option of the first version is one of the later version, with or
    without an argument as before. *)
Lemma takes_arg_v1 (c : ascii) (b : bool) :
  Libc.takes_arg (list_ascii_of_string OPTSTRING_V1) c = Some b ->
  Libc.takes_arg (list_ascii_of_string OPTSTRING) c = Some b
  /\ (c = "s" \/ c = "h" \/ c = "e")%char.
Proof.
  destruct c as [[] [] [] [] [] [] [] []]; cbn; intros H;
    try discriminate; auto.
Qed.

Lemma scan_cluster_v1 (self : string) (cs : list ascii)
    (next : option string) :
  forallb v1_result
    (fst (Libc.scan_cluster self (list_ascii_of_string OPTSTRING_V1) cs next))
  = true
  /\ (given "?"
        (fst (Libc.scan_cluster self (list_ascii_of_string OPTSTRING_V1)
                cs next)) = false ->
      Libc.scan_cluster self (list_ascii_of_string OPTSTRING) cs next
      = Libc.scan_cluster self (list_ascii_of_string OPTSTRING_V1) cs next).
Proof.
  induction cs as [|c cs IH]; [split; reflexivity|].
  cbn [Libc.scan_cluster].
  destruct (Libc.takes_arg (list_ascii_of_string OPTSTRING_V1) c)
    as [[|]|] eqn:Hc.
  - destruct (takes_arg_v1 _ _ Hc) as [-> Hk].
    assert (Hv : forall a, v1_result {| Libc.opt := c; Libc.optarg := a;
                                        Libc.diag := "" |} = true).
    { intros a. unfold v1_result. cbn.
      destruct Hk as [ -> | [ -> | -> ] ]; reflexivity. }
    destruct cs as [|c' cs'], next as [a|]; cbn [fst forallb];
      rewrite ?Hv; auto.
  - destruct (takes_arg_v1 _ _ Hc) as [-> Hk].
    destruct (Libc.scan_cluster self (list_ascii_of_string OPTSTRING_V1)
                cs next) as [rets used].
    destruct (Libc.scan_cluster self (list_ascii_of_string OPTSTRING)
                cs next) as [rets' used'].
    cbn [fst] in *. destruct IH as [IH1 IH2]. split.
    + cbn [forallb]. rewrite IH1. unfold v1_result. cbn.
      destruct Hk as [ -> | [ -> | -> ] ]; reflexivity.
    + unfold given in *. cbn [existsb Libc.opt]. intros H.
      apply orb_false_iff in H. destruct H as [_ H].
      specialize (IH2 H). inversion IH2; subst. reflexivity.
  - destruct (Libc.scan_cluster self (list_ascii_of_string OPTSTRING_V1)
                cs next) as [rets used].
    cbn [fst] in *. destruct IH as [IH1 _]. split.
    + cbn [forallb]. rewrite IH1. reflexivity.
    + unfold given. cbn. discriminate.
Qed.

Lemma given_app (c : ascii) (a b : list Libc.getopt_ret) :
  given c (a ++ b) = given c a || given c b.
Proof. apply existsb_app. Qed.

Lemma getopt_scan_v1 (self : string) (args : list string) :
  forall skip,
    forallb v1_result
      (fst (Libc.getopt_scan self (list_ascii_of_string OPTSTRING_V1)
              skip args)) = true
    /\ (given "?"
          (fst (Libc.getopt_scan self (list_ascii_of_string OPTSTRING_V1)
                  skip args)) = false ->
        Libc.getopt_scan self (list_ascii_of_string OPTSTRING) skip args
        = Libc.getopt_scan self (list_ascii_of_string OPTSTRING_V1)
            skip args).
Proof.
  induction args as [|a rest IH]; intros skip; [split; reflexivity|].
  cbn [Libc.getopt_scan]. destruct skip; [apply IH|].
  destruct (a =? "--")%string; [split; reflexivity|].
  assert (Hplain :
    forallb v1_result
      (fst (let (rets', operands) :=
              Libc.getopt_scan self (list_ascii_of_string OPTSTRING_V1)
                false rest in (rets', a :: operands))) = true
    /\ (given "?"
          (fst (let (rets', operands) :=
                  Libc.getopt_scan self (list_ascii_of_string OPTSTRING_V1)
                    false rest in (rets', a :: operands))) = false ->
        (let (rets', operands) :=
           Libc.getopt_scan self (list_ascii_of_string OPTSTRING) false rest
         in (rets', a :: operands))
        = (let (rets', operands) :=
             Libc.getopt_scan self (list_ascii_of_string OPTSTRING_V1)
               false rest in (rets', a :: operands)))).
  { destruct (IH false) as [IH1 IH2].
    destruct (Libc.getopt_scan self (list_ascii_of_string OPTSTRING_V1)
                false rest) as [rets ops].
    cbn [fst] in *. split; [exact IH1|].
    intros H. rewrite (IH2 H). reflexivity. }
  destruct (list_ascii_of_string a) as [|c0 [|c cs]].
  - exact Hplain.
  - destruct c0 as [[] [] [] [] [] [] [] []]; exact Hplain.
  - destruct (scan_cluster_v1 self (c :: cs) (hd_error rest)) as [Hc1 Hc2].
    destruct (Libc.scan_cluster self (list_ascii_of_string OPTSTRING_V1)
                (c :: cs) (hd_error rest)) as [rets used].
    cbn [fst] in Hc1, Hc2.
    destruct (IH used) as [IH1 IH2].
    destruct c0 as [[] [] [] [] [] [] [] []]; try exact Hplain.
    destruct (Libc.getopt_scan self (list_ascii_of_string OPTSTRING_V1)
                used rest) as [rets' ops'].
    cbn [fst] in *. split.
    + rewrite forallb_app, Hc1, IH1. reflexivity.
    + rewrite given_app. intros H. apply orb_false_iff in H.
      destruct H as [Ha Hb]. rewrite (Hc2 Ha), (IH2 Hb). reflexivity.
Qed.

Lemma small_opts (o : Z) :
  0 <= o < 4 ->
  0 <= Z.lor o OPT_SILENT < 4 /\ 0 <= Z.lor o OPT_HELP < 4
  /\ Z.land o (Z.lnot OPT_FAIL_NO_USER_INTERACTION) = o
  /\ Z.land o OPT_FAIL_NO_USER_INTERACTION = 0
  /\ Z.land o OPT_SUPPRESS_EXIT_INFO = 0.
Proof.
  clear int_conv.
  intros H.
  assert (E : o = 0 \/ o = 1 \/ o = 2 \/ o = 3) by lia.
  destruct E as [-> | [-> | [-> | ->]]]; repeat split; vm_compute;
    (reflexivity || discriminate).
Qed.

(** On what [getopt] can return to the first version, the option loops of
    the two versions go the same way. *)
Lemma parse_options_sim (rets : list Libc.getopt_ret) :
  forall (s1 : Settings_v1) (s : Settings) (w : world),
    forallb v1_result rets = true ->
    same_settings s1 s ->
    match parse_options_v1 rets s1 w, parse_options rets s w with
    | (Some s1', w1), (Some s', w') => same_settings s1' s' /\ w1 = w'
    | (None, w1), (None, w') => w1 = w'
    | _, _ => False
    end.
Proof.
  induction rets as [|r rest IH]; intros s1 s w Hv Hs; [cbn; auto|].
  cbn [forallb] in Hv. apply andb_true_iff in Hv. destruct Hv as [Hr Hv].
  destruct Hs as (Hc & Ho & Hb & He & Ht).
  destruct (small_opts _ Hb) as (Hs' & Hh' & Hclear & _).
  cbn [parse_options_v1 parse_options]. unfold v1_result in Hr.
  destruct (Ascii.eqb_spec (Libc.opt r) "s") as [E|Ns].
  { apply IH; [exact Hv|]. unfold same_settings, set_opts, set_exitcode.
    cbn [countdown opts exitcode template countdown_v1 opts_v1 exitcode_v1]. rewrite Ho. auto. }
  destruct (Ascii.eqb_spec (Libc.opt r) "z") as [E|Nz].
  { rewrite E in Hr. discriminate. }
  destruct (Ascii.eqb_spec (Libc.opt r) "f") as [E|Nf].
  { rewrite E in Hr. discriminate. }
  destruct (Ascii.eqb_spec (Libc.opt r) "m") as [E|Nm].
  { rewrite E in Hr. discriminate. }
  destruct (Ascii.eqb_spec (Libc.opt r) "e") as [E|Ne].
  { destruct (Libc.sscanf_i int_conv (Libc.optarg r)) as [val|];
      [|reflexivity].
    destruct ((val <? 0) || (val >? 255)); [reflexivity|].
    apply IH; [exact Hv|]. unfold same_settings, set_opts, set_exitcode.
    cbn [countdown opts exitcode template countdown_v1 opts_v1 exitcode_v1].
    rewrite Hclear. auto. }
  destruct (Ascii.eqb_spec (Libc.opt r) "h") as [E|Nh].
  { apply IH; [exact Hv|]. unfold same_settings, set_opts, set_exitcode.
    cbn [countdown opts exitcode template countdown_v1 opts_v1 exitcode_v1]. rewrite Ho. auto. }
  destruct (Ascii.eqb_spec (Libc.opt r) "?") as [E|Nq]; [reflexivity|].
  discriminate.
Qed.

Lemma parse_arguments_sim (argv : list string) (w : world) :
  given "?" (fst (Libc.getopt_all argv OPTSTRING_V1)) = false ->
  Libc.getopt_all argv OPTSTRING = Libc.getopt_all argv OPTSTRING_V1
  /\ match parse_arguments_v1 argv w, parse_arguments argv w with
     | (Some s1, w1), (Some s, w') => same_settings s1 s /\ w1 = w'
     | (None, w1), (None, w') => w1 = w'
     | _, _ => False
     end.
Proof.
  intros Hq.
  destruct (getopt_scan_v1 (hd "" argv) (tl argv) false) as [Hv Hsame].
  fold (Libc.getopt_all argv OPTSTRING_V1) in Hv, Hsame.
  fold (Libc.getopt_all argv OPTSTRING) in Hsame.
  specialize (Hsame Hq). split; [exact Hsame|].
  unfold parse_arguments, parse_getopt, parse_arguments_v1.
  rewrite Hsame. cbv zeta.
  pose proof (parse_options_sim (fst (Libc.getopt_all argv OPTSTRING_V1))
                {| countdown_v1 := -1; opts_v1 := 0; exitcode_v1 := 0 |}
                initial_settings w Hv) as Hsim.
  specialize (Hsim ltac:(unfold same_settings; cbn; repeat split; lia)).
  destruct (parse_options_v1 _ _ w) as [[s1|] w1];
    destruct (parse_options _ initial_settings w) as [[s|] w'];
    try contradiction; [|exact Hsim].
  destruct Hsim as [Hs ->]. unfold parse_operands.
  destruct (snd (Libc.getopt_all argv OPTSTRING_V1)) as [|first rest];
    [auto|].
  destruct (Libc.sscanf_i int_conv first) as [val|]; [|reflexivity].
  destruct (val <? 0); [reflexivity|].
  split; [|reflexivity].
  destruct Hs as (Hc & Ho & Hb & He & Ht).
  unfold same_settings. cbn. auto.
Qed.

(** The message of the first version is the default template of the later
    one. *)
Lemma render_default (n : Z) :
  render DEFAULT_MSG_TEMPLATE n
  = "Waiting for " ++ dec n ++ " seconds, press any key to exit..".
Proof.
  unfold render, dec.
  change (render_chars (list_ascii_of_string DEFAULT_MSG_TEMPLATE) n)
    with (list_ascii_of_string "Waiting for " ++ Libc.sprintf_d n
          ++ list_ascii_of_string " seconds, press any key to exit..")%list.
  rewrite !string_of_list_ascii_app, !string_of_list_ascii_of_string.
  reflexivity.
Qed.

Lemma tick_sim (s1 : Settings_v1) (s : Settings) (select_results : nat -> Z)
    (st st' : loop_state) (w w' : world) :
  same_settings s1 s ->
  tick s select_results st w = Some (st', w') ->
  tick_v1 s1 select_results st w = (st', w').
Proof.
  clear int_conv.
  intros (Hc & Ho & Hb & He & Ht). unfold tick, tick_v1, wait_key_pressed.
  unfold has_opt_v1, has_opt. rewrite Ho, Ht.
  destruct st as [n|r n]; cbv beta iota;
    [|intros H; inversion H; reflexivity].
  destruct (n >? 0); cbv beta iota; [|intros H; inversion H; reflexivity].
  rewrite prepare_message_render, render_default.
  destruct (Z.land (opts s) OPT_SILENT =? 0); cbn [negb]; cbv beta iota.
  - destruct (_ <? MSG_SIZE)%nat; cbv beta iota; [|discriminate].
    destruct (wait_for_one_second_or_input _ _) as [retval w2].
    destruct (negb (retval =? 0)); cbv beta iota; intros H; inversion H;
      reflexivity.
  - destruct (wait_for_one_second_or_input _ _) as [retval w2].
    destruct (negb (retval =? 0)); cbv beta iota; intros H; inversion H;
      reflexivity.
Qed.

Lemma countdown_loop_sim (s1 : Settings_v1) (s : Settings)
    (select_results : nat -> Z) (fuel : nat) :
  forall (st : loop_state) (w : world) (res : exit_reason * Z * world),
    same_settings s1 s ->
    countdown_loop fuel s select_results st w = Some res ->
    countdown_loop_v1 fuel s1 select_results st w = Some res.
Proof.
  clear int_conv.
  induction fuel as [|fuel IH]; intros st w res Hs H; [discriminate|].
  cbn [countdown_loop countdown_loop_v1] in *.
  destruct (tick s select_results st w) as [[st' w']|] eqn:Ht;
    [|discriminate].
  rewrite (tick_sim _ _ _ _ _ _ _ Hs Ht).
  destruct st' as [n|r n]; [apply IH; assumption | exact H].
Qed.

Lemma same_but_output_refl (w : world) : same_but_output w w.
Proof. unfold same_but_output. auto 10. Qed.

Lemma run_exit_handlers_same (w1 w2 : world) :
  same_but_output w1 w2 ->
  same_but_output (run_exit_handlers w1) (run_exit_handlers w2)
  /\ output (run_exit_handlers w1) = output w1
  /\ output (run_exit_handlers w2) = output w2.
Proof.
  clear int_conv.
  intros (H1 & H2 & H3 & H4 & H5 & H6 & H7). unfold run_exit_handlers.
  pose proof (run_handlers_effect (exit_handlers w1) w1) as E1.
  pose proof (run_handlers_effect (exit_handlers w2) w2) as E2.
  cbv zeta in E1, E2.
  destruct E1 as (A1 & A2 & A3 & A4 & A5 & A6 & A7).
  destruct E2 as (B1 & B2 & B3 & B4 & B5 & B6 & B7).
  split; [|auto].
  unfold same_but_output.
  rewrite A2, A3, A4, A5, A6, A7, B2, B3, B4, B5, B6, B7, H1, H2, H3, H4, H5,
    H6.
  repeat split.
  assert (Hu : forall hs w,
    stdout_unbuffered (fold_left (fun w h => run_handler h w) hs w)
    = stdout_unbuffered w).
  { induction hs as [|h hs IH]; intros w; [reflexivity|].
    cbn [fold_left]. rewrite IH. destruct h. reflexivity. }
  rewrite !Hu. exact H7.
Qed.

(** X20: the later version goes on from the first.  A command line that the
    first version takes without a complaint of [getopt] is read the same
    way by the later version, and a run of the later version on it has a
    counterpart in the first: the same exit status, the same end of the
    countdown, the same polls and reads, the same terminal.  What is written
    is the same when the run ends in an error or is silent, and the same up
    to the last write, the summary, which was reworded, when the countdown
    took place.  (The help text differs.) *)
Theorem first_version_compatible (argv : list string)
    (select_results : nat -> Z) (term : option termios) (o : outcome) :
  given "?" (fst (Libc.getopt_all argv OPTSTRING_V1)) = false ->
  run argv select_results term = Some o ->
  Libc.getopt_all argv OPTSTRING = Libc.getopt_all argv OPTSTRING_V1
  /\ exists o1,
       run_v1 argv select_results term = Some o1
       /\ status o1 = status o
       /\ loop_end o1 = loop_end o
       /\ same_but_output (final o1) (final o)
       /\ (loop_end o = None -> status o = 1 ->
           output (final o1) = output (final o))
       /\ (loop_end o <> None ->
           removelast (output (final o1)) = removelast (output (final o))
           /\ (given "s" (fst (Libc.getopt_all argv OPTSTRING_V1)) = true ->
               output (final o1) = output (final o))).
Proof.
  intros Hq Hrun.
  destruct (parse_arguments_sim argv (initial_world term) Hq) as [Hg Hsim].
  split; [exact Hg|].
  pose proof (parse_arguments_output argv (initial_world term)) as Hw.
  pose proof (run_cases argv select_results term) as Hc.
  unfold run_v1, main_v1.
  destruct (parse_arguments_v1 argv (initial_world term)) as [[s1|] w1];
    destruct (parse_arguments argv (initial_world term)) as [[s|] w'] eqn:Hp;
    try contradiction.
  - (* both accept the command line *)
    destruct Hsim as [Hs ->]. subst w'.
    pose proof Hs as (Hcd & Ho & Hb & He & Ht).
    destruct (small_opts _ Hb) as (_ & _ & _ & Hnf & Hnz).
    destruct (parse_getopt_success _ _ _ _ Hp) as (_ & Hsil & _).
    unfold has_opt_v1. rewrite Ho, Hcd. fold (has_opt s OPT_HELP).
    fold (has_opt s OPT_SILENT).
    destruct (has_opt s OPT_HELP).
    { rewrite Hrun in Hc. inversion Hc; subst o; clear Hc.
      eexists. split; [reflexivity|]. cbn [status loop_end final].
      split; [reflexivity|]. split; [reflexivity|].
      split; [|split; [discriminate | congruence]].
      rewrite !run_exit_handlers_none by reflexivity.
      unfold same_but_output. auto 10. }
    destruct (countdown s <? 0).
    { rewrite Hrun in Hc. inversion Hc; subst o; clear Hc.
      eexists. split; [reflexivity|]. cbn [status loop_end final].
      rewrite !run_exit_handlers_none by reflexivity.
      split; [reflexivity|]. split; [reflexivity|].
      split; [apply same_but_output_refl|].
      split; [reflexivity | congruence]. }
    destruct Hc as [Hn Hc]. rewrite Hrun in Hc. unfold main_loop in Hc.
    destruct (countdown_loop _ s select_results _ _) as [[[r sl] wl]|] eqn:Hl;
      [|discriminate].
    rewrite (countdown_loop_sim _ _ _ _ _ _ _ Hs Hl).
    assert (Hres : resolve_exitcode s sl = exitcode s).
    { unfold resolve_exitcode, has_opt. rewrite Hnf.
      now rewrite andb_false_r. }
    assert (Hsup : has_opt s OPT_SUPPRESS_EXIT_INFO = false)
      by (unfold has_opt; now rewrite Hnz).
    rewrite Hsup, Hres in Hc. inversion Hc; subst o; clear Hc.
    eexists. split; [reflexivity|]. cbn [status loop_end final].
    split; [exact He|]. split; [reflexivity|].
    rewrite <- Hg, <- Hsil.
    destruct (has_opt s OPT_SILENT); cbn [negb].
    + destruct (run_exit_handlers_same wl wl (same_but_output_refl _))
        as (Hsame & _).
      split; [exact Hsame|]. split; [discriminate|]. auto.
    + destruct (run_exit_handlers_same
                  (fputs (exit_summary_v1 (exitcode_v1 s1)
                            (countdown s - sl)) Stdout wl)
                  (fputs (exit_summary (exitcode s) (countdown s - sl))
                     Stdout wl)
                  (same_but_output_refl _)) as (Hsame & E1 & E2).
      split; [exact Hsame|]. split; [discriminate|].
      intros _. rewrite E1, E2, !output_fputs, !removelast_last.
      split; [reflexivity | discriminate].
  - (* both reject it, with the same message *)
    subst w1. rewrite Hrun in Hc. inversion Hc; subst o; clear Hc.
    eexists. split; [reflexivity|]. cbn [status loop_end final].
    destruct Hw as (text & _ & ->).
    rewrite !run_exit_handlers_none by reflexivity.
    split; [reflexivity|]. split; [reflexivity|].
    split; [apply same_but_output_refl|].
    split; [reflexivity | congruence].
Qed.

(** ** The help path of [main] *)

(** [print_aligned] writes to its stream and does nothing else. *)
Lemma print_aligned_frame (out : stream) (first_line_prefix text : string)
    (ioctl : option Z) (term_width term_width' : Z) (w w' : world) :
  print_aligned out first_line_prefix text ioctl (term_width, w)
  = Some (term_width', w') ->
  same_but_output w' w
  /\ exists buf,
       output w'
       = (output w ++ [Fputs out first_line_prefix; Fputs out buf])%list.
Proof.
  clear int_conv.
  unfold print_aligned.
  destruct (get_terminal_width ioctl term_width) as [tw tw'].
  intros H.
  destruct (wrap_loop _ _ _ _ _ _ _) as [buf|]; [|discriminate].
  destruct (_ <=? _)%nat; [|discriminate].
  inversion H; subst term_width' w'; clear H.
  split; [unfold same_but_output; repeat split|].
  eexists. rewrite !output_fputs, <- app_assoc. reflexivity.
Qed.

Lemma same_but_output_sym (w1 w2 : world) :
  same_but_output w1 w2 -> same_but_output w2 w1.
Proof. unfold same_but_output. intuition congruence. Qed.

Lemma same_but_output_trans (w1 w2 w3 : world) :
  same_but_output w1 w2 -> same_but_output w2 w3 -> same_but_output w1 w3.
Proof. unfold same_but_output. intuition congruence. Qed.

(** [print_usage], when it returns, has written to standard error, and has
    done nothing else. *)
Lemma print_aligned_all_frame (lines : list (string * string))
    (ioctls : nat -> option Z) :
  forall (k : nat) (st st' : Z * world),
    print_aligned_all lines ioctls k st = Some st' ->
    same_but_output (snd st') (snd st)
    /\ exists errs,
         output (snd st') = (output (snd st) ++ errs)%list
         /\ forallb to_stderr errs = true
         /\ (lines <> [] -> errs <> []).
Proof.
  clear int_conv.
  induction lines as [|[prefix text] rest IH]; intros k st st' H.
  - inversion H; subst. split; [apply same_but_output_refl|].
    exists []. rewrite app_nil_r. repeat split. congruence.
  - cbn [print_aligned_all] in H. destruct st as [tw w].
    destruct (print_aligned Stderr prefix text (ioctls k) (tw, w))
      as [[tw1 w1]|] eqn:Hp; [|discriminate].
    destruct (print_aligned_frame _ _ _ _ _ _ _ _ Hp) as (Hs1 & buf & Ho1).
    destruct (IH _ _ _ H) as (Hs & errs & Ho & He & _).
    cbn [snd] in *. split; [exact (same_but_output_trans _ _ _ Hs Hs1)|].
    exists ([Fputs Stderr prefix; Fputs Stderr buf] ++ errs)%list.
    rewrite Ho, Ho1, <- app_assoc. split; [reflexivity|].
    split; [cbn [app forallb to_stderr andb]; exact He|].
    intros _. discriminate.
Qed.

(** [main_full] differs from [main] on the help path only. *)
Lemma main_full_cases (argv : list string) (select_results : nat -> Z)
    (ioctls : nat -> option Z) (w : world) :
  match parse_arguments argv w with
  | (Some s, w') =>
      if has_opt s OPT_HELP then
        main_full argv select_results ioctls w
        = match print_usage_text (hd "" argv) ioctls (0, w') with
          | Some (_, w'') =>
              Some {| status := 0; loop_end := None; final := w'' |}
          | None => None
          end
      else main_full argv select_results ioctls w = main argv select_results w
  | (None, _) =>
      main_full argv select_results ioctls w = main argv select_results w
  end.
Proof.
  unfold main_full, main.
  destruct (parse_arguments argv w) as [[s|] w']; [|reflexivity].
  destruct (has_opt s OPT_HELP); reflexivity.
Qed.

(** X6: [-h] goes before everything else on a command line without errors:
    whether or not a countdown is given, [main] calls [print_usage] before
    anything is written, polled or changed on the terminal, and returns 0
    when that call returns; there is no result when [print_usage] has no
    defined behaviour.  When the call returns it has written to standard
    error, and to standard error only, nothing was polled or read, and the
    terminal and the exit handlers are as they were. *)
Theorem help_goes_first (argv : list string) (select_results : nat -> Z)
    (ioctls : nat -> option Z) (term : option termios) :
  given "h" (fst (Libc.getopt_all argv OPTSTRING)) = true ->
  existsb bad_option (fst (Libc.getopt_all argv OPTSTRING)) = false ->
  match snd (Libc.getopt_all argv OPTSTRING) with
  | first :: _ => bad_countdown first = false
  | [] => True
  end ->
  run_full argv select_results ioctls term
  = match print_usage_text (hd "" argv) ioctls (0, initial_world term) with
    | Some (_, w) => Some {| status := 0; loop_end := None; final := w |}
    | None => None
    end
  /\ forall (term_width : Z) (w : world),
       print_usage_text (hd "" argv) ioctls (0, initial_world term)
       = Some (term_width, w) ->
       same_but_output w (initial_world term)
       /\ stdout_bytes (output w) = ""
       /\ stderr_events (output w) <> [].
Proof.
  intros Hh Ho Hn.
  destruct (parse_arguments_good argv (initial_world term) Ho Hn) as (s & Hp).
  destruct (parse_getopt_success _ _ _ _ Hp) as (_ & _ & Ehelp & _).
  assert (Hframe : forall tw w,
    print_usage_text (hd "" argv) ioctls (0, initial_world term)
    = Some (tw, w) ->
    same_but_output w (initial_world term)
    /\ stdout_bytes (output w) = ""
    /\ stderr_events (output w) <> []).
  { intros tw w Hu. unfold print_usage_text in Hu.
    destruct (print_aligned_all_frame _ _ _ _ _ Hu)
      as (Hs & errs & Hout & He & Hne).
    cbn [snd] in *. split; [exact Hs|].
    rewrite Hout. cbn [initial_world output app].
    split; [apply stdout_bytes_stderr; exact He|].
    rewrite stderr_events_stderr by exact He.
    apply Hne. unfold usage_lines. discriminate. }
  split; [|exact Hframe].
  unfold run_full.
  pose proof (main_full_cases argv select_results ioctls (initial_world term))
    as Hc.
  rewrite Hp, Ehelp, Hh in Hc. rewrite Hc.
  destruct (print_usage_text (hd "" argv) ioctls (0, initial_world term))
    as [[tw w]|] eqn:Hu; [|reflexivity].
  destruct (Hframe _ _ eq_refl) as ((_ & _ & Hx & _) & _).
  cbn [status loop_end final].
  rewrite run_exit_handlers_none by exact Hx. reflexivity.
Qed.

(** What is proved of [run] holds of the run with the help text in full:
    whenever that run returns, [run] returns the same status and the same
    end of the loop, in a process that differs at most in what was written
    to standard error; without [-h] the two are the same. *)
Lemma run_full_run (argv : list string) (select_results : nat -> Z)
    (ioctls : nat -> option Z) (term : option termios) (o : outcome) :
  run_full argv select_results ioctls term = Some o ->
  exists o',
    run argv select_results term = Some o'
    /\ status o' = status o
    /\ loop_end o' = loop_end o
    /\ same_but_output (final o') (final o)
    /\ stdout_bytes (output (final o')) = stdout_bytes (output (final o))
    /\ (given "h" (fst (Libc.getopt_all argv OPTSTRING)) = false -> o' = o).
Proof.
  unfold run_full. intros H.
  pose proof (main_full_cases argv select_results ioctls (initial_world term))
    as Hc.
  pose proof (run_cases argv select_results term) as Hr.
  pose proof (parse_arguments_output argv (initial_world term)) as Hw.
  destruct (parse_arguments argv (initial_world term)) as [[s|] w'] eqn:Hp.
  - subst w'.
    destruct (parse_getopt_success _ _ _ _ Hp) as (_ & _ & Ehelp & _).
    destruct (has_opt s OPT_HELP) eqn:Hh.
    + rewrite Hc in H.
      destruct (print_usage_text (hd "" argv) ioctls (0, initial_world term))
        as [[tw w]|] eqn:Hu; [|discriminate].
      unfold print_usage_text in Hu.
      destruct (print_aligned_all_frame _ _ _ _ _ Hu)
        as (Hs & errs & Hout & He & _).
      cbn [snd] in *. pose proof Hs as (_ & _ & Hx & _).
      cbn [status loop_end final] in H.
      rewrite run_exit_handlers_none in H by exact Hx.
      inversion H; subst o; clear H.
      eexists. split; [exact Hr|]. cbn [status loop_end final].
      split; [reflexivity|]. split; [reflexivity|].
      split.
      { apply (same_but_output_trans _ (initial_world term));
          [unfold same_but_output; repeat split
          | apply same_but_output_sym; exact Hs]. }
      split; [|congruence].
      rewrite Hout. cbn [initial_world output app].
      rewrite (stdout_bytes_stderr _ He). reflexivity.
    + rewrite Hc in H. unfold run in *.
      destruct (main argv select_results (initial_world term)) as [o0|];
        [|discriminate].
      inversion H; subst o; clear H.
      eexists. split; [reflexivity|].
      repeat split; auto using same_but_output_refl.
  - rewrite Hc in H. unfold run in *.
    destruct (main argv select_results (initial_world term)) as [o0|];
      [|discriminate].
    inversion H; subst o; clear H.
    eexists. split; [reflexivity|].
    repeat split; auto using same_but_output_refl.
Qed.
End Program.

(** * Sample runs

    Closed instances, with a C library that keeps the low 32 bits of a
    number too large for an [int]. *)

Example prepare_message_default :
  prepare_message DEFAULT_MSG_TEMPLATE 10
  = Some "Waiting for 10 seconds, press any key to exit..".
Proof. reflexivity. Qed.

Example scan_i_samples :
  Libc.scan_i "42" = Some 42 /\ Libc.scan_i " -7" = Some (-7)
  /\ Libc.scan_i "0x1F" = Some 31 /\ Libc.scan_i "010" = Some 8
  /\ Libc.scan_i "5x" = Some 5 /\ Libc.scan_i "abc" = None
  /\ Libc.scan_i "" = None /\ Libc.scan_i "0" = Some 0
  /\ Libc.sscanf_i Libc.truncate_int "255" = Some 255
  /\ Libc.sscanf_i Libc.truncate_int "4294967297" = Some 1.
Proof. repeat split; reflexivity. Qed.

Example getopt_all_samples :
  Libc.getopt_all ["waitexit"; "-sf"; "10"; "-e7"; "--"; "-z"] "shzfe:m:"
  = ([ {| Libc.opt := "s"; Libc.optarg := ""; Libc.diag := "" |};
       {| Libc.opt := "f"; Libc.optarg := ""; Libc.diag := "" |};
       {| Libc.opt := "e"; Libc.optarg := "7"; Libc.diag := "" |} ],
     ["10"; "-z"]).
Proof. reflexivity. Qed.

Lemma exit_code_resolution_witness :
  exists o,
    run Libc.truncate_int ["waitexit"; "-f"; "2"] no_input None = Some o
    /\ status o = 1.
Proof.
  destruct (run Libc.truncate_int ["waitexit"; "-f"; "2"] no_input None)
    as [o|] eqn:Hrun; [|vm_compute in Hrun; discriminate].
  exists o. split; [reflexivity|].
  assert (Hend : loop_end o = Some (Timeout, 0))
    by (vm_compute in Hrun; inversion Hrun; reflexivity).
  apply (proj1 (exit_code_resolution Libc.truncate_int
                  ["waitexit"; "-f"; "2"] no_input None o
                  Timeout 0 Hrun Hend)); vm_compute; reflexivity.
Defined.

(** C3 as it is worded fails: with [-e 5 -f 3] and no input, an explicit
    exit code 5 was given, yet the process exits with 1. *)
Lemma explicit_exit_code_overridden :
  exists o r,
    In r (fst (Libc.getopt_all ["waitexit"; "-e"; "5"; "-f"; "3"] OPTSTRING))
    /\ Libc.opt r = "e"%char
    /\ Libc.sscanf_i Libc.truncate_int (Libc.optarg r) = Some 5
    /\ run Libc.truncate_int ["waitexit"; "-e"; "5"; "-f"; "3"] no_input None
       = Some o
    /\ loop_end o = Some (Timeout, 0)
    /\ status o = 1.
Proof.
  eexists. exists {| Libc.opt := "e"; Libc.optarg := "5"; Libc.diag := "" |}.
  split; [left; reflexivity|].
  split; [reflexivity|]. split; [reflexivity|].
  split; [vm_compute; reflexivity|].
  split; reflexivity.
Qed.

Lemma invalid_configuration_rejected_witness :
  exists o,
    run Libc.truncate_int ["waitexit"; "-e"; "300"; "5"] no_input None
    = Some o
    /\ status o = 1 /\ loop_end o = None.
Proof.
  destruct (invalid_configuration_rejected Libc.truncate_int
              ["waitexit"; "-e"; "300"; "5"] no_input None)
    as (o & Hrun & Hs & Hl & _).
  - reflexivity.
  - exists o. auto.
Defined.

(** C6 as it is worded fails: with [-h] and no countdown the countdown is
    absent, yet the process shows the help and exits with 0.  So it does
    with the help text printed in full (standard input being no terminal,
    the width of the terminal is not known). *)
Lemma help_without_countdown_exits_zero :
  invalid_as_described Libc.truncate_int
    (Libc.getopt_all ["waitexit"; "-h"] OPTSTRING) = true
  /\ (exists o,
        run Libc.truncate_int ["waitexit"; "-h"] no_input None = Some o
        /\ status o = 0
        /\ output (final o) = [Usage "waitexit"])
  /\ exists o,
       run_full Libc.truncate_int ["waitexit"; "-h"] no_input (fun _ => None)
         None = Some o
       /\ status o = 0
       /\ stdout_bytes (output (final o)) = ""
       /\ stderr_bytes (output (final o)) = README_usage "waitexit".
Proof.
  split; [reflexivity|]. split.
  - eexists. split; [vm_compute; reflexivity|]. split; reflexivity.
  - eexists. split; [vm_compute; reflexivity|].
    split; [reflexivity|]. split; vm_compute; reflexivity.
Qed.

(** The conversion of [-e]'s argument and of the countdown reads a leading
    integer and ignores what follows it. *)
Example trailing_text_accepted :
  exists o,
    run Libc.truncate_int ["waitexit"; "-e"; "5x"; "0s"] no_input None
    = Some o
    /\ status o = 5 /\ loop_end o = Some (Timeout, 0).
Proof.
  eexists. split; [vm_compute; reflexivity|]. split; reflexivity.
Qed.

(** With this C library an exit code beyond [int] can pass for one within
    0..255. *)
Example number_beyond_int_accepted :
  exists o,
    run Libc.truncate_int ["waitexit"; "-e"; "4294967297"; "0"] no_input None
    = Some o
    /\ status o = 1 /\ loop_end o = Some (Timeout, 0).
Proof.
  eexists. split; [vm_compute; reflexivity|]. split; reflexivity.
Qed.

Lemma silent_run_writes_nothing_witness :
  exists o,
    run Libc.truncate_int ["waitexit"; "-s"; "3"] (input_at 2) None = Some o
    /\ stdout_bytes (output (final o)) = "".
Proof.
  apply (silent_run_writes_nothing Libc.truncate_int
           ["waitexit"; "-s"; "3"] (input_at 2) None).
  reflexivity.
Defined.

Lemma terminal_mode_restored_witness :
  exists o,
    run Libc.truncate_int ["waitexit"; "2"] (input_at 2)
      (Some {| c_iflag := 0; c_oflag := 0; c_cflag := 0;
               c_lflag := Z.lor ECHO ICANON |}) = Some o
    /\ stdin_term (final o)
       = Some {| c_iflag := 0; c_oflag := 0; c_cflag := 0;
                 c_lflag := Z.lor ECHO ICANON |}.
Proof.
  destruct (terminal_mode_restored Libc.truncate_int
              ["waitexit"; "2"] (input_at 2)
              (Some {| c_iflag := 0; c_oflag := 0; c_cflag := 0;
                       c_lflag := Z.lor ECHO ICANON |}))
    as ((o & Hrun & Hterm & _) & _).
  - vm_compute. reflexivity.
  - exists o. auto.
Defined.

(** C8 as it is worded fails: on a terminal, with the countdown missing,
    the process ends through an early error return and [reset_termio] has
    not run at all (nor was the terminal ever changed). *)
Lemma early_return_runs_no_reset :
  exists o,
    run Libc.truncate_int ["waitexit"] no_input
      (Some {| c_iflag := 0; c_oflag := 0; c_cflag := 0;
               c_lflag := Z.lor ECHO ICANON |}) = Some o
    /\ status o = 1
    /\ restores (final o) = 0%nat
    /\ exit_handlers (final o) = [].
Proof.
  eexists. split; [vm_compute; reflexivity|]. repeat split.
Qed.

(** * Instances of the further properties *)

Lemma parsed_settings_well_formed_witness :
  exists s,
    parse_arguments Libc.truncate_int
      ["waitexit"; "-e"; "7"; "-m"; "%S.."; "12"] (initial_world None)
    = (Some s, initial_world None)
    /\ 0 <= exitcode s <= 255
    /\ (String.length (template s) <= 255)%nat.
Proof.
  assert (Hp : parse_arguments Libc.truncate_int
                 ["waitexit"; "-e"; "7"; "-m"; "%S.."; "12"]
                 (initial_world None)
               = (Some {| countdown := 12; opts := 0; exitcode := 7;
                          template := "%S.." |}, initial_world None))
    by (vm_compute; reflexivity).
  eexists. split; [exact Hp|].
  destruct (parsed_settings_well_formed Libc.truncate_int _ _ _ _ Hp)
    as (He & Ht & _).
  split; assumption.
Defined.

Lemma option_bits_as_given_witness :
  exists s,
    parse_arguments Libc.truncate_int ["waitexit"; "-z"; "-s"; "-z"; "4"]
      (initial_world None)
    = (Some s, initial_world None)
    /\ has_opt s OPT_SUPPRESS_EXIT_INFO = true
    /\ has_opt s OPT_HELP = false.
Proof.
  assert (Hp : parse_arguments Libc.truncate_int
                 ["waitexit"; "-z"; "-s"; "-z"; "4"] (initial_world None)
               = (Some {| countdown := 4; opts := 5; exitcode := 0;
                          template := DEFAULT_MSG_TEMPLATE |},
                  initial_world None))
    by (vm_compute; reflexivity).
  eexists. split; [exact Hp|].
  destruct (option_bits_as_given Libc.truncate_int _ _ _ _ Hp)
    as (_ & Hh & Hz & _).
  split; [rewrite Hz | rewrite Hh]; vm_compute; reflexivity.
Defined.

Lemma template_of_last_m_witness :
  exists s,
    parse_arguments Libc.truncate_int
      ["waitexit"; "-m"; "first"; "3"; "-m"; "last %S"] (initial_world None)
    = (Some s, initial_world None)
    /\ template s = "last %S".
Proof.
  assert (Hp : parse_arguments Libc.truncate_int
                 ["waitexit"; "-m"; "first"; "3"; "-m"; "last %S"]
                 (initial_world None)
               = (Some {| countdown := 3; opts := 0; exitcode := 0;
                          template := "last %S" |}, initial_world None))
    by (vm_compute; reflexivity).
  eexists. split; [exact Hp|].
  apply (proj2 (template_of_last_m Libc.truncate_int _ _ _ _ Hp)
           [{| Libc.opt := "m"; Libc.optarg := "first"; Libc.diag := "" |}]
           {| Libc.opt := "m"; Libc.optarg := "last %S"; Libc.diag := "" |}
           []);
    vm_compute; reflexivity.
Defined.

Lemma countdown_of_first_operand_witness :
  exists s,
    parse_arguments Libc.truncate_int ["waitexit"; "0x10"; "-s"; "99"]
      (initial_world None)
    = (Some s, initial_world None)
    /\ Libc.sscanf_i Libc.truncate_int "0x10" = Some (countdown s).
Proof.
  assert (Hp : parse_arguments Libc.truncate_int
                 ["waitexit"; "0x10"; "-s"; "99"] (initial_world None)
               = (Some {| countdown := 16; opts := 1; exitcode := 0;
                          template := DEFAULT_MSG_TEMPLATE |},
                  initial_world None))
    by (vm_compute; reflexivity).
  eexists. split; [exact Hp|].
  exact (proj1 (countdown_of_first_operand Libc.truncate_int _ _ _ _ Hp)).
Defined.

Lemma early_exit_output_witness :
  exists o,
    run Libc.truncate_int ["waitexit"; "-e"; "256"; "5"] no_input None
    = Some o
    /\ polls (final o) = 0%nat
    /\ restores (final o) = 0%nat.
Proof.
  destruct (run Libc.truncate_int ["waitexit"; "-e"; "256"; "5"] no_input
              None) as [o|] eqn:Hrun; [|vm_compute in Hrun; discriminate].
  assert (Hend : loop_end o = None)
    by (vm_compute in Hrun; inversion Hrun; reflexivity).
  exists o. split; [reflexivity|].
  destruct (early_exit_output Libc.truncate_int _ _ _ _ Hrun Hend)
    as (_ & Hp & _ & Hr & _).
  split; assumption.
Defined.

Lemma help_goes_first_witness :
  exists o,
    run_full Libc.truncate_int ["waitexit"; "5"; "-h"; "-s"] no_input
      (fun _ => None) None = Some o
    /\ status o = 0
    /\ stdout_bytes (output (final o)) = "".
Proof.
  destruct (help_goes_first Libc.truncate_int
              ["waitexit"; "5"; "-h"; "-s"] no_input (fun _ => None) None)
    as [Hrun Hframe]; [vm_compute; reflexivity ..|].
  destruct (print_usage_text (hd "" ["waitexit"; "5"; "-h"; "-s"])
              (fun _ => None) (0, initial_world None))
    as [[tw w]|] eqn:Hu; [|vm_compute in Hu; discriminate].
  exists {| status := 0; loop_end := None; final := w |}.
  split; [exact Hrun|]. split; [reflexivity|].
  exact (proj1 (proj2 (Hframe tw w eq_refl))).
Defined.

Lemma exit_status_range_witness :
  exists o,
    run Libc.truncate_int ["waitexit"; "-e"; "255"; "1"] no_input None
    = Some o
    /\ 0 <= status o <= 255.
Proof.
  destruct (run Libc.truncate_int ["waitexit"; "-e"; "255"; "1"] no_input
              None) as [o|] eqn:Hrun; [|vm_compute in Hrun; discriminate].
  exists o. split; [reflexivity|].
  exact (exit_status_range Libc.truncate_int _ _ _ _ Hrun).
Defined.

Lemma run_transcript_witness :
  exists o,
    run Libc.truncate_int ["waitexit"; "-z"; "-m"; "%S.."; "3"] (input_at 2)
      None = Some o
    /\ output (final o)
       = [Fputs Stdout "3.."; Fputs Stdout CLEAR_LINE; Fputs Stdout "2..";
          Fputs Stdout (CLEAR_LINE ++ String LF "")].
Proof.
  assert (Hp : parse_arguments Libc.truncate_int
                 ["waitexit"; "-z"; "-m"; "%S.."; "3"] (initial_world None)
               = (Some {| countdown := 3; opts := 4; exitcode := 0;
                          template := "%S.." |}, initial_world None))
    by (vm_compute; reflexivity).
  destruct (run Libc.truncate_int ["waitexit"; "-z"; "-m"; "%S.."; "3"]
              (input_at 2) None) as [o|] eqn:Hrun;
    [|vm_compute in Hrun; discriminate].
  assert (Hend : loop_end o = Some (Interrupted, 2))
    by (vm_compute in Hrun; inversion Hrun; reflexivity).
  exists o. split; [reflexivity|].
  rewrite (run_transcript Libc.truncate_int _ _ _ _ _ _ _ _ Hrun Hend Hp).
  vm_compute. reflexivity.
Defined.

Lemma polls_and_reads_witness :
  exists o,
    run Libc.truncate_int ["waitexit"; "5"] (input_at 3) None = Some o
    /\ polls (final o) = 3%nat
    /\ drains (final o) = 1%nat.
Proof.
  assert (Hp : parse_arguments Libc.truncate_int ["waitexit"; "5"]
                 (initial_world None)
               = (Some {| countdown := 5; opts := 0; exitcode := 0;
                          template := DEFAULT_MSG_TEMPLATE |},
                  initial_world None))
    by (vm_compute; reflexivity).
  destruct (run Libc.truncate_int ["waitexit"; "5"] (input_at 3) None)
    as [o|] eqn:Hrun; [|vm_compute in Hrun; discriminate].
  assert (Hend : loop_end o = Some (Interrupted, 3))
    by (vm_compute in Hrun; inversion Hrun; reflexivity).
  exists o. split; [reflexivity|].
  destruct (polls_and_reads Libc.truncate_int _ _ _ _ _ _ _ _ Hrun Hend Hp)
    as (_ & Hpo & Hd & _).
  split; [rewrite Hpo | rewrite Hd]; reflexivity.
Defined.

Lemma short_countdown_is_safe_witness :
  exists o,
    run Libc.truncate_int ["waitexit"; "-m"; "%S%S%S"; "99999999"]
      (input_at 1) None = Some o.
Proof.
  assert (Hp : parse_arguments Libc.truncate_int
                 ["waitexit"; "-m"; "%S%S%S"; "99999999"] (initial_world None)
               = (Some {| countdown := 99999999; opts := 0; exitcode := 0;
                          template := "%S%S%S" |}, initial_world None))
    by (vm_compute; reflexivity).
  apply (short_countdown_is_safe Libc.truncate_int _ (input_at 1) None _ _ Hp);
    reflexivity.
Defined.

Lemma long_countdown_overflows_witness :
  run Libc.truncate_int
    ["waitexit"; "-m";
     "%S%S%S%S%S%S%S%S%S%S%S%S%S%S%S%S%S%S%S%S%S%S%S%S%S%S%S%S%S%S%S%S%S%S%S%S%S%S%S%S%S%S%S%S%S%S%S%S%S%S%S%S%S%S%S%S%S%S%S%S%S%S%S%S%S%S%S%S%S%S%S%S%S%S%S%S%S%S%S%S%S%S%S%S%S%S%S%S%S%S%S%S%S%S%S%S%S%S%S%S%S%S%S%S%S%S%S%S%S%S%S%S%S%S";
     "100000000"] no_input None = None.
Proof.
  assert (Hp : parse_arguments Libc.truncate_int
                 ["waitexit"; "-m";
                  "%S%S%S%S%S%S%S%S%S%S%S%S%S%S%S%S%S%S%S%S%S%S%S%S%S%S%S%S%S%S%S%S%S%S%S%S%S%S%S%S%S%S%S%S%S%S%S%S%S%S%S%S%S%S%S%S%S%S%S%S%S%S%S%S%S%S%S%S%S%S%S%S%S%S%S%S%S%S%S%S%S%S%S%S%S%S%S%S%S%S%S%S%S%S%S%S%S%S%S%S%S%S%S%S%S%S%S%S%S%S%S%S%S%S";
                  "100000000"] (initial_world None)
               = (Some {| countdown := 100000000; opts := 0; exitcode := 0;
                          template :=
                  "%S%S%S%S%S%S%S%S%S%S%S%S%S%S%S%S%S%S%S%S%S%S%S%S%S%S%S%S%S%S%S%S%S%S%S%S%S%S%S%S%S%S%S%S%S%S%S%S%S%S%S%S%S%S%S%S%S%S%S%S%S%S%S%S%S%S%S%S%S%S%S%S%S%S%S%S%S%S%S%S%S%S%S%S%S%S%S%S%S%S%S%S%S%S%S%S%S%S%S%S%S%S%S%S%S%S%S%S%S%S%S%S%S%S" |},
                  initial_world None))
    by (vm_compute; reflexivity).
  apply (proj2 (long_countdown_overflows Libc.truncate_int _ no_input None
                  _ _ Hp eq_refl eq_refl
                  ltac:(vm_compute; lia) ltac:(cbn; lia))).
Defined.

Lemma terminal_during_countdown_witness :
  exists st w,
    ticks 2 {| countdown := 3; opts := 0; exitcode := 0;
               template := DEFAULT_MSG_TEMPLATE |} no_input (Running 3)
      (init_termio
         (initial_world
            (Some {| c_iflag := 0; c_oflag := 0; c_cflag := 0;
                     c_lflag := Z.lor ECHO ICANON |})))
    = Some (st, w)
    /\ stdin_term w = Some zero_termios
    /\ exit_handlers w = [Reset_termio].
Proof.
  destruct (ticks 2 {| countdown := 3; opts := 0; exitcode := 0;
                       template := DEFAULT_MSG_TEMPLATE |} no_input
              (Running 3)
              (init_termio
                 (initial_world
                    (Some {| c_iflag := 0; c_oflag := 0; c_cflag := 0;
                             c_lflag := Z.lor ECHO ICANON |}))))
    as [[st w]|] eqn:Ht; [|vm_compute in Ht; discriminate].
  exists st, w. split; [reflexivity|].
  destruct (terminal_during_countdown
              {| countdown := 3; opts := 0; exitcode := 0;
                 template := DEFAULT_MSG_TEMPLATE |} no_input
              (Some {| c_iflag := 0; c_oflag := 0; c_cflag := 0;
                       c_lflag := Z.lor ECHO ICANON |}) 2 st w Ht)
    as ((Hs & _ & _ & Hh) & _).
  split; [exact Hs | exact Hh].
Defined.

Lemma print_aligned_one_line_witness :
  print_aligned Stderr "-h      " "  Show this help." (Some 30)
    (0, initial_world None)
  = Some (30,
          fputs ("Show this help." ++ String LF "") Stderr
            (fputs "-h      " Stderr (initial_world None))).
Proof.
  apply (print_aligned_one_line Stderr "-h      " "  Show this help."
           (Some 30) 0 (initial_world None)).
  right. vm_compute. discriminate.
Defined.

Lemma print_aligned_no_room_witness :
  print_aligned Stderr "-h      " "Show this help." (Some 8)
    (0, initial_world None) = None.
Proof.
  apply (print_aligned_no_room Stderr "-h      " "Show this help." (Some 8)
           0 (initial_world None)); [reflexivity | discriminate].
Defined.

Lemma print_aligned_width_witness :
  exists buf,
    Z.of_nat
      (widest
         (list_ascii_of_string
            ("-e CODE " ++ buf)) 0) <= 20.
Proof.
  destruct (print_aligned Stderr "-e CODE " "Exit with status CODE."
              (Some 20) (0, initial_world None)) as [[tw' w']|] eqn:Hp;
    [|vm_compute in Hp; discriminate].
  destruct (print_aligned_width Stderr "-e CODE " "Exit with status CODE."
              (Some 20) 0 tw' (initial_world None) w' Hp)
    as (buf & _ & Hw & _).
  - vm_compute. discriminate.
  - exists buf. exact Hw.
Defined.

Lemma print_aligned_keeps_text_witness :
  exists buf,
    nonblank (list_ascii_of_string buf)
    = list_ascii_of_string "ExitwithstatusCODE.".
Proof.
  destruct (print_aligned Stderr "-e CODE " "Exit with status CODE."
              (Some 20) (0, initial_world None)) as [[tw' w']|] eqn:Hp;
    [|vm_compute in Hp; discriminate].
  destruct (print_aligned_keeps_text Stderr "-e CODE "
              "Exit with status CODE." (Some 20) 0 tw'
              (initial_world None) w' Hp) as (buf & _ & Hb).
  exists buf. exact Hb.
Defined.

Lemma usage_at_full_width_witness :
  exists term_width' w',
    print_usage_text "/usr/local/bin/waitexit" (fun _ => Some 132)
      (0, initial_world None) = Some (term_width', w')
    /\ stderr_bytes (output w') = README_usage "waitexit".
Proof.
  destruct (usage_at_full_width "/usr/local/bin/waitexit"
              (fun _ => Some 132) 0 (initial_world None))
    as (tw' & w' & Hp & _ & He & _).
  - left. vm_compute. discriminate.
  - intros k c Hc. inversion Hc. right. vm_compute. discriminate.
  - vm_compute. lia.
  - exists tw', w'. split; [exact Hp | exact He].
Defined.

Lemma first_version_compatible_witness :
  exists o1,
    run_v1 Libc.truncate_int ["waitexit"; "-e"; "3"; "2"] (input_at 2) None
    = Some o1
    /\ status o1 = 3.
Proof.
  destruct (run Libc.truncate_int ["waitexit"; "-e"; "3"; "2"] (input_at 2)
              None) as [o|] eqn:Hrun; [|vm_compute in Hrun; discriminate].
  assert (Hs : status o = 3)
    by (vm_compute in Hrun; inversion Hrun; reflexivity).
  destruct (first_version_compatible Libc.truncate_int
              ["waitexit"; "-e"; "3"; "2"] (input_at 2) None o
              ltac:(vm_compute; reflexivity) Hrun)
    as (_ & o1 & H1 & Hst & _).
  exists o1. split; [exact H1 | congruence].
Defined.

(** On a terminal of 8 columns [waitexit -h] comes to no end: the first
    line of the help text already reads past the end of its text. *)
Example help_on_narrow_terminal :
  run_full Libc.truncate_int ["waitexit"; "-h"] no_input (fun _ => Some 8)
    (Some zero_termios) = None.
Proof. vm_compute. reflexivity. Qed.
